(** * PyOSCAR: layers, graphs and the graph view

    A shallow embedding of [core/layer.py], [graphs/line_layer.py],
    [graphs/bar_layer.py], [graphs/summary_layer.py], [core/graph.py] and
    [core/graph_view.py], and the properties of the viewport model.

    Numbers.  Python floats are modelled by the rationals [Q] with exact
    arithmetic; rounding, NaN and infinite samples are outside the model.
    Python's [==] on floats is [Qeq_bool], so results are stated up to [==].
    An array is one-dimensional, of [float64] or [int64] values as
    [np.array] makes them of Python numbers.  Comparisons and products
    with a float are exact on integers too, but the difference of two
    [int64] values wraps around when it leaves the 64-bit range.  The
    model subtracts exactly, and a property that depends on such a
    difference carries the hypothesis that it stays in range
    ([int64_range]).  Module [Float64] runs the scroll arithmetic on
    binary64 floats.

    Exceptions.  Code that can raise runs in the [result] monad; [Raise e]
    is an uncaught Python exception.

    Objects.  A [GraphView] holds references to [Graph] objects that are
    shared between its [graphs] list and its link groups; the objects live
    in a [heap] and are updated in place. *)

From Stdlib Require Import PrimFloat QArith Qminmax Qabs Lqa ZArith Sorted.
From stdpp Require Import gmap strings list.

Open Scope Q_scope.

(** ** Exceptions *)

Inductive pyerr := ValueError | TypeError | IndexError | KeyError | ReferenceError.

Inductive result (A : Type) : Type :=
| Ok (a : A)
| Raise (e : pyerr).
Arguments Ok {A} a.
Arguments Raise {A} e.

Definition bind {A B} (m : result A) (k : A -> result B) : result B :=
  match m with
  | Ok a => k a
  | Raise e => Raise e
  end.

Notation "'do' x <- m ; k" := (bind m (fun x => k))
  (at level 10, x name, m at level 100, k at level 200).
Notation "'do' ' p <- m ; k" := (bind m (fun x => match x with p => k end))
  (at level 10, p pattern, m at level 100, k at level 200).

(** [for x in xs: s = body(s, x)] with exceptions propagating. *)
Fixpoint for_each {S X} (body : S -> X -> result S) (xs : list X) (s : S) : result S :=
  match xs with
  | [] => Ok s
  | x :: xs' => do s' <- body s x; for_each body xs' s'
  end.

(** ** Float comparisons and numpy reductions *)

(** Python [a < b]. *)
Definition Qltb (a b : Q) : bool := negb (Qle_bool b a).

(** An operand that must be a float: arithmetic on [None] raises. *)
Definition as_float (o : option Q) : result Q :=
  match o with
  | Some q => Ok q
  | None => Raise TypeError
  end.

(** [np.min(a)] and [np.max(a)]: a zero-size array raises [ValueError]. *)
Definition np_min (a : list Q) : result Q :=
  match a with
  | [] => Raise ValueError
  | x :: t => Ok (foldl Qmin x t)
  end.

Definition np_max (a : list Q) : result Q :=
  match a with
  | [] => Raise ValueError
  | x :: t => Ok (foldl Qmax x t)
  end.

(** [a[i]] on an array. *)
Definition index (a : list Q) (i : nat) : result Q :=
  match a !! i with
  | Some q => Ok q
  | None => Raise IndexError
  end.

(** The running extremum of an extent scan.  The source starts a scan at
    [float('inf')] (or [float('-inf')]) and afterwards compares with that
    sentinel; the samples being finite, the accumulator is the sentinel
    exactly as long as nothing was folded in.  [None] is the sentinel.
    [py_min m v] is [min(m, v)]: Python keeps [m] unless [v < m]. *)
Definition py_min (min_val : option Q) (v : Q) : option Q :=
  match min_val with
  | None => Some v
  | Some m => Some (if Qltb v m then v else m)
  end.

Definition py_max (max_val : option Q) (v : Q) : option Q :=
  match max_val with
  | None => Some v
  | Some m => Some (if Qltb m v then v else m)
  end.

(** [if a is not None and len(a) > 0: acc = min(acc, np.min(a))]. *)
Definition scan_min (min_val : option Q) (a : option (list Q)) : result (option Q) :=
  match a with
  | Some arr =>
      if (0 <? length arr)%nat
      then do m <- np_min arr; Ok (py_min min_val m)
      else Ok min_val
  | None => Ok min_val
  end.

Definition scan_max (max_val : option Q) (a : option (list Q)) : result (option Q) :=
  match a with
  | Some arr =>
      if (0 <? length arr)%nat
      then do m <- np_max arr; Ok (py_max max_val m)
      else Ok max_val
  | None => Ok max_val
  end.

(** [0.0 if acc == float('inf') else acc]. *)
Definition or_zero (acc : option Q) : Q :=
  match acc with
  | None => 0
  | Some v => v
  end.

(** ** Layers *)

(** One entry of [data_series]: the ['x'] and ['y'] arrays.  [add_data]
    always stores both keys, so the source's ['x' in series] tests hold;
    the style entries of the dictionary are never read by extent queries. *)
Record Series := mkSeries { series_x : list Q; series_y : list Q }.

(** One entry of [SummaryLayer.data_points]: the ['min'] and ['max']
    statistics ([add_data_point] always stores both). *)
Record Stats := mkStats { stats_min : Q; stats_max : Q }.

(** The concrete layer classes.  [XAxisLayer] and [YAxisLayer] override
    only [render], so for extents they are [BaseLayer]. *)
Inductive LayerKind :=
| BaseLayer
| LineLayer (x_data y_data : option (list Q)) (data_series : list (string * Series))
| BarLayer (x_data y_data : option (list Q)) (data_series : list (string * Series))
| SummaryLayer (data_points : list (string * Stats)) (labels : list string).

Module Layer.

(** [core.layer.Layer]: the attributes read by graphs, and [_data]. *)
Record t := mk {
  name : string;
  visible : bool;
  order : Z;
  _data : list (string * list Q);
  selected : bool;
  highlighted : bool;
  kind : LayerKind
}.

(** [Layer.__init__] followed by the subclass's own initialisation. *)
Definition init (n : string) (k : LayerKind) : t :=
  mk n true 0 [] false false k.

(** [dict[key] = value] on an insertion-ordered dictionary. *)
Fixpoint dict_set {V} (d : list (string * V)) (key : string) (v : V) : list (string * V) :=
  match d with
  | [] => [(key, v)]
  | (k, w) :: d' => if String.eqb k key then (k, v) :: d' else (k, w) :: dict_set d' key v
  end.

(** [Layer.add_data(key, data)]. *)
Definition add_data (key : string) (data : list Q) (l : t) : t :=
  mk (name l) (visible l) (order l) (dict_set (_data l) key data)
     (selected l) (highlighted l) (kind l).

Definition set_visible (b : bool) (l : t) : t :=
  mk (name l) b (order l) (_data l) (selected l) (highlighted l) (kind l).

Definition set_order (o : Z) (l : t) : t :=
  mk (name l) (visible l) o (_data l) (selected l) (highlighted l) (kind l).

Definition set_kind (k : LayerKind) (l : t) : t :=
  mk (name l) (visible l) (order l) (_data l) (selected l) (highlighted l) k.

End Layer.

(** [LineLayer] and [BarLayer] share [add_data]. *)
Definition series_add_data (x y : list Q) (series_name : string)
    (x_data y_data : option (list Q)) (data_series : list (string * Series))
    : option (list Q) * option (list Q) * list (string * Series) :=
  if String.eqb series_name "default"
  then (Some x, Some y, data_series)
  else (x_data, y_data, Layer.dict_set data_series series_name (mkSeries x y)).

Module LineLayer.

Definition init : LayerKind := LineLayer None None [].

Definition add_data (x y : list Q) (series_name : string) (l : Layer.t) : Layer.t :=
  match Layer.kind l with
  | LineLayer xd yd ds =>
      let '(xd', yd', ds') := series_add_data x y series_name xd yd ds in
      Layer.set_kind (LineLayer xd' yd' ds') l
  | _ => l
  end.

Definition min_x (x_data : option (list Q)) (data_series : list (string * Series)) : result Q :=
  do min_val <- scan_min None x_data;
  do min_val <- for_each (fun acc s => scan_min acc (Some (series_x (snd s)))) data_series min_val;
  Ok (or_zero min_val).

Definition max_x (x_data : option (list Q)) (data_series : list (string * Series)) : result Q :=
  do max_val <- scan_max None x_data;
  do max_val <- for_each (fun acc s => scan_max acc (Some (series_x (snd s)))) data_series max_val;
  Ok (or_zero max_val).

Definition min_y (y_data : option (list Q)) (data_series : list (string * Series)) : result Q :=
  do min_val <- scan_min None y_data;
  do min_val <- for_each (fun acc s => scan_min acc (Some (series_y (snd s)))) data_series min_val;
  Ok (or_zero min_val).

Definition max_y (y_data : option (list Q)) (data_series : list (string * Series)) : result Q :=
  do max_val <- scan_max None y_data;
  do max_val <- for_each (fun acc s => scan_max acc (Some (series_y (snd s)))) data_series max_val;
  Ok (or_zero max_val).

End LineLayer.

Module BarLayer.

Definition init : LayerKind := BarLayer None None [].

Definition add_data (x y : list Q) (series_name : string) (l : Layer.t) : Layer.t :=
  match Layer.kind l with
  | BarLayer xd yd ds =>
      let '(xd', yd', ds') := series_add_data x y series_name xd yd ds in
      Layer.set_kind (BarLayer xd' yd' ds') l
  | _ => l
  end.

Definition min_x (x_data : option (list Q)) (data_series : list (string * Series)) : result Q :=
  do min_val <- scan_min None x_data;
  do min_val <- for_each (fun acc s => scan_min acc (Some (series_x (snd s)))) data_series min_val;
  Ok (or_zero min_val).

(** The padding for the bar width uses the spacing of the default
    series' first two x values, as it is: it is negative when they
    descend.  The spacing is the exact difference; on numpy integers the
    code's is that only within [int64_range]. *)
Definition max_x (x_data : option (list Q)) (data_series : list (string * Series)) : result Q :=
  do max_val <- scan_max None x_data;
  do max_val <- for_each (fun acc s => scan_max acc (Some (series_x (snd s)))) data_series max_val;
  match max_val with
  | Some m =>
      match x_data with
      | Some xs =>
          if (1 <? length xs)%nat
          then do x1 <- index xs 1; do x0 <- index xs 0; Ok (m + (x1 - x0) * 0.5)
          else Ok m
      | None => Ok m
      end
  | None => Ok 0
  end.

(** [if min_val > 0: return 0.0]; the untouched sentinel [inf] is
    positive as well. *)
Definition min_y (y_data : option (list Q)) (data_series : list (string * Series)) : result Q :=
  do min_val <- scan_min None y_data;
  do min_val <- for_each (fun acc s => scan_min acc (Some (series_y (snd s)))) data_series min_val;
  match min_val with
  | None => Ok 0
  | Some m => if Qltb 0 m then Ok 0 else Ok m
  end.

(** [if max_val != float('-inf'): max_val *= 1.05]. *)
Definition max_y (y_data : option (list Q)) (data_series : list (string * Series)) : result Q :=
  do max_val <- scan_max None y_data;
  do max_val <- for_each (fun acc s => scan_max acc (Some (series_y (snd s)))) data_series max_val;
  match max_val with
  | Some m => Ok (m * 1.05)
  | None => Ok 0
  end.

End BarLayer.

Module SummaryLayer.

Definition init : LayerKind := SummaryLayer [] [].

Definition clear_data (l : Layer.t) : Layer.t :=
  match Layer.kind l with
  | SummaryLayer _ _ => Layer.set_kind (SummaryLayer [] []) l
  | _ => l
  end.

Definition min_x (labels : list string) : result Q :=
  if (length labels =? 0)%nat then Ok 0 else Ok 0.

Definition max_x (labels : list string) : result Q :=
  if (length labels =? 0)%nat then Ok 0 else Ok (inject_Z (Z.of_nat (length labels))).

Definition min_y (data_points : list (string * Stats)) : result Q :=
  do min_val <- for_each (fun acc s => Ok (py_min acc (stats_min (snd s)))) data_points None;
  Ok (or_zero min_val).

Definition max_y (data_points : list (string * Stats)) : result Q :=
  do max_val <- for_each (fun acc s => Ok (py_max acc (stats_max (snd s)))) data_points None;
  Ok (or_zero max_val).

End SummaryLayer.

(** Method dispatch on the layer's class. *)
Definition layer_min_x (l : Layer.t) : result Q :=
  match Layer.kind l with
  | BaseLayer => Ok 0
  | LineLayer xd _ ds => LineLayer.min_x xd ds
  | BarLayer xd _ ds => BarLayer.min_x xd ds
  | SummaryLayer _ labels => SummaryLayer.min_x labels
  end.

Definition layer_max_x (l : Layer.t) : result Q :=
  match Layer.kind l with
  | BaseLayer => Ok 0
  | LineLayer xd _ ds => LineLayer.max_x xd ds
  | BarLayer xd _ ds => BarLayer.max_x xd ds
  | SummaryLayer _ labels => SummaryLayer.max_x labels
  end.

Definition layer_min_y (l : Layer.t) : result Q :=
  match Layer.kind l with
  | BaseLayer => Ok 0
  | LineLayer _ yd ds => LineLayer.min_y yd ds
  | BarLayer _ yd ds => BarLayer.min_y yd ds
  | SummaryLayer dp _ => SummaryLayer.min_y dp
  end.

Definition layer_max_y (l : Layer.t) : result Q :=
  match Layer.kind l with
  | BaseLayer => Ok 0
  | LineLayer _ yd ds => LineLayer.max_y yd ds
  | BarLayer _ yd ds => BarLayer.max_y yd ds
  | SummaryLayer dp _ => SummaryLayer.max_y dp
  end.

(** ** Graph *)

Module Graph.

(** [core.graph.Graph].  The four cached bounds are [None] until they
    are computed or set. *)
Record t := mk {
  name : string;
  title : string;
  units : string;
  visible : bool;
  min_height : Z;
  max_height : Z;
  height : Z;
  show_title : bool;
  _min_x : option Q;
  _max_x : option Q;
  _min_y : option Q;
  _max_y : option Q;
  layers : list Layer.t;
  _layers_by_name : gmap string Layer.t;
  current_time : option Q
}.

Definition init (n ttl u : string) (mh : Z) : t :=
  mk n ttl u true mh 1000 mh true None None None None [] ∅ None.

Definition with_bounds (mnx mxx mny mxy : option Q) (g : t) : t :=
  mk (name g) (title g) (units g) (visible g) (min_height g) (max_height g)
     (height g) (show_title g) mnx mxx mny mxy
     (layers g) (_layers_by_name g) (current_time g).

Definition with_layers (ls : list Layer.t) (by_name : gmap string Layer.t) (g : t) : t :=
  mk (name g) (title g) (units g) (visible g) (min_height g) (max_height g)
     (height g) (show_title g) (_min_x g) (_max_x g) (_min_y g) (_max_y g)
     ls by_name (current_time g).

Definition set_visible (b : bool) (g : t) : t :=
  mk (name g) (title g) (units g) b (min_height g) (max_height g)
     (height g) (show_title g) (_min_x g) (_max_x g) (_min_y g) (_max_y g)
     (layers g) (_layers_by_name g) (current_time g).

(** [list.sort(key=order)]: stable, so a layer goes behind the layers of
    the same order that are already there. *)
Fixpoint insert_sorted (l : Layer.t) (ls : list Layer.t) : list Layer.t :=
  match ls with
  | [] => [l]
  | l' :: ls' =>
      if (Layer.order l <? Layer.order l')%Z then l :: l' :: ls'
      else l' :: insert_sorted l ls'
  end.

(** [add_layer]: the list was sorted before the append, so sorting it
    again puts the new layer in its place.  The placement hint and the
    movable flag are not modelled. *)
Definition add_layer (layer : Layer.t) (o : Z) (g : t) : t :=
  let layer := Layer.set_order o layer in
  with_layers (insert_sorted layer (layers g))
              (<[Layer.name layer := layer]> (_layers_by_name g)) g.

(** One turn of the loop of [reset_bounds] over the layers. *)
Definition widen (g : t) (layer : Layer.t) : result t :=
  if negb (Layer.visible layer) then Ok g
  else
    do lo_x <- layer_min_x layer;
    let mnx := match _min_x g with
               | None => lo_x
               | Some m => if Qltb lo_x m then lo_x else m
               end in
    do hi_x <- layer_max_x layer;
    let mxx := match _max_x g with
               | None => hi_x
               | Some m => if Qltb m hi_x then hi_x else m
               end in
    do lo_y <- layer_min_y layer;
    let mny := match _min_y g with
               | None => lo_y
               | Some m => if Qltb lo_y m then lo_y else m
               end in
    do hi_y <- layer_max_y layer;
    let mxy := match _max_y g with
               | None => hi_y
               | Some m => if Qltb m hi_y then hi_y else m
               end in
    Ok (with_bounds (Some mnx) (Some mxx) (Some mny) (Some mxy) g).

(** The end of [reset_bounds]: defaults, then the margin on the y axis.
    [max_y - min_y] is the exact difference; on numpy integers the
    code's is that only within [int64_range]. *)
Definition finish_bounds (g : t) : t :=
  let mnx := default 0 (_min_x g) in
  let mxx := default 1 (_max_x g) in
  let mny := default 0 (_min_y g) in
  let mxy := default 1 (_max_y g) in
  let y_range := mxy - mny in
  let y_range := if Qeq_bool y_range 0 then 1 else y_range in
  with_bounds (Some mnx) (Some mxx)
              (Some (mny - y_range * 0.05)) (Some (mxy + y_range * 0.05)) g.

Definition reset_bounds (g : t) : result t :=
  do g' <- for_each widen (layers g) (with_bounds None None None None g);
  Ok (finish_bounds g').

Definition set_x_bounds (min_x max_x : Q) (g : t) : t :=
  with_bounds (Some min_x) (Some max_x) (_min_y g) (_max_y g) g.

Definition set_y_bounds (min_y max_y : Q) (g : t) : t :=
  with_bounds (_min_x g) (_max_x g) (Some min_y) (Some max_y) g.

(** The getters return the cached field, after a [reset_bounds] when it
    is [None]; they return the graph as the call leaves it. *)
Definition min_x (g : t) : result (option Q * t) :=
  match _min_x g with
  | None => do g' <- reset_bounds g; Ok (_min_x g', g')
  | Some _ => Ok (_min_x g, g)
  end.

Definition max_x (g : t) : result (option Q * t) :=
  match _max_x g with
  | None => do g' <- reset_bounds g; Ok (_max_x g', g')
  | Some _ => Ok (_max_x g, g)
  end.

Definition min_y (g : t) : result (option Q * t) :=
  match _min_y g with
  | None => do g' <- reset_bounds g; Ok (_min_y g', g')
  | Some _ => Ok (_min_y g, g)
  end.

Definition max_y (g : t) : result (option Q * t) :=
  match _max_y g with
  | None => do g' <- reset_bounds g; Ok (_max_y g', g')
  | Some _ => Ok (_max_y g, g)
  end.

(** [isinstance(layer._data, dict)]: [_data] is created as a dictionary
    and only ever updated by key. *)
Definition isinstance_dict (d : list (string * list Q)) : bool := true.

(** [is_empty]: Python reads [a and not b or c] as [(a and not b) or c]. *)
Definition is_empty (g : t) : bool :=
  forallb (fun layer =>
             negb ((Layer.visible layer && negb (isinstance_dict (Layer._data layer)))
                   || (0 <? length (Layer._data layer))%nat))
          (layers g).

(** The four reads of the bounds that [render] makes for the axis limits
    and again for every visible layer. *)
Definition read_bounds (g : t) : result t :=
  do '(_, g) <- min_x g;
  do '(_, g) <- max_x g;
  do '(_, g) <- min_y g;
  do '(_, g) <- max_y g;
  Ok g.

(** [render], as far as the graph's state goes.  Drawing, which is each
    visible layer's [render] on the matplotlib axis, is not modelled, nor
    are the exceptions it can raise (a series whose x and y differ in
    length cannot be drawn). *)
Definition render (g : t) : result t :=
  if negb (visible g) then Ok g
  else
    do g <- read_bounds g;
    for_each (fun g layer => if Layer.visible layer then read_bounds g else Ok g)
             (layers g) g.

End Graph.

(** ** GraphView *)

(** References to [Graph] objects, and the objects they refer to. *)
Definition loc := nat.
Abbreviation heap := (gmap loc Graph.t).

Definition deref (h : heap) (r : loc) : result Graph.t :=
  match h !! r with
  | Some g => Ok g
  | None => Raise ReferenceError
  end.

(** [l[i]] with Python's negative indices. *)
Definition py_index {A} (l : list A) (i : Z) : result A :=
  let n := Z.of_nat (length l) in
  let j := if (i <? 0)%Z then (n + i)%Z else i in
  if (j <? 0)%Z then Raise IndexError
  else match l !! Z.to_nat j with
       | Some a => Ok a
       | None => Raise IndexError
       end.

(** A matplotlib mouse event: the axes under the pointer (if any), the
    button or scroll direction, the pointer's data x. *)
Record MouseEvent := mkEvent {
  inaxes : option unit;
  button : string;
  xdata : option Q
}.

Module GraphView.

(** [core.graph_view.GraphView].  [fig] is the figure once shown;
    [axes] is [len(self.axes)]. *)
Record t := mk {
  title : string;
  graphs : list loc;
  _graphs_by_name : gmap string loc;
  linked_groups : gmap Z (list loc);
  fig : option unit;
  axes : nat;
  selecting : bool;
  selection_start : option Q;
  selection_end : option Q;
  current_time : option Q;
  history : list (Q * Q);
  history_position : Z
}.

(** The objects and the view that refers to them. *)
Definition state : Type := heap * t.

Definition init (ttl : string) : t :=
  mk ttl [] ∅ ∅ None 0 false None None None [] (-1).

Definition with_graphs (gs : list loc) (by_name : gmap string loc)
    (groups : gmap Z (list loc)) (v : t) : t :=
  mk (title v) gs by_name groups (fig v) (axes v) (selecting v)
     (selection_start v) (selection_end v) (current_time v)
     (history v) (history_position v).

Definition with_history (hist : list (Q * Q)) (pos : Z) (v : t) : t :=
  mk (title v) (graphs v) (_graphs_by_name v) (linked_groups v) (fig v) (axes v)
     (selecting v) (selection_start v) (selection_end v) (current_time v)
     hist pos.

Definition add_graph (graph : loc) (group : Z) (s : state) : result state :=
  let '(h, v) := s in
  do g <- deref h graph;
  let groups :=
    if (0 <? group)%Z
    then <[group := default [] (linked_groups v !! group) ++ [graph]]> (linked_groups v)
    else linked_groups v in
  Ok (h, with_graphs (graphs v ++ [graph])
                     (<[Graph.name g := graph]> (_graphs_by_name v)) groups v).

(** [for graph in gs: graph.set_x_bounds(min_x, max_x)]. *)
Definition apply_x_bounds (min_x max_x : Q) (gs : list loc) (h : heap) : result heap :=
  for_each (fun h r => do g <- deref h r; Ok (<[r := Graph.set_x_bounds min_x max_x g]> h))
           gs h.

(** One step of [[g for g in self.graphs if g.visible]]. *)
Definition collect_visible (h : heap) (acc : list loc) (r : loc) : result (list loc) :=
  do g <- deref h r; Ok (if Graph.visible g then acc ++ [r] else acc).

(** [graph.render(self.fig, self.axes[i])] on the object behind [r]. *)
Definition render_at (h : heap) (r : loc) : result heap :=
  do g <- deref h r; do g' <- Graph.render g; Ok (<[r := g']> h).

(** [update_display]: the visible graphs that have an axis are rendered
    again, which reads their bounds. *)
Definition update_display (s : state) : result state :=
  let '(h, v) := s in
  match fig v with
  | None => Ok (h, v)
  | Some _ =>
      do visible_graphs <- for_each (collect_visible h) (graphs v) [];
      do h' <- for_each render_at (take (axes v) visible_graphs) h;
      Ok (h', v)
  end.

(** The test of [set_x_bounds] before it appends to the history. *)
Definition differs_from_last (hist : list (Q * Q)) (min_x max_x : Q) : bool :=
  match last hist with
  | None => true
  | Some (a, b) => negb (Qeq_bool a min_x) || negb (Qeq_bool b max_x)
  end.

Definition set_x_bounds (min_x max_x : Q) (group : Z) (s : state) : result state :=
  let '(h, v) := s in
  do h <- (if (0 <? group)%Z
           then match linked_groups v !! group with
                | Some members => apply_x_bounds min_x max_x members h
                | None => apply_x_bounds min_x max_x (graphs v) h
                end
           else apply_x_bounds min_x max_x (graphs v) h);
  let v := if differs_from_last (history v) min_x max_x
           then let hist := history v ++ [(min_x, max_x)] in
                with_history hist (Z.of_nat (length hist) - 1) v
           else v in
  match fig v with
  | Some _ => update_display (h, v)
  | None => Ok (h, v)
  end.

(** [_on_scroll(event)].  [range_x] is the exact difference of the
    bounds read; on bounds that are numpy integers the code's is that
    only within [int64_range]. *)
Definition _on_scroll (event : MouseEvent) (s : state) : result state :=
  let '(h, v) := s in
  match inaxes event with
  | None => Ok (h, v)
  | Some _ =>
      match graphs v with
      | [] => Ok (h, v)
      | r :: _ =>
          do g <- deref h r;
          do '(min_x, g) <- Graph.min_x g;
          do '(max_x, g) <- Graph.max_x g;
          let h := <[r := g]> h in
          do max_x <- as_float max_x;
          do min_x <- as_float min_x;
          let range_x := max_x - min_x in
          let scale := 0.1 in
          let new_range := if String.eqb (button event) "up"
                           then range_x * (1 - scale)
                           else range_x * (1 + scale) in
          do center <- as_float (xdata event);
          let new_min := center - new_range / 2 in
          let new_max := center + new_range / 2 in
          set_x_bounds new_min new_max 0 (h, v)
      end
  end.

Definition _on_back (s : state) : result state :=
  let '(h, v) := s in
  if (0 <? history_position v)%Z then
    let pos := (history_position v - 1)%Z in
    let v := with_history (history v) pos v in
    do '(min_x, max_x) <- py_index (history v) pos;
    do h <- apply_x_bounds min_x max_x (graphs v) h;
    update_display (h, v)
  else Ok (h, v).

Definition _on_forward (s : state) : result state :=
  let '(h, v) := s in
  if (history_position v <? Z.of_nat (length (history v)) - 1)%Z then
    let pos := (history_position v + 1)%Z in
    let v := with_history (history v) pos v in
    do '(min_x, max_x) <- py_index (history v) pos;
    do h <- apply_x_bounds min_x max_x (graphs v) h;
    update_display (h, v)
  else Ok (h, v).

End GraphView.

(** ** The scroll arithmetic in binary64 *)

Module Float64.

(** [_on_scroll] from [range_x = max_x - min_x] to [new_max], on the
    floats Python computes with: the bounds a scroll sets, from the
    bounds it reads and the pointer position. *)
#[warnings="-inexact-float"]
Definition _on_scroll (button : string) (min_x max_x center : float) : float * float :=
  let range_x := (max_x - min_x)%float in
  let scale := 0.1%float in
  let new_range := if String.eqb button "up" then (range_x * (1 - scale))%float
                   else (range_x * (1 + scale))%float in
  let new_min := (center - new_range / 2)%float in
  let new_max := (center + new_range / 2)%float in
  (new_min, new_max).

(** A scroll up and then a scroll down at the same position; the second
    reads the bounds the first has set. *)
Definition scroll_up_down (min_x max_x center : float) : float * float :=
  let '(new_min, new_max) := _on_scroll "up" min_x max_x center in
  _on_scroll "down" new_min new_max center.

End Float64.

(** * Further operations *)

(** ** Layers: stored data, selection, highlighting *)

(** [dict.get(key)] on an insertion-ordered dictionary. *)
Fixpoint dict_get {V} (d : list (string * V)) (key : string) : option V :=
  match d with
  | [] => None
  | (k, w) :: d' => if String.eqb k key then Some w else dict_get d' key
  end.

(** [np.argmin(a)]: the first index of a smallest entry; a zero-size
    array raises [ValueError]. *)
Fixpoint argmin_from (best : Q) (best_i i : nat) (a : list Q) : nat :=
  match a with
  | [] => best_i
  | x :: t => if Qltb x best then argmin_from x i (S i) t
              else argmin_from best best_i (S i) t
  end.

Definition np_argmin (a : list Q) : result nat :=
  match a with
  | [] => Raise ValueError
  | x :: t => Ok (argmin_from x 0 1 t)
  end.

(** [int(x)] on a finite float: truncation towards zero.  ([int] raises
    on [nan] and on an infinity, which [Q] does not have.) *)
Definition py_int (x : Q) : Z := Z.quot (Qnum x) (Z.pos (Qden x)).

Module LayerOps.

(** [Layer.get_data(key)]. *)
Definition get_data (key : string) (l : Layer.t) : option (list Q) :=
  dict_get (Layer._data l) key.

Definition set_flags (sel hl : bool) (l : Layer.t) : Layer.t :=
  Layer.mk (Layer.name l) (Layer.visible l) (Layer.order l) (Layer._data l)
           sel hl (Layer.kind l).

(** [Layer.select(x, y)] and [Layer.highlight(x, y)] of the base class:
    they succeed wherever the coordinates are. *)
Definition select (x y : Q) (l : Layer.t) : bool * Layer.t :=
  (true, set_flags true (Layer.highlighted l) l).

Definition highlight (x y : Q) (l : Layer.t) : bool * Layer.t :=
  (true, set_flags (Layer.selected l) true l).

(** [deselect()], which no layer class overrides. *)
Definition deselect (l : Layer.t) : Layer.t :=
  set_flags false (Layer.highlighted l) l.

(** [unhighlight()]: every class clears [highlighted]; the line, bar and
    summary layers also forget the highlighted point, which the flags do
    not show. *)
Definition unhighlight (l : Layer.t) : Layer.t :=
  set_flags (Layer.selected l) false l.

End LayerOps.

Module BarOps.

(** [BarLayer.highlight(x, y)]: the index stored in [highlight_bar] when
    the call returns [True], [None] when it returns [False] and leaves
    the layer as it is.  [bar_width] is the layer's attribute, [x] a
    float.  The spacing [x1 - x0] is the exact difference; on numpy
    integers the code's is that only within [int64_range]. *)
Definition highlight (x_data y_data : option (list Q)) (bar_width : Q) (x y : Q)
    : result (option nat) :=
  match x_data, y_data with
  | Some xs, Some _ =>
      if (length xs =? 0)%nat then Ok None
      else
        let distances := map (fun xi => Qabs (xi - x)) xs in
        do idx <- np_argmin distances;
        do width <- (if (1 <? length xs)%nat
                     then do x1 <- index xs 1; do x0 <- index xs 0;
                          Ok ((x1 - x0) * bar_width)
                     else Ok bar_width);
        do d <- index distances idx;
        if Qltb (width / 2) d then Ok None else Ok (Some idx)
  | _, _ => Ok None
  end.

End BarOps.

Module SummaryOps.

(** [SummaryLayer.highlight(x, y)] at finite coordinates: the label
    stored in [highlight_point] when the call returns [True], [None]
    when it returns [False]. *)
Definition highlight (labels : list string) (x y : Q) : result (option string) :=
  if (length labels =? 0)%nat then Ok None
  else
    let idx := py_int x in
    if ((idx <? 0) || (Z.of_nat (length labels) <=? idx))%Z then Ok None
    else match labels !! Z.to_nat idx with
         | Some label => Ok (Some label)
         | None => Raise IndexError
         end.

End SummaryOps.

(** ** Graph: layer order, lookup, selection *)

Module GraphOps.

(** A stable sort by [order], as [list.sort(key=lambda l: l.order)]: an
    element goes in front of the sorted rest unless the rest starts with
    layers of a strictly smaller order. *)
Fixpoint insert_front (l : Layer.t) (ls : list Layer.t) : list Layer.t :=
  match ls with
  | [] => [l]
  | l' :: ls' =>
      if (Layer.order l' <? Layer.order l)%Z then l' :: insert_front l ls'
      else l :: l' :: ls'
  end.

Definition sort_by_order (ls : list Layer.t) : list Layer.t :=
  foldr insert_front [] ls.

(** [add_layer] as the source writes it: append, then sort the list. *)
Definition add_layer_by_sort (layer : Layer.t) (o : Z) (g : Graph.t) : Graph.t :=
  let layer := Layer.set_order o layer in
  Graph.with_layers (sort_by_order (Graph.layers g ++ [layer]))
                    (<[Layer.name layer := layer]> (Graph._layers_by_name g)) g.

(** [get_layer(layer_name)]. *)
Definition get_layer (layer_name : string) (g : Graph.t) : option Layer.t :=
  Graph._layers_by_name g !! layer_name.

(** [deselect()]: every layer is deselected and unhighlighted.  The name
    index holds the same layer objects, so it changes with the list. *)
Definition deselect (g : Graph.t) : Graph.t :=
  let clear l := LayerOps.unhighlight (LayerOps.deselect l) in
  Graph.with_layers (map clear (Graph.layers g)) (clear <$> Graph._layers_by_name g) g.

(** [is_selected()]. *)
Definition is_selected (g : Graph.t) : bool :=
  existsb (fun l => Layer.selected l || Layer.highlighted l) (Graph.layers g).

End GraphOps.

(** ** GraphView: lookup, removal, selection, pointer gestures *)

(** [l.remove(x)]: the first occurrence goes; its absence is a
    [ValueError]. *)
Fixpoint list_remove (x : loc) (l : list loc) : result (list loc) :=
  match l with
  | [] => Raise ValueError
  | y :: l' => if decide (x = y) then Ok l'
               else do r <- list_remove x l'; Ok (y :: r)
  end.

Module GraphViewOps.

(** [get_graph(graph_name)]. *)
Definition get_graph (graph_name : string) (v : GraphView.t) : option loc :=
  GraphView._graphs_by_name v !! graph_name.

(** [view[graph_name]]. *)
Definition getitem (graph_name : string) (v : GraphView.t) : result loc :=
  match GraphView._graphs_by_name v !! graph_name with
  | Some graph => Ok graph
  | None => Raise KeyError
  end.

(** [if graph in group: group.remove(graph)]. *)
Definition purge (graph : loc) (group : list loc) : result (list loc) :=
  if decide (graph ∈ group) then list_remove graph group else Ok group.

(** [remove_graph(graph_name)]: the returned flag and the view.  The
    groups are independent of each other, so the loop over them is a map
    over the dictionary's values; [purge] cannot raise, and [default]
    only gives the type its value. *)
Definition remove_graph (graph_name : string) (v : GraphView.t) : result (bool * GraphView.t) :=
  match GraphView._graphs_by_name v !! graph_name with
  | Some graph =>
      do gs <- list_remove graph (GraphView.graphs v);
      let groups := (fun group => match purge graph group with
                                  | Ok group' => group'
                                  | Raise _ => group
                                  end) <$> GraphView.linked_groups v in
      Ok (true, GraphView.with_graphs gs (delete graph_name (GraphView._graphs_by_name v))
                                      groups v)
  | None => Ok (false, v)
  end.

(** [deselect_all()]. *)
Definition deselect_all (s : GraphView.state) : result GraphView.state :=
  let '(h, v) := s in
  do h' <- for_each (fun h r => do g <- deref h r; Ok (<[r := GraphOps.deselect g]> h))
                    (GraphView.graphs v) h;
  Ok (h', v).

Definition with_selection (sel : bool) (s_start s_end : option Q) (v : GraphView.t)
    : GraphView.t :=
  GraphView.mk (GraphView.title v) (GraphView.graphs v) (GraphView._graphs_by_name v)
               (GraphView.linked_groups v) (GraphView.fig v) (GraphView.axes v)
               sel s_start s_end (GraphView.current_time v)
               (GraphView.history v) (GraphView.history_position v).

(** [_on_press(event)]. *)
Definition _on_press (event : MouseEvent) (v : GraphView.t) : GraphView.t :=
  match inaxes event with
  | None => v
  | Some _ => with_selection true (xdata event) (GraphView.selection_end v) v
  end.

(** [sorted([a, b])]. *)
Definition sorted2 (a b : Q) : Q * Q := if Qltb b a then (b, a) else (a, b).

(** [_on_release(event)].  The width of the first graph's range is read
    as [max_x() - min_x()], in that order; it is the exact difference,
    which on bounds that are numpy integers the code's is only within
    [int64_range]. *)
Definition _on_release (event : MouseEvent) (s : GraphView.state) : result GraphView.state :=
  let '(h, v) := s in
  if negb (GraphView.selecting v) then Ok (h, v)
  else
    let v := with_selection false (GraphView.selection_start v) (GraphView.selection_end v) v in
    do '(h, v) <-
      match inaxes event, GraphView.selection_start v with
      | Some _, Some s_start =>
          let v := with_selection false (Some s_start) (xdata event) v in
          do s_end <- as_float (xdata event);
          let '(lo, hi) := sorted2 s_start s_end in
          do r <- match GraphView.graphs v with
                  | [] => Raise IndexError
                  | r :: _ => Ok r
                  end;
          do g <- deref h r;
          do '(max_x, g) <- Graph.max_x g;
          do '(min_x, g) <- Graph.min_x g;
          let h := <[r := g]> h in
          do max_x <- as_float max_x;
          do min_x <- as_float min_x;
          if Qltb ((max_x - min_x) * 0.01) (Qabs (hi - lo))
          then GraphView.set_x_bounds lo hi 0 (h, v)
          else Ok (h, v)
      | _, _ => Ok (h, v)
      end;
    Ok (h, with_selection false None None v).

End GraphViewOps.

(** ** The graph classes built on [Graph] *)

(** [LineGraph.__init__], [BarGraph.__init__] and [SummaryGraph.__init__]
    differ in the class of the main layer only: the main layer at order
    10, then the x and the y axis layer at order 1. *)
Definition graph_with_axes (main : LayerKind) (n ttl u : string) (mh : Z) : Graph.t :=
  let g := Graph.init n ttl u mh in
  let g := Graph.add_layer (Layer.init (n ++ "_main_layer") main) 10 g in
  let g := Graph.add_layer (Layer.init (n ++ "_x_axis") BaseLayer) 1 g in
  Graph.add_layer (Layer.init (n ++ "_y_axis") BaseLayer) 1 g.

Module LineGraph.
Definition init (n ttl u : string) (mh : Z) : Graph.t :=
  graph_with_axes LineLayer.init n ttl u mh.
End LineGraph.

Module BarGraph.
Definition init (n ttl u : string) (mh : Z) : Graph.t :=
  graph_with_axes BarLayer.init n ttl u mh.
End BarGraph.

Module SummaryGraph.
Definition init (n ttl u : string) (mh : Z) : Graph.t :=
  graph_with_axes SummaryLayer.init n ttl u mh.
End SummaryGraph.

(** * Vocabulary of the properties *)

(** [m] is a largest (smallest) sample of the array. *)
Definition is_max (m : Q) (a : list Q) : Prop := m ∈ a /\ forall y, y ∈ a -> y <= m.
Definition is_min (m : Q) (a : list Q) : Prop := m ∈ a /\ forall y, y ∈ a -> m <= y.

(** An array that is absent or has no sample. *)
Definition empty_array (a : option (list Q)) : Prop := a = None \/ a = Some [].

Definition series_empty (ds : list (string * Series)) : Prop :=
  forall s, s ∈ ds -> series_x (snd s) = [] /\ series_y (snd s) = [].

(** A layer that contains no data: no default series and no sample in a
    named series; no summary point and no label; for the base class, an
    empty [_data]. *)
Definition no_data (l : Layer.t) : Prop :=
  match Layer.kind l with
  | BaseLayer => Layer._data l = []
  | LineLayer xd yd ds => empty_array xd /\ empty_array yd /\ series_empty ds
  | BarLayer xd yd ds => empty_array xd /\ empty_array yd /\ series_empty ds
  | SummaryLayer dp labels => dp = [] /\ labels = []
  end.

(** The claim as the specification words it: all four bounds are the
    unit range. *)
Definition unit_bounds (g : Graph.t) : Prop :=
  exists a b c d,
    Graph._min_x g = Some a /\ Graph._max_x g = Some b /\
    Graph._min_y g = Some c /\ Graph._max_y g = Some d /\
    a == 0 /\ b == 1 /\ c == 0 /\ d == 1.

(** The unit range with the 5% margin on the y axis. *)
Definition margined_unit_bounds (g : Graph.t) : Prop :=
  exists a b c d,
    Graph._min_x g = Some a /\ Graph._max_x g = Some b /\
    Graph._min_y g = Some c /\ Graph._max_y g = Some d /\
    a == 0 /\ b == 1 /\ c == -0.05 /\ d == 1.05.

Definition no_visible_data (g : Graph.t) : Prop :=
  forall l, l ∈ Graph.layers g -> Layer.visible l = true -> no_data l.

(** The line graph of the specification's scenario. *)
Definition scenario_line : Layer.t :=
  LineLayer.add_data [0; 1; 2; 3] [0; 5; 0; 5] "default" (Layer.init "line" LineLayer.init).

Definition scenario_graph : Graph.t :=
  Graph.add_layer scenario_line 10 (Graph.init "g" "" "" 100).

(** All four bounds of the graph are computed or set. *)
Definition resolved (g : Graph.t) : Prop :=
  is_Some (Graph._min_x g) /\ is_Some (Graph._max_x g) /\
  is_Some (Graph._min_y g) /\ is_Some (Graph._max_y g).

(** Every reference the view holds is to a live object. *)
Definition heap_closed (h : heap) (v : GraphView.t) : Prop :=
  (forall r, r ∈ GraphView.graphs v -> is_Some (h !! r)) /\
  (forall k members r, GraphView.linked_groups v !! k = Some members ->
                       r ∈ members -> is_Some (h !! r)).

(** [h'] is [h] with the x bounds of the graphs in [gs] set, and nothing
    else changed. *)
Definition bounds_applied (a b : Q) (gs : list loc) (h h' : heap) : Prop :=
  forall r, h' !! r = if decide (r ∈ gs) then Graph.set_x_bounds a b <$> h !! r else h !! r.

(** The object behind [r] is a visible graph. *)
Definition visible_at (h : heap) (r : loc) : Prop :=
  exists g, h !! r = Some g /\ Graph.visible g = true.

(** There is nothing for a redisplay to compute: the view is not shown,
    or every visible graph of the view has its four bounds. *)
Definition display_settled (h : heap) (v : GraphView.t) : Prop :=
  GraphView.fig v = None \/
  forall r g, r ∈ GraphView.graphs v -> h !! r = Some g ->
              Graph.visible g = true -> resolved g.

(** The graphs whose bounds a call sets: the members of a registered
    positive group, and otherwise every graph of the view. *)
Definition targets (v : GraphView.t) (group : Z) : list loc :=
  if (0 <? group)%Z
  then default (GraphView.graphs v) (GraphView.linked_groups v !! group)
  else GraphView.graphs v.

(** The view after the history step of [set_x_bounds]. *)
Definition record_bounds (a b : Q) (v : GraphView.t) : GraphView.t :=
  if GraphView.differs_from_last (GraphView.history v) a b
  then GraphView.with_history
         (GraphView.history v ++ [(a, b)])
         (Z.of_nat (length (GraphView.history v ++ [(a, b)])) - 1) v
  else v.

(** The x bounds of the object behind a reference. *)
Definition x_bounds (h : heap) (r : loc) : option (option Q * option Q) :=
  (fun g => (Graph._min_x g, Graph._max_x g)) <$> h !! r.

(** A view on the scenario graph, in no link group. *)
Definition scenario_heap : heap := <[0%nat := scenario_graph]> ∅.

Definition scenario_view : GraphView.t :=
  GraphView.with_graphs [0%nat] (<["g" := 0%nat]> ∅) ∅ (GraphView.init "view").

(** The same view once shown, with one axis; the graph has never been
    drawn (it was made visible afterwards). *)
Definition shown_view : GraphView.t :=
  GraphView.mk "view" [0%nat] (<["g" := 0%nat]> ∅) ∅ (Some tt) 1
               false None None None [] (-1).

(** Two graphs, the first of them in link group 1. *)
Definition linked_heap : heap :=
  <[1%nat := Graph.init "other" "" "" 100]> scenario_heap.

Definition linked_view : GraphView.t :=
  GraphView.with_graphs [0%nat; 1%nat]
    (<["other" := 1%nat]> (<["g" := 0%nat]> ∅))
    (<[1%Z := [0%nat]]> ∅) (GraphView.init "view").

(** A view as [GraphView()] and calls of [add_graph] leave it: no
    history, the cursor before the first entry, no figure. *)
Definition fresh (v : GraphView.t) : Prop :=
  GraphView.history v = [] /\ GraphView.history_position v = (-1)%Z /\
  GraphView.fig v = None.

(** The range width after one scroll tick. *)
Definition zoomed (event : MouseEvent) (range_x : Q) : Q :=
  if String.eqb (button event) "up" then range_x * (1 - 0.1) else range_x * (1 + 0.1).

(** A value in the range of [int64].  Where the code subtracts two
    numbers that can be numpy integers, its result is the exact
    difference when that difference is in this range. *)
Definition int64_range (q : Q) : Prop :=
  inject_Z (- 2 ^ 63) <= q /\ q < inject_Z (2 ^ 63).

(** The scenario graph after its first read of a bound. *)
Definition scenario_graph_read : Graph.t :=
  match Graph.reset_bounds scenario_graph with
  | Ok g => g
  | Raise _ => scenario_graph
  end.

(** ** Vocabulary of the further properties *)


(** The accumulator of a scan for a minimum (maximum) over what has been
    folded in so far. *)
Definition running_min (acc : option Q) (seen : list Q) : Prop :=
  match acc with
  | None => seen = []
  | Some m => is_min m seen
  end.

Definition running_max (acc : option Q) (seen : list Q) : Prop :=
  match acc with
  | None => seen = []
  | Some m => is_max m seen
  end.




(** The four cached bounds of a graph. *)
Definition bounds (g : Graph.t) : option Q * option Q * option Q * option Q :=
  (Graph._min_x g, Graph._max_x g, Graph._min_y g, Graph._max_y g).

(** The extent [(min_x, max_x, min_y, max_y)] a layer reports. *)
Definition has_extent (l : Layer.t) (a b c d : Q) : Prop :=
  layer_min_x l = Ok a /\ layer_max_x l = Ok b /\
  layer_min_y l = Ok c /\ layer_max_y l = Ok d.

(** A visible layer of the graph. *)
Definition visible_layer (g : Graph.t) (l : Layer.t) : Prop :=
  l ∈ Graph.layers g /\ Layer.visible l = true.

(** The values a query gives on the visible layers, in their order. *)
Definition visible_values (f : Layer.t -> result Q) (ls : list Layer.t) : list Q :=
  omap (fun l => if Layer.visible l
                 then match f l with Ok v => Some v | Raise _ => None end
                 else None) ls.

(** The y range of [reset_bounds], the largest [max_y()] minus the
    smallest [min_y()] of the visible layers, is subtracted without
    wrap-around. *)
Definition y_range_exact (g : Graph.t) : Prop :=
  forall l l' c d, visible_layer g l -> visible_layer g l' ->
                   layer_min_y l = Ok c -> layer_max_y l' = Ok d -> int64_range (d - c).

(** The layer list is in ascending [order]. *)
Definition layers_sorted (ls : list Layer.t) : Prop :=
  StronglySorted (fun a b => (Layer.order a <= Layer.order b)%Z) ls.

(** A view whose graphs are distinct objects: no graph is listed twice,
    the name index and the link groups refer to listed graphs only, no
    two names refer to one graph, and no group lists a graph twice. *)
Definition view_wf (v : GraphView.t) : Prop :=
  NoDup (GraphView.graphs v) /\
  (forall n r, GraphView._graphs_by_name v !! n = Some r -> r ∈ GraphView.graphs v) /\
  (forall n1 n2 r, GraphView._graphs_by_name v !! n1 = Some r ->
                   GraphView._graphs_by_name v !! n2 = Some r -> n1 = n2) /\
  (forall k members, GraphView.linked_groups v !! k = Some members ->
                     NoDup members /\ forall r, r ∈ members -> r ∈ GraphView.graphs v).

(** What the host delivers to a view: pointer events, the navigation
    buttons, and calls of [set_x_bounds]. *)
Inductive gesture :=
| Press (event : MouseEvent)
| Release (event : MouseEvent)
| Scroll (event : MouseEvent)
| Back
| Forward
| SetXBounds (min_x max_x : Q) (group : Z).

Definition run (s : GraphView.state) (op : gesture) : result GraphView.state :=
  match op with
  | Press event => Ok (fst s, GraphViewOps._on_press event (snd s))
  | Release event => GraphViewOps._on_release event s
  | Scroll event => GraphView._on_scroll event s
  | Back => GraphView._on_back s
  | Forward => GraphView._on_forward s
  | SetXBounds min_x max_x group => GraphView.set_x_bounds min_x max_x group s
  end.

(** An event over the axes carries a data position. *)
Definition event_wf (event : MouseEvent) : Prop :=
  is_Some (inaxes event) -> is_Some (xdata event).

Definition gesture_wf (op : gesture) : Prop :=
  match op with
  | Press event | Release event | Scroll event => event_wf event
  | _ => True
  end.

(** The cursor is [-1] before the first entry, or the index of an entry
    (index 0 also on an empty history). *)
Definition cursor_ok (v : GraphView.t) : Prop :=
  (-1 <= GraphView.history_position v)%Z /\
  ((GraphView.history_position v < Z.of_nat (length (GraphView.history v)))%Z \/
   (GraphView.history_position v <= 0)%Z).

(** A view that a gesture can be run on: live references, a first graph,
    the cursor in range. *)
Definition view_ready (s : GraphView.state) : Prop :=
  heap_closed (fst s) (snd s) /\ GraphView.graphs (snd s) <> [] /\ cursor_ok (snd s).

(** What a gesture can do to the view record. *)
Inductive view_change (v : GraphView.t) : GraphView.t -> Prop :=
| change_none : view_change v v
| change_selection sel s_start s_end v' :
    view_change v v' -> view_change v (GraphViewOps.with_selection sel s_start s_end v')
| change_bounds a b v' : view_change v v' -> view_change v (record_bounds a b v')
| change_cursor pos v' :
    view_change v v' ->
    (0 <= pos < Z.of_nat (length (GraphView.history v')))%Z ->
    view_change v (GraphView.with_history (GraphView.history v') pos v').

(** * Properties *)

(** ** Comparisons and reductions *)

Lemma Qltb_lt (a b : Q) : Qltb a b = true <-> a < b.
Proof.
  unfold Qltb. rewrite negb_true_iff, <- not_true_iff_false, Qle_bool_iff.
  split; [apply Qnot_le_lt | apply Qlt_not_le].
Qed.

Lemma Qltb_ge (a b : Q) : Qltb a b = false <-> b <= a.
Proof.
  unfold Qltb. rewrite negb_false_iff. apply Qle_bool_iff.
Qed.

Lemma Qmax_cases (a b : Q) : (Qmax a b = a /\ b <= a) \/ (Qmax a b = b /\ a <= b).
Proof.
  unfold Qmax, GenericMinMax.gmax.
  destruct (a ?= b) eqn:E.
  - left. split; [reflexivity |]. apply Qeq_alt in E. rewrite E. apply Qle_refl.
  - right. split; [reflexivity |]. apply Qlt_alt in E. apply Qlt_le_weak, E.
  - left. split; [reflexivity |]. apply Qgt_alt in E. apply Qlt_le_weak, E.
Qed.

Lemma Qmin_cases (a b : Q) : (Qmin a b = a /\ a <= b) \/ (Qmin a b = b /\ b <= a).
Proof.
  unfold Qmin, GenericMinMax.gmin.
  destruct (a ?= b) eqn:E.
  - left. split; [reflexivity |]. apply Qeq_alt in E. rewrite E. apply Qle_refl.
  - left. split; [reflexivity |]. apply Qlt_alt in E. apply Qlt_le_weak, E.
  - right. split; [reflexivity |]. apply Qgt_alt in E. apply Qlt_le_weak, E.
Qed.

Lemma foldl_Qmax_is_max (t : list Q) : forall x, is_max (foldl Qmax x t) (x :: t).
Proof.
  induction t as [| a t IH]; intros x; simpl.
  - split; [left |]. intros y Hy. apply list_elem_of_singleton in Hy. subst. apply Qle_refl.
  - destruct (IH (Qmax x a)) as [Hin Hub]. split.
    + apply elem_of_cons in Hin as [-> | Hin].
      * destruct (Qmax_cases x a) as [[-> _] | [-> _]]; set_solver.
      * set_solver.
    + intros y Hy.
      assert (Hm : Qmax x a <= foldl Qmax (Qmax x a) t) by (apply Hub; left).
      apply elem_of_cons in Hy as [-> | Hy].
      * eapply Qle_trans; [| exact Hm].
        destruct (Qmax_cases x a) as [[-> _] | [-> H]]; [apply Qle_refl | exact H].
      * apply elem_of_cons in Hy as [-> | Hy].
        -- eapply Qle_trans; [| exact Hm].
           destruct (Qmax_cases x a) as [[-> H] | [-> _]]; [exact H | apply Qle_refl].
        -- apply Hub. right. exact Hy.
Qed.

Lemma foldl_Qmin_is_min (t : list Q) : forall x, is_min (foldl Qmin x t) (x :: t).
Proof.
  induction t as [| a t IH]; intros x; simpl.
  - split; [left |]. intros y Hy. apply list_elem_of_singleton in Hy. subst. apply Qle_refl.
  - destruct (IH (Qmin x a)) as [Hin Hlb]. split.
    + apply elem_of_cons in Hin as [-> | Hin].
      * destruct (Qmin_cases x a) as [[-> _] | [-> _]]; set_solver.
      * set_solver.
    + intros y Hy.
      assert (Hm : foldl Qmin (Qmin x a) t <= Qmin x a) by (apply Hlb; left).
      apply elem_of_cons in Hy as [-> | Hy].
      * eapply Qle_trans; [exact Hm |].
        destruct (Qmin_cases x a) as [[-> _] | [-> H]]; [apply Qle_refl | exact H].
      * apply elem_of_cons in Hy as [-> | Hy].
        -- eapply Qle_trans; [exact Hm |].
           destruct (Qmin_cases x a) as [[-> H] | [-> _]]; [exact H | apply Qle_refl].
        -- apply Hlb. right. exact Hy.
Qed.

(** On a non-empty array the reductions return an extremal sample. *)
Lemma np_max_is_max (a : list Q) : a <> [] -> exists m, np_max a = Ok m /\ is_max m a.
Proof.
  destruct a as [| x t]; [congruence |]. intros _.
  exists (foldl Qmax x t). split; [reflexivity | apply foldl_Qmax_is_max].
Qed.

Lemma np_min_is_min (a : list Q) : a <> [] -> exists m, np_min a = Ok m /\ is_min m a.
Proof.
  destruct a as [| x t]; [congruence |]. intros _.
  exists (foldl Qmin x t). split; [reflexivity | apply foldl_Qmin_is_min].
Qed.

(** ** Extent queries never raise *)

Lemma for_each_ok {S X} (body : S -> X -> result S) (xs : list X) :
  (forall s x, exists s', body s x = Ok s') ->
  forall s, exists s', for_each body xs s = Ok s'.
Proof.
  intros Hbody. induction xs as [| x xs IH]; intros s; simpl.
  - eauto.
  - destruct (Hbody s x) as [s' ->]. simpl. apply IH.
Qed.

Lemma scan_min_ok (acc : option Q) (a : option (list Q)) : exists acc', scan_min acc a = Ok acc'.
Proof.
  destruct a as [[| x t] |]; simpl; eauto.
Qed.

Lemma scan_max_ok (acc : option Q) (a : option (list Q)) : exists acc', scan_max acc a = Ok acc'.
Proof.
  destruct a as [[| x t] |]; simpl; eauto.
Qed.

Lemma scan_series_ok (scan : option Q -> option (list Q) -> result (option Q))
    (proj : Series -> list Q) (ds : list (string * Series)) :
  (forall acc a, exists acc', scan acc a = Ok acc') ->
  forall acc, exists acc', for_each (fun acc s => scan acc (Some (proj (snd s)))) ds acc = Ok acc'.
Proof.
  intros Hscan. apply for_each_ok. intros s x. apply Hscan.
Qed.

Ltac run_scan H :=
  let acc := fresh "acc" in
  let E := fresh "E" in
  destruct H as [acc E]; rewrite E; cbn [bind]; clear E.

Lemma layer_min_x_ok (l : Layer.t) : exists v, layer_min_x l = Ok v.
Proof.
  unfold layer_min_x. destruct (Layer.kind l) as [| xd yd ds | xd yd ds | dp labels].
  - eauto.
  - unfold LineLayer.min_x. run_scan (scan_min_ok None xd).
    run_scan (scan_series_ok scan_min series_x ds scan_min_ok acc). eauto.
  - unfold BarLayer.min_x. run_scan (scan_min_ok None xd).
    run_scan (scan_series_ok scan_min series_x ds scan_min_ok acc). eauto.
  - unfold SummaryLayer.min_x. destruct (length labels =? 0)%nat; eauto.
Qed.

Lemma layer_max_x_ok (l : Layer.t) : exists v, layer_max_x l = Ok v.
Proof.
  unfold layer_max_x. destruct (Layer.kind l) as [| xd yd ds | xd yd ds | dp labels].
  - eauto.
  - unfold LineLayer.max_x. run_scan (scan_max_ok None xd).
    run_scan (scan_series_ok scan_max series_x ds scan_max_ok acc). eauto.
  - unfold BarLayer.max_x. run_scan (scan_max_ok None xd).
    run_scan (scan_series_ok scan_max series_x ds scan_max_ok acc).
    destruct acc0 as [m |]; [| eauto].
    destruct xd as [[| x0 [| x1 xs]] |]; simpl; eauto.
  - unfold SummaryLayer.max_x. destruct (length labels =? 0)%nat; eauto.
Qed.

Lemma layer_min_y_ok (l : Layer.t) : exists v, layer_min_y l = Ok v.
Proof.
  unfold layer_min_y. destruct (Layer.kind l) as [| xd yd ds | xd yd ds | dp labels].
  - eauto.
  - unfold LineLayer.min_y. run_scan (scan_min_ok None yd).
    run_scan (scan_series_ok scan_min series_y ds scan_min_ok acc). eauto.
  - unfold BarLayer.min_y. run_scan (scan_min_ok None yd).
    run_scan (scan_series_ok scan_min series_y ds scan_min_ok acc).
    destruct acc0 as [m |]; [destruct (Qltb 0 m) |]; eauto.
  - unfold SummaryLayer.min_y.
    edestruct (for_each_ok (fun acc (s : string * Stats) => Ok (py_min acc (stats_min (snd s)))) dp)
      as [acc ->]; cbn [bind]; eauto.
Qed.

Lemma layer_max_y_ok (l : Layer.t) : exists v, layer_max_y l = Ok v.
Proof.
  unfold layer_max_y. destruct (Layer.kind l) as [| xd yd ds | xd yd ds | dp labels].
  - eauto.
  - unfold LineLayer.max_y. run_scan (scan_max_ok None yd).
    run_scan (scan_series_ok scan_max series_y ds scan_max_ok acc). eauto.
  - unfold BarLayer.max_y. run_scan (scan_max_ok None yd).
    run_scan (scan_series_ok scan_max series_y ds scan_max_ok acc).
    destruct acc0 as [m |]; eauto.
  - unfold SummaryLayer.max_y.
    edestruct (for_each_ok (fun acc (s : string * Stats) => Ok (py_max acc (stats_max (snd s)))) dp)
      as [acc ->]; cbn [bind]; eauto.
Qed.

(** ** Layers without data *)

Lemma for_each_skip {S X} (body : S -> X -> result S) (xs : list X) (s : S) :
  (forall x, x ∈ xs -> body s x = Ok s) -> for_each body xs s = Ok s.
Proof.
  induction xs as [| x xs IH]; intros H; simpl; [reflexivity |].
  rewrite H by left. simpl. apply IH. intros y Hy. apply H. right. exact Hy.
Qed.

Lemma scan_min_empty (acc : option Q) (a : option (list Q)) :
  empty_array a -> scan_min acc a = Ok acc.
Proof. intros [-> | ->]; reflexivity. Qed.

Lemma scan_max_empty (acc : option Q) (a : option (list Q)) :
  empty_array a -> scan_max acc a = Ok acc.
Proof. intros [-> | ->]; reflexivity. Qed.

Lemma scan_series_empty (scan : option Q -> option (list Q) -> result (option Q))
    (proj : Series -> list Q) (ds : list (string * Series)) (acc : option Q) :
  (forall acc, scan acc (Some []) = Ok acc) ->
  (forall s, s ∈ ds -> proj (snd s) = []) ->
  for_each (fun acc s => scan acc (Some (proj (snd s)))) ds acc = Ok acc.
Proof.
  intros Hscan Hds. apply for_each_skip. intros s Hs. rewrite (Hds s Hs). apply Hscan.
Qed.

Lemma series_empty_x (ds : list (string * Series)) :
  series_empty ds -> forall s, s ∈ ds -> series_x (snd s) = [].
Proof. intros H s Hs. apply (H s Hs). Qed.

Lemma series_empty_y (ds : list (string * Series)) :
  series_empty ds -> forall s, s ∈ ds -> series_y (snd s) = [].
Proof. intros H s Hs. apply (H s Hs). Qed.

(** C9. A layer of any class (base, line, bar, summary) that contains no
    data answers each of [min_x], [max_x], [min_y] and [max_y] with 0, and
    none of the four raises. *)
Theorem empty_layer_extent_zero (l : Layer.t) :
  no_data l ->
  layer_min_x l = Ok 0 /\ layer_max_x l = Ok 0 /\
  layer_min_y l = Ok 0 /\ layer_max_y l = Ok 0.
Proof.
  unfold no_data, layer_min_x, layer_max_x, layer_min_y, layer_max_y.
  destruct (Layer.kind l) as [| xd yd ds | xd yd ds | dp labels].
  - intros _. repeat split.
  - intros (Hx & Hy & Hds).
    unfold LineLayer.min_x, LineLayer.max_x, LineLayer.min_y, LineLayer.max_y.
    rewrite !scan_min_empty, !scan_max_empty by assumption. cbn [bind].
    rewrite !(scan_series_empty scan_min), !(scan_series_empty scan_max)
      by solve [intros; reflexivity | eauto using series_empty_x, series_empty_y].
    repeat split.
  - intros (Hx & Hy & Hds).
    unfold BarLayer.min_x, BarLayer.max_x, BarLayer.min_y, BarLayer.max_y.
    rewrite !scan_min_empty, !scan_max_empty by assumption. cbn [bind].
    rewrite !(scan_series_empty scan_min), !(scan_series_empty scan_max)
      by solve [intros; reflexivity | eauto using series_empty_x, series_empty_y].
    repeat split.
  - intros [-> ->]. repeat split.
Qed.

Lemma empty_layer_extent_zero_witness :
  let l := Layer.init "line" LineLayer.init in
  layer_min_x l = Ok 0 /\ layer_max_x l = Ok 0 /\
  layer_min_y l = Ok 0 /\ layer_max_y l = Ok 0.
Proof.
  apply (empty_layer_extent_zero (Layer.init "line" LineLayer.init)).
  split; [left; reflexivity | split; [left; reflexivity | intros s Hs; inversion Hs]].
Defined.

(** ** Bar layers *)

Lemma bar_max_y_default (ys : list Q) :
  ys <> [] ->
  exists m, is_max m ys /\ BarLayer.max_y (Some ys) [] = Ok (m * 1.05).
Proof.
  intros Hne. destruct (np_max_is_max ys Hne) as (m & Hm & Hmax).
  exists m. split; [exact Hmax |].
  unfold BarLayer.max_y, scan_max.
  destruct ys as [| y t]; [congruence |].
  change (0 <? length (y :: t))%nat with true. cbv iota.
  rewrite Hm. reflexivity.
Qed.

Lemma bar_min_y_default (ys : list Q) :
  ys <> [] ->
  exists m, is_min m ys /\
            BarLayer.min_y (Some ys) [] = (if Qltb 0 m then Ok 0 else Ok m).
Proof.
  intros Hne. destruct (np_min_is_min ys Hne) as (m & Hm & Hmin).
  exists m. split; [exact Hmin |].
  unfold BarLayer.min_y, scan_min.
  destruct ys as [| y t]; [congruence |].
  change (0 <? length (y :: t))%nat with true. cbv iota.
  rewrite Hm. reflexivity.
Qed.

(** C8. A bar layer whose only data is a default series with strictly
    positive y values reports [min_y() = 0] and [max_y()] equal to 1.05
    times the largest y value; for [y = [10, 20, 30]] that is 0 and 31.5. *)
Theorem bar_positive_extent (l : Layer.t) (xs ys : list Q) :
  Layer.kind l = BarLayer (Some xs) (Some ys) [] ->
  ys <> [] ->
  (forall y, y ∈ ys -> 0 < y) ->
  layer_min_y l = Ok 0 /\
  (exists m v, is_max m ys /\ layer_max_y l = Ok v /\ v == 1.05 * m) /\
  (ys = [10; 20; 30] -> exists v, layer_max_y l = Ok v /\ v == 31.5).
Proof.
  intros Hk Hne Hpos. unfold layer_min_y, layer_max_y. rewrite Hk.
  split; [| split].
  - destruct (bar_min_y_default ys Hne) as (m & [Hin _] & ->).
    apply Hpos, Qltb_lt in Hin. rewrite Hin. reflexivity.
  - destruct (bar_max_y_default ys Hne) as (m & Hmax & ->).
    exists m, (m * 1.05). split; [exact Hmax |]. split; [reflexivity | ring].
  - intros ->. eexists. split; [reflexivity | reflexivity].
Qed.

Lemma bar_positive_extent_witness :
  let l := BarLayer.add_data [0; 1; 2] [10; 20; 30] "default" (Layer.init "bars" BarLayer.init) in
  layer_min_y l = Ok 0 /\
  (exists m v, is_max m [10; 20; 30] /\ layer_max_y l = Ok v /\ v == 1.05 * m) /\
  ([10; 20; 30] = [10; 20; 30] -> exists v, layer_max_y l = Ok v /\ v == 31.5).
Proof.
  apply (bar_positive_extent
           (BarLayer.add_data [0; 1; 2] [10; 20; 30] "default" (Layer.init "bars" BarLayer.init))
           [0; 1; 2] [10; 20; 30]).
  - reflexivity.
  - discriminate.
  - intros y Hy. repeat (apply elem_of_cons in Hy as [-> | Hy]; [reflexivity |]).
    inversion Hy.
Defined.

(** C10. A bar layer whose only data is a default series with strictly
    negative y values reports [max_y()] equal to 1.05 times the largest
    (negative) y value, which lies strictly below that largest value. *)
Theorem bar_negative_max_y_below_data (l : Layer.t) (xs ys : list Q) :
  Layer.kind l = BarLayer (Some xs) (Some ys) [] ->
  ys <> [] ->
  (forall y, y ∈ ys -> y < 0) ->
  exists m v, is_max m ys /\ layer_max_y l = Ok v /\ v == 1.05 * m /\ v < m.
Proof.
  intros Hk Hne Hneg. unfold layer_max_y. rewrite Hk.
  destruct (bar_max_y_default ys Hne) as (m & Hmax & ->).
  exists m, (m * 1.05). split; [exact Hmax |]. split; [reflexivity |].
  destruct Hmax as [Hin _]. apply Hneg in Hin. split; [ring | lra].
Qed.

Lemma bar_negative_max_y_below_data_witness :
  let l := BarLayer.add_data [0; 1; 2] [-10; -20; -30] "default" (Layer.init "bars" BarLayer.init) in
  exists m v, is_max m [-10; -20; -30] /\ layer_max_y l = Ok v /\ v == 1.05 * m /\ v < m.
Proof.
  apply (bar_negative_max_y_below_data
           (BarLayer.add_data [0; 1; 2] [-10; -20; -30] "default" (Layer.init "bars" BarLayer.init))
           [0; 1; 2] [-10; -20; -30]).
  - reflexivity.
  - discriminate.
  - intros y Hy. repeat (apply elem_of_cons in Hy as [-> | Hy]; [reflexivity |]).
    inversion Hy.
Defined.

(** ** Graph bounds *)

Lemma widen_ok (g : Graph.t) (layer : Layer.t) : exists g', Graph.widen g layer = Ok g'.
Proof.
  unfold Graph.widen. destruct (negb (Layer.visible layer)); [eauto |].
  destruct (layer_min_x_ok layer) as [a ->], (layer_max_x_ok layer) as [b ->],
           (layer_min_y_ok layer) as [c ->], (layer_max_y_ok layer) as [d ->].
  cbn [bind]. eauto.
Qed.

(** [reset_bounds] never raises and leaves all four bounds computed. *)
Lemma reset_bounds_ok (g : Graph.t) :
  exists g', Graph.reset_bounds g = Ok g' /\
             is_Some (Graph._min_x g') /\ is_Some (Graph._max_x g') /\
             is_Some (Graph._min_y g') /\ is_Some (Graph._max_y g').
Proof.
  unfold Graph.reset_bounds.
  destruct (for_each_ok Graph.widen (Graph.layers g) widen_ok
              (Graph.with_bounds None None None None g)) as [g' ->].
  cbn [bind]. eexists. split; [reflexivity |]. simpl. eauto.
Qed.

(** [reset_bounds] starts from cleared bounds, so what was set before is
    forgotten. *)
Lemma reset_bounds_forgets_x (a b : Q) (g : Graph.t) :
  Graph.reset_bounds (Graph.set_x_bounds a b g) = Graph.reset_bounds g.
Proof. reflexivity. Qed.

Lemma reset_bounds_all_hidden (g : Graph.t) :
  (forall l, l ∈ Graph.layers g -> Layer.visible l = false) ->
  Graph.reset_bounds g = Ok (Graph.finish_bounds (Graph.with_bounds None None None None g)).
Proof.
  intros Hhid. unfold Graph.reset_bounds.
  rewrite for_each_skip; [reflexivity |].
  intros l Hl. unfold Graph.widen. change (Graph.layers _) with (Graph.layers g) in Hl.
  rewrite (Hhid l Hl). reflexivity.
Qed.

(** C3, as stated, fails: a graph without layers gets the y bounds
    [(-0.05, 1.05)] from [reset_bounds], not [(0, 1)]. *)
Lemma reset_bounds_unit_range_counterexample :
  ~ (forall g, no_visible_data g ->
               exists g', Graph.reset_bounds g = Ok g' /\ unit_bounds g').
Proof.
  intros H. destruct (H (Graph.init "g" "" "" 100)) as (g' & Hg' & Hunit).
  - intros l Hl. inversion Hl.
  - injection Hg' as <-.
    destruct Hunit as (a & b & c & d & _ & _ & Hc & _ & _ & _ & Hc0 & _).
    injection Hc as <-. revert Hc0. vm_compute. discriminate.
Qed.

(** C3, amended. For a graph with no visible layer (all layers hidden, or
    none), [reset_bounds] yields exactly [(0, 1, -0.05, 1.05)]: the unit
    range, then the 5% margin on the y axis. *)
Theorem reset_bounds_no_visible_layer (g : Graph.t) :
  (forall l, l ∈ Graph.layers g -> Layer.visible l = false) ->
  exists g', Graph.reset_bounds g = Ok g' /\ margined_unit_bounds g'.
Proof.
  intros Hhid. rewrite (reset_bounds_all_hidden g Hhid).
  eexists. split; [reflexivity |].
  exists 0, 1, (0 - (1 - 0) * 0.05), (1 + (1 - 0) * 0.05).
  repeat split; reflexivity.
Qed.

Lemma reset_bounds_no_visible_layer_witness :
  let hidden := Layer.set_visible false
                  (LineLayer.add_data [0; 1; 2; 3] [0; 5; 0; 5] "default"
                     (Layer.init "line" LineLayer.init)) in
  let g := Graph.add_layer hidden 10 (Graph.init "g" "" "" 100) in
  exists g', Graph.reset_bounds g = Ok g' /\ margined_unit_bounds g'.
Proof.
  apply (reset_bounds_no_visible_layer
           (Graph.add_layer
              (Layer.set_visible false
                 (LineLayer.add_data [0; 1; 2; 3] [0; 5; 0; 5] "default"
                    (Layer.init "line" LineLayer.init)))
              10 (Graph.init "g" "" "" 100))).
  intros l Hl. apply list_elem_of_singleton in Hl. subst l. reflexivity.
Defined.

(** With a visible layer that has no data the layer's zero extent is taken
    as data: the x range is [(0, 0)], not the unit range. *)
Lemma reset_bounds_visible_empty_layer :
  let g := Graph.add_layer (Layer.init "line" LineLayer.init) 10 (Graph.init "g" "" "" 100) in
  exists g', Graph.reset_bounds g = Ok g' /\
             Graph._min_x g' = Some 0 /\ Graph._max_x g' = Some 0.
Proof. eexists. split; [reflexivity |]. split; reflexivity. Qed.

(** ** Reading the bounds *)

Lemma min_x_after_set (a b : Q) (g : Graph.t) :
  Graph.min_x (Graph.set_x_bounds a b g) = Ok (Some a, Graph.set_x_bounds a b g).
Proof. reflexivity. Qed.

Lemma max_x_after_set (a b : Q) (g : Graph.t) :
  Graph.max_x (Graph.set_x_bounds a b g) = Ok (Some b, Graph.set_x_bounds a b g).
Proof. reflexivity. Qed.

(** A first read of [min_y] on a graph whose y range was never computed
    runs [reset_bounds], which recomputes the x bounds from the data. *)
Lemma min_y_lazy_resets_x (a b : Q) (g : Graph.t) :
  Graph._min_y g = None ->
  Graph.min_y (Graph.set_x_bounds a b g) =
    (do g' <- Graph.reset_bounds g; Ok (Graph._min_y g', g')).
Proof.
  intros Hy. unfold Graph.min_y.
  change (Graph._min_y (Graph.set_x_bounds a b g)) with (Graph._min_y g).
  rewrite Hy, reset_bounds_forgets_x. reflexivity.
Qed.

(** C2 on the code: after [set_x_bounds(1, 2)] on the scenario graph, a
    read of [min_y()] leaves [min_x()] and [max_x()] at the data extent
    [(0, 3)]; the bounds that were set are lost without a call of
    [reset_bounds] by the caller. *)
Theorem set_x_bounds_lost_on_lazy_y_read :
  exists g1 g2 g3 y,
    Graph.min_y (Graph.set_x_bounds 1 2 scenario_graph) = Ok (y, g1) /\
    Graph.min_x g1 = Ok (Some 0, g2) /\
    Graph.max_x g2 = Ok (Some 3, g3).
Proof.
  do 4 eexists. split; [reflexivity |]. split; reflexivity.
Qed.

(** ** [is_empty] *)

(** What [is_empty] computes: it looks at [_data] alone, on every layer,
    visible or not. *)
Lemma is_empty_iff (g : Graph.t) :
  Graph.is_empty g = true <-> forall l, l ∈ Graph.layers g -> Layer._data l = [].
Proof.
  unfold Graph.is_empty. rewrite forallb_forall. split.
  - intros H l Hl. apply list_elem_of_In in Hl. specialize (H l Hl).
    unfold Graph.isinstance_dict in H. rewrite andb_false_r in H. simpl in H.
    destruct (Layer._data l); [reflexivity | discriminate].
  - intros H l Hl. apply list_elem_of_In in Hl. rewrite (H l Hl).
    unfold Graph.isinstance_dict. rewrite andb_false_r. reflexivity.
Qed.

(** C1 on the code: a graph whose visible line layer holds the series
    [x = [0,1,2,3], y = [0,5,0,5]] is reported empty, and a graph whose
    only layer is hidden is reported not empty once that layer has a
    [_data] entry. *)
Theorem is_empty_misses_series_data :
  Graph.is_empty scenario_graph = true /\
  Layer.visible scenario_line = true /\ ~ no_data scenario_line /\
  let hidden := Layer.set_visible false (Layer.add_data "k" [1] (Layer.init "aux" BaseLayer)) in
  Graph.is_empty (Graph.add_layer hidden 0 (Graph.init "g" "" "" 100)) = false.
Proof.
  split; [reflexivity |]. split; [reflexivity |]. split; [| reflexivity].
  intros ([H | H] & _); discriminate H.
Qed.

(** ** Rendering a graph whose bounds are computed *)

Lemma resolved_set_x_bounds (a b : Q) (g : Graph.t) :
  resolved g -> resolved (Graph.set_x_bounds a b g).
Proof.
  intros (_ & _ & Hy1 & Hy2). unfold resolved. simpl. eauto.
Qed.

Lemma read_bounds_resolved (g : Graph.t) : resolved g -> Graph.read_bounds g = Ok g.
Proof.
  intros ([a Ha] & [b Hb] & [c Hc] & [d Hd]).
  unfold Graph.read_bounds, Graph.min_x, Graph.max_x, Graph.min_y, Graph.max_y.
  rewrite Ha. cbn [bind]. rewrite Hb. cbn [bind]. rewrite Hc. cbn [bind].
  rewrite Hd. reflexivity.
Qed.

Lemma render_resolved (g : Graph.t) : resolved g -> Graph.render g = Ok g.
Proof.
  intros Hres. unfold Graph.render. destruct (negb (Graph.visible g)); [reflexivity |].
  rewrite (read_bounds_resolved g Hres). cbn [bind].
  apply for_each_skip. intros l _.
  destruct (Layer.visible l); [apply read_bounds_resolved, Hres | reflexivity].
Qed.

Lemma min_x_some (g : Graph.t) :
  is_Some (Graph._min_x g) -> Graph.min_x g = Ok (Graph._min_x g, g).
Proof. intros [a Ha]. unfold Graph.min_x. rewrite Ha. reflexivity. Qed.

Lemma max_x_some (g : Graph.t) :
  is_Some (Graph._max_x g) -> Graph.max_x g = Ok (Graph._max_x g, g).
Proof. intros [a Ha]. unfold Graph.max_x. rewrite Ha. reflexivity. Qed.

Lemma min_y_some (g : Graph.t) :
  is_Some (Graph._min_y g) -> Graph.min_y g = Ok (Graph._min_y g, g).
Proof. intros [a Ha]. unfold Graph.min_y. rewrite Ha. reflexivity. Qed.

Lemma max_y_some (g : Graph.t) :
  is_Some (Graph._max_y g) -> Graph.max_y g = Ok (Graph._max_y g, g).
Proof. intros [a Ha]. unfold Graph.max_y. rewrite Ha. reflexivity. Qed.

(** Reading all four bounds never raises and leaves them computed. *)
Lemma read_bounds_ok (g : Graph.t) :
  exists g', Graph.read_bounds g = Ok g' /\ resolved g'.
Proof.
  destruct (reset_bounds_ok g) as (g0 & Hreset & Hres0).
  pose proof Hres0 as (Hx0 & Hx1 & Hy0 & Hy1).
  unfold Graph.read_bounds.
  destruct (Graph._min_x g) as [a |] eqn:Ha.
  2: { unfold Graph.min_x at 1. rewrite Ha, Hreset. cbn [bind].
       rewrite (max_x_some g0 Hx1). cbn [bind]. rewrite (min_y_some g0 Hy0). cbn [bind].
       rewrite (max_y_some g0 Hy1). cbn [bind]. eauto. }
  rewrite (min_x_some g) by (rewrite Ha; eauto). cbn [bind].
  destruct (Graph._max_x g) as [b |] eqn:Hb.
  2: { unfold Graph.max_x at 1. rewrite Hb, Hreset. cbn [bind].
       rewrite (min_y_some g0 Hy0). cbn [bind].
       rewrite (max_y_some g0 Hy1). cbn [bind]. eauto. }
  rewrite (max_x_some g) by (rewrite Hb; eauto). cbn [bind].
  destruct (Graph._min_y g) as [c |] eqn:Hc.
  2: { unfold Graph.min_y at 1. rewrite Hc, Hreset. cbn [bind].
       rewrite (max_y_some g0 Hy1). cbn [bind]. eauto. }
  rewrite (min_y_some g) by (rewrite Hc; eauto). cbn [bind].
  destruct (Graph._max_y g) as [d |] eqn:Hd.
  2: { unfold Graph.max_y at 1. rewrite Hd, Hreset. cbn [bind]. eauto. }
  rewrite (max_y_some g) by (rewrite Hd; eauto). cbn [bind].
  exists g. split; [reflexivity |]. unfold resolved. rewrite Ha, Hb, Hc, Hd. eauto.
Qed.

Lemma render_ok (g : Graph.t) : exists g', Graph.render g = Ok g'.
Proof.
  unfold Graph.render. destruct (negb (Graph.visible g)); [eauto |].
  destruct (read_bounds_ok g) as (g1 & -> & Hres). cbn [bind].
  exists g1. apply for_each_skip. intros l _.
  destruct (Layer.visible l); [apply read_bounds_resolved, Hres | reflexivity].
Qed.

(** ** The objects of a view *)

Lemma bounds_applied_is_Some (a b : Q) (gs : list loc) (h h' : heap) (r : loc) :
  bounds_applied a b gs h h' -> is_Some (h' !! r) <-> is_Some (h !! r).
Proof.
  intros H. rewrite (H r). destruct (decide (r ∈ gs)); [apply fmap_is_Some | reflexivity].
Qed.

Lemma apply_x_bounds_spec (a b : Q) (gs : list loc) :
  forall h, (forall r, r ∈ gs -> is_Some (h !! r)) ->
            exists h', GraphView.apply_x_bounds a b gs h = Ok h' /\ bounds_applied a b gs h h'.
Proof.
  unfold GraphView.apply_x_bounds.
  induction gs as [| r0 gs IH]; intros h Hval.
  - exists h. split; [reflexivity |]. intros r. rewrite decide_False by set_solver. reflexivity.
  - destruct (Hval r0) as [g Hg]; [left |].
    cbn [for_each]. unfold deref at 1. rewrite Hg. cbn [bind].
    destruct (IH (<[r0 := Graph.set_x_bounds a b g]> h)) as (h' & -> & Happ).
    { intros r Hr. destruct (decide (r0 = r)) as [-> | Hne].
      - rewrite lookup_insert_eq. eauto.
      - rewrite lookup_insert_ne by exact Hne. apply Hval. right. exact Hr. }
    exists h'. split; [reflexivity |]. intros r. rewrite (Happ r).
    destruct (decide (r0 = r)) as [-> | Hne].
    + rewrite lookup_insert_eq, Hg, (decide_True (P := r ∈ r :: gs)) by left.
      destruct (decide (r ∈ gs)); reflexivity.
    + rewrite lookup_insert_ne by exact Hne.
      destruct (decide (r ∈ gs)) as [Hin | Hout].
      * rewrite decide_True by (right; exact Hin). reflexivity.
      * rewrite decide_False; [reflexivity |].
        intros Hc. apply elem_of_cons in Hc as [-> | Hc]; [apply Hne; reflexivity | exact (Hout Hc)].
Qed.

(** *** Redisplay *)

Lemma render_at_ok (h : heap) (r : loc) :
  is_Some (h !! r) ->
  exists h', GraphView.render_at h r = Ok h' /\ forall r', is_Some (h' !! r') <-> is_Some (h !! r').
Proof.
  intros [g Hg]. unfold GraphView.render_at, deref. rewrite Hg. cbn [bind].
  destruct (render_ok g) as [g' ->]. cbn [bind].
  eexists. split; [reflexivity |]. intros r'.
  destruct (decide (r = r')) as [-> | Hne].
  - rewrite lookup_insert_eq, Hg. split; eauto.
  - rewrite lookup_insert_ne by exact Hne. reflexivity.
Qed.

Lemma render_loop_ok (rs : list loc) :
  forall h, (forall r, r ∈ rs -> is_Some (h !! r)) ->
            exists h', for_each GraphView.render_at rs h = Ok h' /\
                       forall r', is_Some (h' !! r') <-> is_Some (h !! r').
Proof.
  induction rs as [| r rs IH]; intros h Hval; cbn [for_each].
  - exists h. split; reflexivity.
  - destruct (render_at_ok h r) as (h1 & -> & Hdom); [apply Hval; left |]. cbn [bind].
    destruct (IH h1) as (h' & -> & Hdom').
    { intros r' Hr'. apply Hdom, Hval. right. exact Hr'. }
    exists h'. split; [reflexivity |]. intros r'. rewrite Hdom'. apply Hdom.
Qed.

Lemma render_at_resolved (h : heap) (r : loc) (g : Graph.t) :
  h !! r = Some g -> resolved g -> GraphView.render_at h r = Ok h.
Proof.
  intros Hg Hres. unfold GraphView.render_at, deref. rewrite Hg. cbn [bind].
  rewrite (render_resolved g Hres). cbn [bind]. rewrite (insert_id h r g Hg). reflexivity.
Qed.

Lemma collect_visible_ok (h : heap) (gs : list loc) :
  (forall r, r ∈ gs -> is_Some (h !! r)) ->
  forall acc, exists vis, for_each (GraphView.collect_visible h) gs acc = Ok vis /\
                          forall r, r ∈ vis -> r ∈ acc \/ r ∈ gs /\ visible_at h r.
Proof.
  induction gs as [| r0 gs IH]; intros Hval acc; cbn [for_each].
  - exists acc. split; [reflexivity | auto].
  - destruct (Hval r0) as [g Hg]; [left |].
    unfold GraphView.collect_visible at 1, deref. rewrite Hg. cbn [bind].
    destruct (IH (fun r Hr => Hval r (list_elem_of_further _ _ _ Hr))
                 (if Graph.visible g then acc ++ [r0] else acc)) as (vis & -> & Hvis).
    exists vis. split; [reflexivity |]. intros r Hr.
    destruct (Hvis r Hr) as [Hacc | [Hgs Hv]]; [| right; split; [right; exact Hgs | exact Hv]].
    destruct (Graph.visible g) eqn:Hvg; [| left; exact Hacc].
    apply elem_of_app in Hacc as [Hacc | Hr0]; [left; exact Hacc |].
    apply list_elem_of_singleton in Hr0. subst. right. split; [left |].
    exists g. split; assumption.
Qed.

Lemma update_display_unfold (h : heap) (v : GraphView.t) :
  GraphView.update_display (h, v) =
    match GraphView.fig v with
    | None => Ok (h, v)
    | Some _ =>
        do visible_graphs <- for_each (GraphView.collect_visible h) (GraphView.graphs v) [];
        do h' <- for_each GraphView.render_at (take (GraphView.axes v) visible_graphs) h;
        Ok (h', v)
    end.
Proof. reflexivity. Qed.

(** [update_display] never raises, and keeps the view and the set of
    live objects. *)
Lemma update_display_ok (h : heap) (v : GraphView.t) :
  heap_closed h v ->
  exists h', GraphView.update_display (h, v) = Ok (h', v) /\
             forall r, is_Some (h' !! r) <-> is_Some (h !! r).
Proof.
  intros [Hgs _]. rewrite update_display_unfold.
  destruct (GraphView.fig v); [| exists h; split; reflexivity].
  destruct (collect_visible_ok h (GraphView.graphs v) Hgs []) as (vis & -> & Hvis).
  cbn [bind].
  destruct (render_loop_ok (take (GraphView.axes v) vis) h) as (h' & -> & Hdom).
  { intros r Hr. apply Hgs. apply (subseteq_take (GraphView.axes v) vis) in Hr.
    destruct (Hvis r Hr) as [Hnil | [Hin _]]; [inversion Hnil | exact Hin]. }
  cbn [bind]. exists h'. split; [reflexivity | exact Hdom].
Qed.

Lemma update_display_settled (h : heap) (v : GraphView.t) :
  heap_closed h v -> display_settled h v ->
  GraphView.update_display (h, v) = Ok (h, v).
Proof.
  intros [Hgs _] Hset. rewrite update_display_unfold.
  destruct (GraphView.fig v) eqn:Hfig; [| reflexivity].
  destruct Hset as [Hnone | Hres]; [congruence |].
  destruct (collect_visible_ok h (GraphView.graphs v) Hgs []) as (vis & -> & Hvis).
  cbn [bind]. rewrite for_each_skip; [reflexivity |].
  intros r Hr. apply (subseteq_take (GraphView.axes v) vis) in Hr.
  destruct (Hvis r Hr) as [Hnil | [Hin (g & Hg & Hvg)]]; [inversion Hnil |].
  apply (render_at_resolved h r g Hg), (Hres r g Hin Hg Hvg).
Qed.

(** ** [GraphView.set_x_bounds] *)

Lemma record_bounds_frame (a b : Q) (v : GraphView.t) :
  GraphView.graphs (record_bounds a b v) = GraphView.graphs v /\
  GraphView.linked_groups (record_bounds a b v) = GraphView.linked_groups v /\
  GraphView.fig (record_bounds a b v) = GraphView.fig v /\
  GraphView.axes (record_bounds a b v) = GraphView.axes v.
Proof.
  unfold record_bounds. destruct (GraphView.differs_from_last _ a b); repeat split.
Qed.

Lemma set_x_bounds_unfold (a b : Q) (group : Z) (h : heap) (v : GraphView.t) :
  GraphView.set_x_bounds a b group (h, v) =
    (do h1 <- GraphView.apply_x_bounds a b (targets v group) h;
     match GraphView.fig v with
     | Some _ => GraphView.update_display (h1, record_bounds a b v)
     | None => Ok (h1, record_bounds a b v)
     end).
Proof.
  unfold GraphView.set_x_bounds, targets, record_bounds.
  destruct (0 <? group)%Z; [destruct (GraphView.linked_groups v !! group) |];
    cbn [default];
    destruct (GraphView.differs_from_last (GraphView.history v) a b); reflexivity.
Qed.

Lemma heap_closed_targets (h : heap) (v : GraphView.t) (group : Z) :
  heap_closed h v -> forall r, r ∈ targets v group -> is_Some (h !! r).
Proof.
  intros [Hgs Hgrp] r. unfold targets.
  destruct (0 <? group)%Z; [| apply Hgs].
  destruct (GraphView.linked_groups v !! group) as [members |] eqn:E; cbn [default].
  - apply (Hgrp group members r E).
  - apply Hgs.
Qed.

Lemma heap_closed_same_dom (h h' : heap) (v v' : GraphView.t) :
  (forall r, is_Some (h' !! r) <-> is_Some (h !! r)) ->
  GraphView.graphs v' = GraphView.graphs v ->
  GraphView.linked_groups v' = GraphView.linked_groups v ->
  heap_closed h v -> heap_closed h' v'.
Proof.
  intros Hdom Hg Hl [Hgs Hgrp]. unfold heap_closed. rewrite Hg, Hl. split.
  - intros r Hr. apply Hdom, Hgs, Hr.
  - intros k members r Hk Hr. apply Hdom. apply (Hgrp k members r Hk Hr).
Qed.

(** [set_x_bounds] never raises; the view it leaves is the old one with
    the history step done. *)
Lemma set_x_bounds_ok (a b : Q) (group : Z) (h : heap) (v : GraphView.t) :
  heap_closed h v ->
  exists h', GraphView.set_x_bounds a b group (h, v) = Ok (h', record_bounds a b v) /\
             heap_closed h' (record_bounds a b v).
Proof.
  intros Hclosed. rewrite set_x_bounds_unfold.
  destruct (apply_x_bounds_spec a b (targets v group) h (heap_closed_targets h v group Hclosed))
    as (h1 & -> & Happ).
  cbn [bind].
  destruct (record_bounds_frame a b v) as (Hg & Hl & Hf & Ha).
  assert (Hclosed1 : heap_closed h1 (record_bounds a b v)).
  { apply (heap_closed_same_dom h h1 v); auto.
    intros r. apply (bounds_applied_is_Some a b _ h h1 r Happ). }
  destruct (GraphView.fig v).
  - destruct (update_display_ok h1 (record_bounds a b v) Hclosed1) as (h' & -> & Hdom).
    exists h'. split; [reflexivity |].
    apply (heap_closed_same_dom h1 h' (record_bounds a b v)); auto.
  - exists h1. split; [reflexivity | exact Hclosed1].
Qed.

Lemma display_settled_applied (a b : Q) (gs : list loc) (h h' : heap) (v v' : GraphView.t) :
  bounds_applied a b gs h h' -> GraphView.fig v' = GraphView.fig v ->
  GraphView.graphs v' = GraphView.graphs v ->
  display_settled h v -> display_settled h' v'.
Proof.
  intros Happ Hf Hgs [Hnone | Hres]; [left; congruence | right].
  intros r g. rewrite Hgs, (Happ r). intros Hr.
  destruct (decide (r ∈ gs)); [| apply Hres, Hr].
  destruct (h !! r) as [g0 |] eqn:E; [| discriminate].
  intros [= <-] Hvis. apply resolved_set_x_bounds, (Hres r g0 Hr E Hvis).
Qed.

(** When a redisplay has nothing to compute, [set_x_bounds] changes the
    x bounds of its targets and nothing else in the heap. *)
Lemma set_x_bounds_settled (a b : Q) (group : Z) (h : heap) (v : GraphView.t) :
  heap_closed h v -> display_settled h v ->
  exists h', GraphView.set_x_bounds a b group (h, v) = Ok (h', record_bounds a b v) /\
             bounds_applied a b (targets v group) h h' /\
             heap_closed h' (record_bounds a b v) /\
             display_settled h' (record_bounds a b v).
Proof.
  intros Hclosed Hset. rewrite set_x_bounds_unfold.
  destruct (apply_x_bounds_spec a b (targets v group) h (heap_closed_targets h v group Hclosed))
    as (h1 & -> & Happ).
  cbn [bind].
  destruct (record_bounds_frame a b v) as (Hg & Hl & Hf & Ha).
  assert (Hclosed1 : heap_closed h1 (record_bounds a b v)).
  { apply (heap_closed_same_dom h h1 v); auto.
    intros r. apply (bounds_applied_is_Some a b _ h h1 r Happ). }
  assert (Hset1 : display_settled h1 (record_bounds a b v))
    by (apply (display_settled_applied a b (targets v group) h h1 v); auto).
  exists h1.
  destruct (GraphView.fig v).
  - rewrite (update_display_settled h1 _ Hclosed1 Hset1). auto.
  - auto.
Qed.

Lemma bounds_applied_in (a b : Q) (gs : list loc) (h h' : heap) (r : loc) :
  bounds_applied a b gs h h' -> r ∈ gs -> is_Some (h !! r) ->
  x_bounds h' r = Some (Some a, Some b).
Proof.
  intros Happ Hin [g Hg]. unfold x_bounds. rewrite (Happ r), decide_True, Hg by exact Hin.
  reflexivity.
Qed.

Lemma bounds_applied_out (a b : Q) (gs : list loc) (h h' : heap) (r : loc) :
  bounds_applied a b gs h h' -> r ∉ gs -> h' !! r = h !! r.
Proof.
  intros Happ Hout. rewrite (Happ r), decide_False by exact Hout. reflexivity.
Qed.

Lemma scenario_view_built :
  GraphView.add_graph 0%nat 0 (scenario_heap, GraphView.init "view")
  = Ok (scenario_heap, scenario_view).
Proof. reflexivity. Qed.

Lemma scenario_closed : heap_closed scenario_heap scenario_view.
Proof.
  split.
  - intros r Hr. apply list_elem_of_singleton in Hr. subst r.
    unfold scenario_heap. rewrite lookup_insert_eq. eauto.
  - intros k members r Hk. cbn in Hk. rewrite lookup_empty in Hk. discriminate.
Qed.

Lemma scenario_settled : display_settled scenario_heap scenario_view.
Proof. left. reflexivity. Qed.

(** C4, as stated, fails: with a positive group id that is not registered
    the call sets the bounds of every graph of the view. *)
Lemma set_x_bounds_unregistered_group_counterexample :
  ~ (forall a b group h v h' v',
       (0 < group)%Z -> heap_closed h v ->
       GraphView.set_x_bounds a b group (h, v) = Ok (h', v') ->
       forall r, r ∉ default [] (GraphView.linked_groups v !! group) ->
                 x_bounds h' r = x_bounds h r).
Proof.
  intros H.
  destruct (set_x_bounds_settled 1 2 7%Z scenario_heap scenario_view
              scenario_closed scenario_settled) as (h' & Hcall & Happ & _).
  specialize (H 1 2 7%Z scenario_heap scenario_view h' _ eq_refl scenario_closed Hcall 0%nat).
  assert (Hin : 0%nat ∈ targets scenario_view 7%Z).
  { unfold targets. cbn. rewrite lookup_empty. left. }
  rewrite (bounds_applied_in 1 2 _ _ _ 0%nat Happ Hin) in H.
  - cbn in H. rewrite lookup_empty in H.
    specialize (H ltac:(cbn; apply not_elem_of_nil)).
    unfold x_bounds, scenario_heap in H. rewrite lookup_insert_eq in H. discriminate H.
  - unfold scenario_heap. rewrite lookup_insert_eq. eauto.
Qed.

(** On a shown view whose graph has no y range yet, the redisplay at the
    end of [set_x_bounds] reads [min_y()], and the bounds just set are
    replaced by the data extent (the lazy reset of C2). *)
Lemma set_x_bounds_redisplay_resets :
  exists h' v',
    GraphView.set_x_bounds 1 2 0 (scenario_heap, shown_view) = Ok (h', v') /\
    x_bounds h' 0%nat = Some (Some 0, Some 3).
Proof. do 2 eexists. split; vm_compute; reflexivity. Qed.

(** C4, amended. For a view whose redisplay has nothing to compute (it is
    not shown, or all its visible graphs have their bounds) and a call
    [set_x_bounds(min, max, group)] with [group > 0]: if the group is
    registered, exactly its members get the x bounds [(min, max)] and
    every other graph is unchanged; if no group of that id is registered,
    every graph of the view gets the x bounds [(min, max)]. *)
Theorem set_x_bounds_group_frame (a b : Q) (group : Z) (h : heap) (v : GraphView.t) :
  (0 < group)%Z -> heap_closed h v -> display_settled h v ->
  exists h' v',
    GraphView.set_x_bounds a b group (h, v) = Ok (h', v') /\
    (forall members, GraphView.linked_groups v !! group = Some members ->
       (forall r, r ∈ members -> x_bounds h' r = Some (Some a, Some b)) /\
       (forall r, r ∉ members -> h' !! r = h !! r)) /\
    (GraphView.linked_groups v !! group = None ->
       (forall r, r ∈ GraphView.graphs v -> x_bounds h' r = Some (Some a, Some b)) /\
       (forall r, r ∉ GraphView.graphs v -> h' !! r = h !! r)).
Proof.
  intros Hpos Hclosed Hset.
  destruct (set_x_bounds_settled a b group h v Hclosed Hset) as (h' & Hcall & Happ & _).
  exists h', (record_bounds a b v). split; [exact Hcall |].
  pose proof (heap_closed_targets h v group Hclosed) as Hval.
  unfold targets in Happ, Hval. apply Z.ltb_lt in Hpos. rewrite Hpos in Happ, Hval.
  split.
  - intros members E. rewrite E in Happ, Hval. cbn [default] in Happ, Hval. split.
    + intros r Hr. apply (bounds_applied_in a b members h h' r Happ Hr (Hval r Hr)).
    + intros r Hr. apply (bounds_applied_out a b members h h' r Happ Hr).
  - intros E. rewrite E in Happ, Hval. cbn [default] in Happ, Hval. split.
    + intros r Hr. apply (bounds_applied_in a b _ h h' r Happ Hr (Hval r Hr)).
    + intros r Hr. apply (bounds_applied_out a b _ h h' r Happ Hr).
Qed.

Lemma linked_view_built :
  (do s <- GraphView.add_graph 0%nat 1 (linked_heap, GraphView.init "view");
   GraphView.add_graph 1%nat 0 s)
  = Ok (linked_heap, linked_view).
Proof. reflexivity. Qed.

Lemma linked_closed : heap_closed linked_heap linked_view.
Proof.
  assert (H0 : is_Some (linked_heap !! 0%nat)) by (vm_compute; eauto).
  assert (H1 : is_Some (linked_heap !! 1%nat)) by (vm_compute; eauto).
  split.
  - intros r Hr. cbn in Hr.
    apply elem_of_cons in Hr as [-> | Hr]; [exact H0 |].
    apply list_elem_of_singleton in Hr. subst r. exact H1.
  - intros k members r Hk Hr. cbn in Hk.
    destruct (decide (k = 1%Z)) as [-> | Hne].
    + rewrite lookup_insert_eq in Hk. injection Hk as <-.
      apply list_elem_of_singleton in Hr. subst r. exact H0.
    + rewrite lookup_insert_ne, lookup_empty in Hk by congruence. discriminate.
Qed.

Lemma set_x_bounds_group_frame_witness :
  exists h' v',
    GraphView.set_x_bounds 1 2 1 (linked_heap, linked_view) = Ok (h', v') /\
    (forall members, GraphView.linked_groups linked_view !! 1%Z = Some members ->
       (forall r, r ∈ members -> x_bounds h' r = Some (Some 1, Some 2)) /\
       (forall r, r ∉ members -> h' !! r = linked_heap !! r)) /\
    (GraphView.linked_groups linked_view !! 1%Z = None ->
       (forall r, r ∈ GraphView.graphs linked_view -> x_bounds h' r = Some (Some 1, Some 2)) /\
       (forall r, r ∉ GraphView.graphs linked_view -> h' !! r = linked_heap !! r)).
Proof.
  apply (set_x_bounds_group_frame 1 2 1%Z linked_heap linked_view).
  - reflexivity.
  - exact linked_closed.
  - left. reflexivity.
Defined.

(** *** History *)

Lemma differs_from_last_true (hist : list (Q * Q)) (a b : Q) :
  GraphView.differs_from_last hist a b = true <->
  hist = [] \/ exists p q, last hist = Some (p, q) /\ ~ (p == a /\ q == b).
Proof.
  unfold GraphView.differs_from_last.
  destruct (last hist) as [[p q] |] eqn:E.
  - rewrite orb_true_iff, !negb_true_iff, <- !not_true_iff_false, !Qeq_bool_iff. split.
    + intros H. right. exists p, q. split; [reflexivity |]. intros [H1 H2]. destruct H; auto.
    + intros [-> | (p' & q' & [= <- <-] & H)]; [discriminate E |].
      destruct (Qeq_dec p a) as [Hp | Hp]; [| left; exact Hp].
      right. intros Hq. apply H. split; assumption.
  - split; [| reflexivity]. intros _. left. apply last_None, E.
Qed.

Lemma differs_from_last_false (hist : list (Q * Q)) (a b : Q) :
  GraphView.differs_from_last hist a b = false <->
  exists p q, last hist = Some (p, q) /\ p == a /\ q == b.
Proof.
  unfold GraphView.differs_from_last.
  destruct (last hist) as [[p q] |] eqn:E.
  - rewrite orb_false_iff, !negb_false_iff, !Qeq_bool_iff. split.
    + intros [H1 H2]. exists p, q. auto.
    + intros (p' & q' & [= <- <-] & H). exact H.
  - split; [discriminate |]. intros (p & q & H & _). discriminate H.
Qed.

(** C5. A call [set_x_bounds(min, max, group)] appends [(min, max)] to
    the history exactly when the history is empty or its last entry
    differs from [(min, max)], and then puts the cursor on the new last
    index; otherwise history and cursor stay as they are. *)
Theorem set_x_bounds_history (a b : Q) (group : Z) (h : heap) (v : GraphView.t) :
  heap_closed h v ->
  exists h' v',
    GraphView.set_x_bounds a b group (h, v) = Ok (h', v') /\
    ((GraphView.history v = [] \/
      exists p q, last (GraphView.history v) = Some (p, q) /\ ~ (p == a /\ q == b)) ->
     GraphView.history v' = GraphView.history v ++ [(a, b)] /\
     GraphView.history_position v' = (Z.of_nat (length (GraphView.history v')) - 1)%Z) /\
    ((exists p q, last (GraphView.history v) = Some (p, q) /\ p == a /\ q == b) ->
     GraphView.history v' = GraphView.history v /\
     GraphView.history_position v' = GraphView.history_position v).
Proof.
  intros Hclosed.
  destruct (set_x_bounds_ok a b group h v Hclosed) as (h' & Hcall & _).
  exists h', (record_bounds a b v). split; [exact Hcall |]. unfold record_bounds. split.
  - intros H. apply differs_from_last_true in H. rewrite H. split; reflexivity.
  - intros H. apply differs_from_last_false in H. rewrite H. split; reflexivity.
Qed.

Lemma set_x_bounds_history_witness :
  exists h' v',
    GraphView.set_x_bounds 1 2 0 (scenario_heap, scenario_view) = Ok (h', v') /\
    ((GraphView.history scenario_view = [] \/
      exists p q, last (GraphView.history scenario_view) = Some (p, q) /\ ~ (p == 1 /\ q == 2)) ->
     GraphView.history v' = GraphView.history scenario_view ++ [(1, 2)] /\
     GraphView.history_position v' = (Z.of_nat (length (GraphView.history v')) - 1)%Z) /\
    ((exists p q, last (GraphView.history scenario_view) = Some (p, q) /\ p == 1 /\ q == 2) ->
     GraphView.history v' = GraphView.history scenario_view /\
     GraphView.history_position v' = GraphView.history_position scenario_view).
Proof.
  apply (set_x_bounds_history 1 2 0%Z scenario_heap scenario_view).
  exact scenario_closed.
Defined.

(** ** Back and forward *)

(** A step of the cursor re-applies the entry under it to every graph of
    the view; the history itself is not touched. *)
Lemma on_back_settled (a b : Q) (h : heap) (v : GraphView.t) :
  heap_closed h v -> display_settled h v ->
  (0 < GraphView.history_position v)%Z ->
  py_index (GraphView.history v) (GraphView.history_position v - 1) = Ok (a, b) ->
  exists h',
    GraphView._on_back (h, v)
    = Ok (h', GraphView.with_history (GraphView.history v) (GraphView.history_position v - 1) v) /\
    bounds_applied a b (GraphView.graphs v) h h'.
Proof.
  intros Hclosed Hset Hpos Hidx. unfold GraphView._on_back.
  apply Z.ltb_lt in Hpos. rewrite Hpos.
  change (GraphView.history (GraphView.with_history _ _ v)) with (GraphView.history v).
  change (GraphView.graphs (GraphView.with_history _ _ v)) with (GraphView.graphs v).
  rewrite Hidx. cbn [bind].
  destruct (apply_x_bounds_spec a b (GraphView.graphs v) h (proj1 Hclosed)) as (h' & -> & Happ).
  cbn [bind]. exists h'. split; [| exact Happ].
  apply update_display_settled.
  - apply (heap_closed_same_dom h h' v); auto.
    intros r. apply (bounds_applied_is_Some a b _ h h' r Happ).
  - apply (display_settled_applied a b (GraphView.graphs v) h h' v); auto.
Qed.

Lemma on_forward_settled (a b : Q) (h : heap) (v : GraphView.t) :
  heap_closed h v -> display_settled h v ->
  (GraphView.history_position v < Z.of_nat (length (GraphView.history v)) - 1)%Z ->
  py_index (GraphView.history v) (GraphView.history_position v + 1) = Ok (a, b) ->
  exists h',
    GraphView._on_forward (h, v)
    = Ok (h', GraphView.with_history (GraphView.history v) (GraphView.history_position v + 1) v) /\
    bounds_applied a b (GraphView.graphs v) h h'.
Proof.
  intros Hclosed Hset Hpos Hidx. unfold GraphView._on_forward.
  apply Z.ltb_lt in Hpos. rewrite Hpos.
  change (GraphView.history (GraphView.with_history _ _ v)) with (GraphView.history v).
  change (GraphView.graphs (GraphView.with_history _ _ v)) with (GraphView.graphs v).
  rewrite Hidx. cbn [bind].
  destruct (apply_x_bounds_spec a b (GraphView.graphs v) h (proj1 Hclosed)) as (h' & -> & Happ).
  cbn [bind]. exists h'. split; [| exact Happ].
  apply update_display_settled.
  - apply (heap_closed_same_dom h h' v); auto.
    intros r. apply (bounds_applied_is_Some a b _ h h' r Happ).
  - apply (display_settled_applied a b (GraphView.graphs v) h h' v); auto.
Qed.

Lemma fresh_init (ttl : string) : fresh (GraphView.init ttl).
Proof. repeat split. Qed.

Lemma fresh_add_graph (graph : loc) (group : Z) (h h' : heap) (v v' : GraphView.t) :
  fresh v -> GraphView.add_graph graph group (h, v) = Ok (h', v') -> fresh v'.
Proof.
  unfold GraphView.add_graph. intros Hf. destruct (deref h graph); [| discriminate].
  cbn [bind]. intros [= <- <-]. exact Hf.
Qed.

(** C6. On a freshly created view with at least one graph, after
    [set_x_bounds(a1, b1)] and then [set_x_bounds(a2, b2)] with different
    bounds, [back()] leaves every graph of the view with the x bounds
    [(a1, b1)] and [forward()] after it with [(a2, b2)]; both leave the
    history as it was and reach every graph, linked or not. *)
Theorem back_forward_restore (a1 b1 a2 b2 : Q) (group1 group2 : Z)
    (h : heap) (v : GraphView.t) :
  heap_closed h v -> fresh v -> GraphView.graphs v <> [] ->
  ~ (a1 == a2 /\ b1 == b2) ->
  exists h1 v1 h2 v2 h3 v3 h4 v4,
    GraphView.set_x_bounds a1 b1 group1 (h, v) = Ok (h1, v1) /\
    GraphView.set_x_bounds a2 b2 group2 (h1, v1) = Ok (h2, v2) /\
    GraphView._on_back (h2, v2) = Ok (h3, v3) /\
    GraphView._on_forward (h3, v3) = Ok (h4, v4) /\
    (forall r, r ∈ GraphView.graphs v -> x_bounds h3 r = Some (Some a1, Some b1)) /\
    (forall r, r ∈ GraphView.graphs v -> x_bounds h4 r = Some (Some a2, Some b2)) /\
    GraphView.history v2 = [(a1, b1); (a2, b2)] /\
    GraphView.history v3 = GraphView.history v2 /\
    GraphView.history v4 = GraphView.history v2.
Proof.
  intros Hclosed (Hhist & Hpos & Hfig) _ Hdiff.
  assert (Hset : display_settled h v) by (left; exact Hfig).
  destruct (set_x_bounds_settled a1 b1 group1 h v Hclosed Hset)
    as (h1 & Hcall1 & _ & Hclosed1 & Hset1).
  assert (Hv1 : record_bounds a1 b1 v = GraphView.with_history [(a1, b1)] 0 v).
  { unfold record_bounds. rewrite Hhist. reflexivity. }
  rewrite Hv1 in Hcall1, Hclosed1, Hset1.
  set (v1 := GraphView.with_history [(a1, b1)] 0 v) in *.
  destruct (set_x_bounds_settled a2 b2 group2 h1 v1 Hclosed1 Hset1)
    as (h2 & Hcall2 & _ & Hclosed2 & Hset2).
  assert (Hv2 : record_bounds a2 b2 v1
                = GraphView.with_history [(a1, b1); (a2, b2)] 1 v1).
  { unfold record_bounds.
    assert (Hd : GraphView.differs_from_last (GraphView.history v1) a2 b2 = true).
    { apply differs_from_last_true. right. exists a1, b1. split; [reflexivity | exact Hdiff]. }
    rewrite Hd. reflexivity. }
  rewrite Hv2 in Hcall2, Hclosed2, Hset2.
  set (v2 := GraphView.with_history [(a1, b1); (a2, b2)] 1 v1) in *.
  destruct (on_back_settled a1 b1 h2 v2 Hclosed2 Hset2) as (h3 & Hback & Happ3);
    [reflexivity | reflexivity |].
  set (v3 := GraphView.with_history (GraphView.history v2)
               (GraphView.history_position v2 - 1) v2) in *.
  assert (Hclosed3 : heap_closed h3 v3).
  { apply (heap_closed_same_dom h2 h3 v2); auto.
    intros r. apply (bounds_applied_is_Some a1 b1 _ h2 h3 r Happ3). }
  assert (Hset3 : display_settled h3 v3) by (left; exact Hfig).
  destruct (on_forward_settled a2 b2 h3 v3 Hclosed3 Hset3) as (h4 & Hfwd & Happ4);
    [reflexivity | reflexivity |].
  exists h1, v1, h2, v2, h3, v3, h4. eexists.
  split; [exact Hcall1 |]. split; [exact Hcall2 |]. split; [exact Hback |].
  split; [exact Hfwd |].
  split; [| split; [| repeat split]].
  - intros r Hr. apply (bounds_applied_in a1 b1 _ h2 h3 r Happ3 Hr).
    apply (proj1 Hclosed2 r Hr).
  - intros r Hr. apply (bounds_applied_in a2 b2 _ h3 h4 r Happ4 Hr).
    apply (proj1 Hclosed3 r Hr).
Qed.

Lemma back_forward_restore_witness :
  exists h1 v1 h2 v2 h3 v3 h4 v4,
    GraphView.set_x_bounds 1 2 0 (linked_heap, linked_view) = Ok (h1, v1) /\
    GraphView.set_x_bounds 0 3 1 (h1, v1) = Ok (h2, v2) /\
    GraphView._on_back (h2, v2) = Ok (h3, v3) /\
    GraphView._on_forward (h3, v3) = Ok (h4, v4) /\
    (forall r, r ∈ GraphView.graphs linked_view -> x_bounds h3 r = Some (Some 1, Some 2)) /\
    (forall r, r ∈ GraphView.graphs linked_view -> x_bounds h4 r = Some (Some 0, Some 3)) /\
    GraphView.history v2 = [(1, 2); (0, 3)] /\
    GraphView.history v3 = GraphView.history v2 /\
    GraphView.history v4 = GraphView.history v2.
Proof.
  apply (back_forward_restore 1 2 0 3 0%Z 1%Z linked_heap linked_view).
  - exact linked_closed.
  - repeat split.
  - discriminate.
  - intros [H _]. revert H. vm_compute. discriminate.
Defined.

(** ** Scroll zoom *)

(** A scroll over the axes reads the x bounds of the first graph and then
    calls [set_x_bounds] with the zoomed range around the pointer. *)
Lemma on_scroll_unfold (event : MouseEvent) (c mn mx : Q) (h : heap) (v : GraphView.t)
    (r : loc) (rest : list loc) (g gA gB : Graph.t) :
  is_Some (inaxes event) -> xdata event = Some c ->
  GraphView.graphs v = r :: rest -> h !! r = Some g ->
  Graph.min_x g = Ok (Some mn, gA) -> Graph.max_x gA = Ok (Some mx, gB) ->
  GraphView._on_scroll event (h, v)
  = GraphView.set_x_bounds (c - zoomed event (mx - mn) / 2) (c + zoomed event (mx - mn) / 2)
      0 (<[r := gB]> h, v).
Proof.
  intros [u Hin] Hx Hgs Hg Hmin Hmax. unfold GraphView._on_scroll.
  rewrite Hin, Hgs. unfold deref. rewrite Hg. cbn [bind].
  rewrite Hmin. cbn [bind]. rewrite Hmax. cbn [bind as_float]. rewrite Hx.
  cbn [bind as_float]. unfold zoomed. reflexivity.
Qed.

(** Reading [min_x] and then [max_x] returns the graph as it was, or one
    with all four bounds computed. *)
Lemma getter_keeps_or_resets (g gA gB : Graph.t) (mn mx : option Q) :
  Graph.min_x g = Ok (mn, gA) -> Graph.max_x gA = Ok (mx, gB) ->
  gB = g \/ resolved gB.
Proof.
  unfold Graph.min_x, Graph.max_x. intros Hmin Hmax.
  destruct (reset_bounds_ok gA) as (gA' & HA & HresA).
  destruct (Graph._max_x gA).
  - injection Hmax as _ <-.
    destruct (reset_bounds_ok g) as (g' & Hg' & Hres).
    destruct (Graph._min_x g).
    + injection Hmin as _ <-. left. reflexivity.
    + rewrite Hg' in Hmin. cbn [bind] in Hmin. injection Hmin as _ <-. right. exact Hres.
  - rewrite HA in Hmax. cbn [bind] in Hmax. injection Hmax as _ <-. right. exact HresA.
Qed.

Lemma read_x_settled (h : heap) (v : GraphView.t) (r : loc) (g gA gB : Graph.t)
    (mn mx : option Q) :
  heap_closed h v -> display_settled h v -> h !! r = Some g ->
  Graph.min_x g = Ok (mn, gA) -> Graph.max_x gA = Ok (mx, gB) ->
  heap_closed (<[r := gB]> h) v /\ display_settled (<[r := gB]> h) v.
Proof.
  intros Hclosed Hset Hg Hmin Hmax. split.
  - apply (heap_closed_same_dom h _ v); auto. intros r'.
    destruct (decide (r = r')) as [-> | Hne].
    + rewrite lookup_insert_eq, Hg. split; eauto.
    + rewrite lookup_insert_ne by exact Hne. reflexivity.
  - destruct Hset as [Hnone | Hres]; [left; exact Hnone | right].
    intros r' g' Hr'. destruct (decide (r = r')) as [<- | Hne].
    + rewrite lookup_insert_eq. intros [= <-] Hvis.
      destruct (getter_keeps_or_resets g gA gB mn mx Hmin Hmax) as [-> | Hres']; [| exact Hres'].
      apply (Hres r g Hr' Hg Hvis).
    + rewrite lookup_insert_ne by exact Hne. apply Hres, Hr'.
Qed.

Lemma scroll_unsettled_closed :
  heap_closed (<[0%nat := Graph.set_x_bounds 1 2 scenario_graph]> ∅) shown_view.
Proof.
  split.
  - intros r Hr. apply list_elem_of_singleton in Hr. subst r.
    rewrite lookup_insert_eq. eauto.
  - intros k members r Hk. cbn in Hk. rewrite lookup_empty in Hk. discriminate.
Qed.

(** C7, as stated, fails.  In binary64 the factors [1 - 0.1] and
    [1 + 0.1] do not compose to 0.99: from the bounds [(0, 3)], a scroll
    up and a scroll down at 1 leave bounds that are neither
    [1 - 0.495 * 3] and [1 + 0.495 * 3] nor [0.99 * 3] apart.  And in
    exact arithmetic the claim fails on a shown view whose first graph
    has the x range [(1, 2)] and no y range yet: the redisplay after the
    first scroll computes the y range, which resets the x range to the
    data's (the lazy reset of C2), and the second scroll zooms from
    there. *)
#[warnings="-inexact-float"]
Lemma scroll_in_then_out_counterexample :
  (PrimFloat.eqb (fst (Float64.scroll_up_down 0 3 1)) (1 - 0.495 * (3 - 0)) = false /\
   PrimFloat.eqb (snd (Float64.scroll_up_down 0 3 1)) (1 + 0.495 * (3 - 0)) = false /\
   PrimFloat.eqb (snd (Float64.scroll_up_down 0 3 1) - fst (Float64.scroll_up_down 0 3 1))
                 (0.99 * (3 - 0)) = false)%float /\
  ~ (forall (c mn mx : Q) (h : heap) (v : GraphView.t) (r : loc) (rest : list loc)
            (g gA gB : Graph.t),
       heap_closed h v ->
       GraphView.graphs v = r :: rest -> h !! r = Some g ->
       Graph.min_x g = Ok (Some mn, gA) -> Graph.max_x gA = Ok (Some mx, gB) ->
       0 < mx - mn ->
       exists s1 h2 v2 lo hi,
         GraphView._on_scroll (mkEvent (Some tt) "up" (Some c)) (h, v) = Ok s1 /\
         GraphView._on_scroll (mkEvent (Some tt) "down" (Some c)) s1 = Ok (h2, v2) /\
         x_bounds h2 r = Some (Some lo, Some hi) /\
         lo == c - 0.495 * (mx - mn) /\ hi == c + 0.495 * (mx - mn)).
Proof.
  split.
  - repeat split; vm_compute; reflexivity.
  - intros H.
    destruct (H 1.5 1 2 (<[0%nat := Graph.set_x_bounds 1 2 scenario_graph]> ∅) shown_view
                0%nat [] (Graph.set_x_bounds 1 2 scenario_graph)
                (Graph.set_x_bounds 1 2 scenario_graph)
                (Graph.set_x_bounds 1 2 scenario_graph)
                scroll_unsettled_closed eq_refl eq_refl eq_refl eq_refl eq_refl)
      as (s1 & h2 & v2 & lo & hi & E1 & E2 & Hb & Hlo & _).
    vm_compute in E1. injection E1 as <-.
    vm_compute in E2. injection E2 as <- <-.
    vm_compute in Hb. injection Hb as <- <-.
    revert Hlo. vm_compute. discriminate.
Qed.

(** C7, amended.  When the first graph's x range has width [w > 0], a
    scroll up at the data position [c] followed by a scroll down at [c]
    leaves the first graph, in exact arithmetic, with the x bounds
    [c - 0.495 w] and [c + 0.495 w]: a range of width [0.99 w] centred on
    [c], which is not the width [w] it had.  [w] is [mx - mn], the
    bounds the scroll handler reads, subtracted without wrap-around.  The
    redisplay has nothing to compute: the view is not shown, or its
    visible graphs have their bounds, as they do once [show] has drawn
    them. *)
Theorem scroll_in_then_out (c mn mx : Q) (h : heap) (v : GraphView.t)
    (r : loc) (rest : list loc) (g gA gB : Graph.t) :
  heap_closed h v -> display_settled h v ->
  GraphView.graphs v = r :: rest -> h !! r = Some g ->
  Graph.min_x g = Ok (Some mn, gA) -> Graph.max_x gA = Ok (Some mx, gB) ->
  0 < mx - mn -> int64_range (mx - mn) ->
  exists s1 h2 v2 lo hi,
    GraphView._on_scroll (mkEvent (Some tt) "up" (Some c)) (h, v) = Ok s1 /\
    GraphView._on_scroll (mkEvent (Some tt) "down" (Some c)) s1 = Ok (h2, v2) /\
    x_bounds h2 r = Some (Some lo, Some hi) /\
    lo == c - 0.495 * (mx - mn) /\ hi == c + 0.495 * (mx - mn) /\
    hi - lo == 0.99 * (mx - mn) /\ ~ hi - lo == mx - mn.
Proof.
  intros Hclosed Hset Hgs Hg Hmin Hmax Hw _.
  set (up := mkEvent (Some tt) "up" (Some c)).
  set (down := mkEvent (Some tt) "down" (Some c)).
  destruct (read_x_settled h v r g gA gB _ _ Hclosed Hset Hg Hmin Hmax) as [HclosedA HsetA].
  set (lo1 := c - zoomed up (mx - mn) / 2).
  set (hi1 := c + zoomed up (mx - mn) / 2).
  destruct (set_x_bounds_settled lo1 hi1 0 _ v HclosedA HsetA)
    as (h1 & Hcall1 & Happ1 & Hclosed1 & Hset1).
  set (v1 := record_bounds lo1 hi1 v) in *.
  assert (Hgs1 : GraphView.graphs v1 = r :: rest).
  { unfold v1. rewrite (proj1 (record_bounds_frame lo1 hi1 v)). exact Hgs. }
  assert (Hr : r ∈ targets v 0) by (unfold targets; cbn; rewrite Hgs; left).
  assert (Hg1 : h1 !! r = Some (Graph.set_x_bounds lo1 hi1 gB)).
  { rewrite (Happ1 r), decide_True, lookup_insert_eq by exact Hr. reflexivity. }
  set (g1 := Graph.set_x_bounds lo1 hi1 gB) in *.
  destruct (read_x_settled h1 v1 r g1 g1 g1 (Some lo1) (Some hi1) Hclosed1 Hset1 Hg1
              eq_refl eq_refl) as [HclosedB HsetB].
  set (lo2 := c - zoomed down (hi1 - lo1) / 2).
  set (hi2 := c + zoomed down (hi1 - lo1) / 2).
  destruct (set_x_bounds_settled lo2 hi2 0 _ v1 HclosedB HsetB)
    as (h2 & Hcall2 & Happ2 & _ & _).
  exists (h1, v1), h2, (record_bounds lo2 hi2 v1), lo2, hi2.
  split; [| split; [| split]].
  - rewrite (on_scroll_unfold up c mn mx h v r rest g gA gB); eauto.
  - rewrite (on_scroll_unfold down c lo1 hi1 h1 v1 r rest g1 g1 g1); eauto.
  - apply (bounds_applied_in lo2 hi2 (targets v1 0) _ h2 r Happ2).
    + unfold targets. cbn. rewrite Hgs1. left.
    + rewrite lookup_insert_eq. eauto.
  - unfold lo2, hi2, lo1, hi1, zoomed. cbn [button up down String.eqb Ascii.eqb Bool.eqb].
    assert (Hwidth : c + (c + (mx - mn) * (1 - 0.1) / 2 - (c - (mx - mn) * (1 - 0.1) / 2))
                         * (1 + 0.1) / 2
                     - (c - (c + (mx - mn) * (1 - 0.1) / 2 - (c - (mx - mn) * (1 - 0.1) / 2))
                            * (1 + 0.1) / 2)
                     == 0.99 * (mx - mn)) by field.
    split; [field |]. split; [field |]. split; [exact Hwidth |].
    intros Heq. rewrite Heq in Hwidth. lra.
Qed.

Lemma scroll_in_then_out_witness :
  exists s1 h2 v2 lo hi,
    GraphView._on_scroll (mkEvent (Some tt) "up" (Some 1)) (scenario_heap, scenario_view) = Ok s1 /\
    GraphView._on_scroll (mkEvent (Some tt) "down" (Some 1)) s1 = Ok (h2, v2) /\
    x_bounds h2 0%nat = Some (Some lo, Some hi) /\
    lo == 1 - 0.495 * (3 - 0) /\ hi == 1 + 0.495 * (3 - 0) /\
    hi - lo == 0.99 * (3 - 0) /\ ~ hi - lo == 3 - 0.
Proof.
  apply (scroll_in_then_out 1 0 3 scenario_heap scenario_view 0%nat []
           scenario_graph scenario_graph_read scenario_graph_read).
  - exact scenario_closed.
  - exact scenario_settled.
  - reflexivity.
  - reflexivity.
  - vm_compute. reflexivity.
  - vm_compute. reflexivity.
  - reflexivity.
  - split; [vm_compute; discriminate | vm_compute; reflexivity].
Defined.

(** * Further properties *)

(** ** Stored layer data *)

Lemma dict_get_set {V} (d : list (string * V)) (key key' : string) (v : V) :
  dict_get (Layer.dict_set d key v) key'
  = if String.eqb key key' then Some v else dict_get d key'.
Proof.
  induction d as [| [k w] d IH]; simpl.
  - destruct (String.eqb key key'); reflexivity.
  - destruct (String.eqb k key) eqn:Ek; simpl.
    + apply String.eqb_eq in Ek. subst k.
      destruct (String.eqb key key'); reflexivity.
    + rewrite IH. destruct (String.eqb key key') eqn:Ekk; [| reflexivity].
      apply String.eqb_eq in Ekk. subst key'. rewrite Ek. reflexivity.
Qed.

Lemma dict_set_keys {V} (d : list (string * V)) (key : string) (v : V) :
  map fst (Layer.dict_set d key v)
  = if decide (key ∈ map fst d) then map fst d else map fst d ++ [key].
Proof.
  induction d as [| [k w] d IH]; cbn [Layer.dict_set map fst].
  - rewrite decide_False by apply not_elem_of_nil. reflexivity.
  - destruct (String.eqb k key) eqn:Ek; cbn [map fst].
    + apply String.eqb_eq in Ek. subst k. rewrite decide_True by left. reflexivity.
    + apply String.eqb_neq in Ek. rewrite IH.
      destruct (decide (key ∈ map fst d)) as [Hin | Hout].
      * rewrite decide_True by (right; exact Hin). reflexivity.
      * rewrite decide_False; [reflexivity |].
        intros Hc. apply elem_of_cons in Hc as [-> | Hc]; [congruence | exact (Hout Hc)].
Qed.

(** X1. [add_data(key, data)] followed by [get_data] returns [data] for
    [key] and what was stored before for every other key; the keys keep
    their insertion order, a known key is overwritten in place and a new
    one is appended. *)
Theorem layer_add_get_data (key key' : string) (data : list Q) (l : Layer.t) :
  LayerOps.get_data key' (Layer.add_data key data l)
  = (if String.eqb key key' then Some data else LayerOps.get_data key' l) /\
  map fst (Layer._data (Layer.add_data key data l))
  = (if decide (key ∈ map fst (Layer._data l))
     then map fst (Layer._data l)
     else map fst (Layer._data l) ++ [key]).
Proof.
  split; [apply dict_get_set | apply dict_set_keys].
Qed.

(** ** Extents of line and bar layers *)

Lemma py_min_running (acc : option Q) (seen arr : list Q) (m : Q) :
  running_min acc seen -> is_min m arr -> running_min (py_min acc m) (seen ++ arr).
Proof.
  intros Hacc [Hin Hlb]. destruct acc as [a |]; simpl in *.
  - destruct Hacc as [Ha Halb]. destruct (Qltb m a) eqn:E.
    + apply Qltb_lt in E. split; [apply elem_of_app; right; exact Hin |].
      intros y Hy. apply elem_of_app in Hy as [Hy | Hy]; [| apply Hlb, Hy].
      apply Qle_trans with a; [apply Qlt_le_weak, E | apply Halb, Hy].
    + apply Qltb_ge in E. split; [apply elem_of_app; left; exact Ha |].
      intros y Hy. apply elem_of_app in Hy as [Hy | Hy]; [apply Halb, Hy |].
      apply Qle_trans with m; [exact E | apply Hlb, Hy].
  - subst seen. split; assumption.
Qed.

Lemma py_max_running (acc : option Q) (seen arr : list Q) (m : Q) :
  running_max acc seen -> is_max m arr -> running_max (py_max acc m) (seen ++ arr).
Proof.
  intros Hacc [Hin Hub]. destruct acc as [a |]; simpl in *.
  - destruct Hacc as [Ha Haub]. destruct (Qltb a m) eqn:E.
    + apply Qltb_lt in E. split; [apply elem_of_app; right; exact Hin |].
      intros y Hy. apply elem_of_app in Hy as [Hy | Hy]; [| apply Hub, Hy].
      apply Qle_trans with a; [apply Haub, Hy | apply Qlt_le_weak, E].
    + apply Qltb_ge in E. split; [apply elem_of_app; left; exact Ha |].
      intros y Hy. apply elem_of_app in Hy as [Hy | Hy]; [apply Haub, Hy |].
      apply Qle_trans with m; [apply Hub, Hy | exact E].
  - subst seen. split; assumption.
Qed.







Lemma running_min_some (acc : option Q) (seen : list Q) :
  running_min acc seen -> seen <> [] -> exists m, acc = Some m /\ is_min m seen.
Proof. destruct acc as [m |]; simpl; [eauto | congruence]. Qed.

Lemma running_max_some (acc : option Q) (seen : list Q) :
  running_max acc seen -> seen <> [] -> exists m, acc = Some m /\ is_max m seen.
Proof. destruct acc as [m |]; simpl; [eauto | congruence]. Qed.









(** ** Highlighting *)






Lemma quot_nonneg_iff (n d : Z) : (0 < d -> (0 <= Z.quot n d <-> - d < n))%Z.
Proof.
  intros Hd. destruct (Z.le_gt_cases 0 n) as [Hn | Hn].
  - rewrite Z.quot_div_nonneg by lia. split; [lia |]. intros _. apply Z.div_pos; lia.
  - replace n with (- (- n))%Z at 1 by lia. rewrite Z.quot_opp_l by lia.
    rewrite Z.quot_div_nonneg by lia. split.
    + intros H. assert (E : (- n / d = 0)%Z) by (pose proof (Z.div_pos (- n) d); lia).
      apply Z.div_small_iff in E; lia.
    + intros H. rewrite Z.div_small by lia. lia.
Qed.

Lemma quot_lt_iff (n d L : Z) : (0 < d -> 0 < L -> (Z.quot n d < L <-> n < L * d))%Z.
Proof.
  intros Hd HL. destruct (Z.le_gt_cases 0 n) as [Hn | Hn].
  - rewrite Z.quot_div_nonneg by lia. split.
    + intros H. apply Z.nle_gt. intros Hc.
      assert (L <= n / d)%Z by (apply Z.div_le_lower_bound; lia). lia.
    + intros H. apply Z.div_lt_upper_bound; lia.
  - split; [nia |]. intros _.
    replace n with (- (- n))%Z by lia. rewrite Z.quot_opp_l by lia.
    rewrite Z.quot_div_nonneg by lia. pose proof (Z.div_pos (- n) d). lia.
Qed.

(** [int(x)] is non-negative exactly above [-1], and below a positive
    integer exactly when [x] is. *)
Lemma py_int_nonneg (x : Q) : (0 <= py_int x)%Z <-> -1 < x.
Proof.
  unfold py_int. rewrite quot_nonneg_iff by lia. unfold Qlt. simpl. lia.
Qed.

Lemma py_int_lt (x : Q) (L : Z) : (0 < L)%Z -> (py_int x < L)%Z <-> x < inject_Z L.
Proof.
  intros HL. unfold py_int. rewrite quot_lt_iff by lia. unfold Qlt. simpl. lia.
Qed.

(** X6. At finite coordinates [SummaryLayer.highlight(x, y)] does not
    raise; it succeeds exactly when there is a label and
    [-1 < x < len(labels)], and then stores the label at index [int(x)],
    so that every negative [x] above [-1] hits the first column. *)
Theorem summary_highlight_range (labels : list string) (x y : Q) :
  exists r,
    SummaryOps.highlight labels x y = Ok r /\
    (is_Some r <-> labels <> [] /\ -1 < x /\ x < inject_Z (Z.of_nat (length labels))) /\
    (forall label, r = Some label -> labels !! Z.to_nat (py_int x) = Some label) /\
    (labels <> [] -> -1 < x -> x < 0 -> r = labels !! 0%nat).
Proof.
  unfold SummaryOps.highlight.
  destruct labels as [| l0 labels'] eqn:El.
  { exists None. split; [reflexivity |]. split; [| split; [discriminate | congruence]].
    split; [intros [? ?]; discriminate | intros [? _]; congruence]. }
  rewrite <- El.
  replace (length labels =? 0)%nat with false by (subst labels; reflexivity).
  assert (Hlen : (0 < Z.of_nat (length labels))%Z) by (subst labels; simpl; lia).
  assert (Hne : labels <> []) by (subst labels; discriminate).
  destruct (py_int x <? 0)%Z eqn:E0.
  { apply Z.ltb_lt in E0. exists None. split; [reflexivity |].
    assert (Hx : ~ -1 < x) by (rewrite <- py_int_nonneg; lia).
    split; [| split; [discriminate | intros _ H; contradiction]].
    split; [intros [? ?]; discriminate | intros (_ & H & _); contradiction]. }
  apply Z.ltb_ge in E0. cbn [orb].
  destruct (Z.of_nat (length labels) <=? py_int x)%Z eqn:E1.
  { apply Z.leb_le in E1. exists None. split; [reflexivity |].
    assert (Hx : ~ x < inject_Z (Z.of_nat (length labels)))
      by (rewrite <- py_int_lt by exact Hlen; lia).
    split; [| split; [discriminate |]].
    - split; [intros [? ?]; discriminate | intros (_ & _ & H); contradiction].
    - intros _ H1 H2. exfalso. apply Hx. apply Qlt_trans with 0; [exact H2 |].
      unfold Qlt. simpl. lia. }
  apply Z.leb_gt in E1.
  destruct (labels !! Z.to_nat (py_int x)) as [label |] eqn:Elab.
  2: { apply lookup_ge_None in Elab. lia. }
  exists (Some label). split; [reflexivity |]. split; [| split].
  - split; [| eauto]. intros _. split; [exact Hne |].
    split; [apply py_int_nonneg; exact E0 | apply py_int_lt; assumption].
  - intros label' [= <-]. reflexivity.
  - intros _ H1 H2. rewrite <- Elab. f_equal.
    assert (py_int x < 1)%Z
      by (apply py_int_lt; [lia |]; apply Qlt_trans with 0; [exact H2 | reflexivity]).
    lia.
Qed.

(** ** [Graph.reset_bounds] *)

Lemma is_min_singleton (v : Q) : is_min v [v].
Proof.
  split; [left |]. intros y Hy. apply list_elem_of_singleton in Hy. subst. apply Qle_refl.
Qed.

Lemma is_max_singleton (v : Q) : is_max v [v].
Proof.
  split; [left |]. intros y Hy. apply list_elem_of_singleton in Hy. subst. apply Qle_refl.
Qed.

(** One turn of the loop, seen as four running extrema. *)
Lemma widen_visible (g : Graph.t) (l : Layer.t) (a b c d : Q) :
  Layer.visible l = true -> has_extent l a b c d ->
  exists g',
    Graph.widen g l = Ok g' /\
    Graph._min_x g' = py_min (Graph._min_x g) a /\
    Graph._max_x g' = py_max (Graph._max_x g) b /\
    Graph._min_y g' = py_min (Graph._min_y g) c /\
    Graph._max_y g' = py_max (Graph._max_y g) d /\
    Graph.with_bounds None None None None g' = Graph.with_bounds None None None None g.
Proof.
  intros Hvis (Ha & Hb & Hc & Hd). unfold Graph.widen.
  rewrite Hvis, Ha, Hb, Hc, Hd. cbn [negb bind].
  eexists. split; [reflexivity |].
  destruct (Graph._min_x g), (Graph._max_x g), (Graph._min_y g), (Graph._max_y g);
    repeat split.
Qed.

Lemma widen_hidden (g : Graph.t) (l : Layer.t) :
  Layer.visible l = false -> Graph.widen g l = Ok g.
Proof. intros H. unfold Graph.widen. rewrite H. reflexivity. Qed.

Lemma layer_has_extent (l : Layer.t) : exists a b c d, has_extent l a b c d.
Proof.
  destruct (layer_min_x_ok l) as [a Ha], (layer_max_x_ok l) as [b Hb],
           (layer_min_y_ok l) as [c Hc], (layer_max_y_ok l) as [d Hd].
  exists a, b, c, d. repeat split; assumption.
Qed.

Lemma visible_values_nil (f : Layer.t -> result Q) : visible_values f [] = [].
Proof. reflexivity. Qed.

Lemma visible_values_cons (f : Layer.t -> result Q) (l : Layer.t) (ls : list Layer.t) :
  visible_values f (l :: ls)
  = if Layer.visible l
    then match f l with
         | Ok v => v :: visible_values f ls
         | Raise _ => visible_values f ls
         end
    else visible_values f ls.
Proof.
  unfold visible_values. simpl. destruct (Layer.visible l); [| reflexivity].
  destruct (f l); reflexivity.
Qed.

(** The loop of [reset_bounds]: each bound is the running extremum of the
    visible layers' values, and nothing but the bounds changes. *)
Lemma widen_loop (ls : list Layer.t) :
  forall g sa sb sc sd,
    running_min (Graph._min_x g) sa -> running_max (Graph._max_x g) sb ->
    running_min (Graph._min_y g) sc -> running_max (Graph._max_y g) sd ->
    exists g',
      for_each Graph.widen ls g = Ok g' /\
      running_min (Graph._min_x g') (sa ++ visible_values layer_min_x ls) /\
      running_max (Graph._max_x g') (sb ++ visible_values layer_max_x ls) /\
      running_min (Graph._min_y g') (sc ++ visible_values layer_min_y ls) /\
      running_max (Graph._max_y g') (sd ++ visible_values layer_max_y ls) /\
      Graph.with_bounds None None None None g' = Graph.with_bounds None None None None g.
Proof.
  induction ls as [| l ls IH]; intros g sa sb sc sd Ha Hb Hc Hd; cbn [for_each].
  - exists g. rewrite !visible_values_nil, !app_nil_r. auto 10.
  - destruct (Layer.visible l) eqn:Hvis.
    + destruct (layer_has_extent l) as (a & b & c & d & Hext).
      destruct (widen_visible g l a b c d Hvis Hext)
        as (g1 & -> & Ea & Eb & Ec & Ed & Hbase).
      cbn [bind].
      destruct (IH g1 (sa ++ [a]) (sb ++ [b]) (sc ++ [c]) (sd ++ [d]))
        as (g' & -> & Ha' & Hb' & Hc' & Hd' & Hbase').
      * rewrite Ea. apply py_min_running; [exact Ha | apply is_min_singleton].
      * rewrite Eb. apply py_max_running; [exact Hb | apply is_max_singleton].
      * rewrite Ec. apply py_min_running; [exact Hc | apply is_min_singleton].
      * rewrite Ed. apply py_max_running; [exact Hd | apply is_max_singleton].
      * exists g'. split; [reflexivity |].
        destruct Hext as (Ha0 & Hb0 & Hc0 & Hd0).
        rewrite !visible_values_cons, Hvis, Ha0, Hb0, Hc0, Hd0.
        rewrite <- !app_assoc in Ha', Hb', Hc', Hd'.
        split; [exact Ha' |]. split; [exact Hb' |]. split; [exact Hc' |].
        split; [exact Hd' |]. rewrite Hbase'. exact Hbase.
    + rewrite (widen_hidden g l Hvis). cbn [bind].
      destruct (IH g sa sb sc sd Ha Hb Hc Hd) as (g' & -> & H').
      exists g'. split; [reflexivity |].
      rewrite !visible_values_cons, Hvis. exact H'.
Qed.

Lemma reset_bounds_spec (g : Graph.t) :
  exists raw,
    Graph.reset_bounds g = Ok (Graph.finish_bounds raw) /\
    running_min (Graph._min_x raw) (visible_values layer_min_x (Graph.layers g)) /\
    running_max (Graph._max_x raw) (visible_values layer_max_x (Graph.layers g)) /\
    running_min (Graph._min_y raw) (visible_values layer_min_y (Graph.layers g)) /\
    running_max (Graph._max_y raw) (visible_values layer_max_y (Graph.layers g)) /\
    Graph.with_bounds None None None None raw = Graph.with_bounds None None None None g.
Proof.
  unfold Graph.reset_bounds.
  destruct (widen_loop (Graph.layers g) (Graph.with_bounds None None None None g) [] [] [] []
              eq_refl eq_refl eq_refl eq_refl) as (raw & E & Ha & Hb & Hc & Hd & Hbase).
  change (Graph.layers (Graph.with_bounds None None None None g)) with (Graph.layers g).
  rewrite E. cbn [bind]. exists raw. auto 10.
Qed.

(** X7. [reset_bounds] depends on the layers alone: whatever bounds were
    cached or set before, the result is the same, and a second call
    changes nothing. *)
Theorem reset_bounds_idempotent (g : Graph.t) :
  exists g1,
    Graph.reset_bounds g = Ok g1 /\
    Graph.reset_bounds g1 = Ok g1 /\
    forall a b c d, Graph.reset_bounds (Graph.with_bounds a b c d g) = Ok g1.
Proof.
  destruct (reset_bounds_spec g) as (raw & E & _ & _ & _ & _ & Hbase).
  exists (Graph.finish_bounds raw). split; [exact E |]. split; [| intros; exact E].
  rewrite <- E. unfold Graph.reset_bounds.
  change (Graph.with_bounds None None None None (Graph.finish_bounds raw))
    with (Graph.with_bounds None None None None raw).
  change (Graph.layers (Graph.finish_bounds raw))
    with (Graph.layers (Graph.with_bounds None None None None raw)).
  rewrite Hbase. reflexivity.
Qed.

Lemma visible_values_in (f : Layer.t -> result Q) (ls : list Layer.t) (l : Layer.t) (v : Q) :
  l ∈ ls -> Layer.visible l = true -> f l = Ok v -> v ∈ visible_values f ls.
Proof.
  intros Hin Hvis Hf. induction ls as [| l' ls IH]; [inversion Hin |].
  rewrite visible_values_cons. apply elem_of_cons in Hin as [<- | Hin].
  - rewrite Hvis, Hf. left.
  - specialize (IH Hin). destruct (Layer.visible l'); [| exact IH].
    destruct (f l'); [right |]; exact IH.
Qed.

Lemma visible_values_from (f : Layer.t -> result Q) (ls : list Layer.t) (v : Q) :
  v ∈ visible_values f ls -> exists l, l ∈ ls /\ Layer.visible l = true /\ f l = Ok v.
Proof.
  induction ls as [| l' ls IH]; [intros H; inversion H |].
  rewrite visible_values_cons. intros H.
  assert (Hrest : v ∈ visible_values f ls ->
                  exists l, l ∈ l' :: ls /\ Layer.visible l = true /\ f l = Ok v).
  { intros Hv. destruct (IH Hv) as (l & Hl & Hr). exists l. split; [right; exact Hl | exact Hr]. }
  destruct (Layer.visible l') eqn:Hvis; [| auto].
  destruct (f l') as [v' | e] eqn:Hf; [| auto].
  apply elem_of_cons in H as [-> | H]; [| auto].
  exists l'. split; [left | auto].
Qed.

(** The bounds [reset_bounds] leaves when some visible layer reports an
    ordered extent. *)
Lemma reset_bounds_enclose (g : Graph.t) (l0 : Layer.t) (a0 b0 c0 d0 : Q) :
  visible_layer g l0 -> has_extent l0 a0 b0 c0 d0 -> a0 <= b0 -> c0 <= d0 ->
  exists g' lo hi ylo yhi,
    Graph.reset_bounds g = Ok g' /\
    bounds g' = (Some lo, Some hi, Some ylo, Some yhi) /\
    lo <= hi /\ ylo < yhi /\
    (forall l a b c d, visible_layer g l -> has_extent l a b c d ->
                       lo <= a /\ b <= hi /\ ylo < c /\ d < yhi) /\
    (exists l, visible_layer g l /\ layer_min_x l = Ok lo) /\
    (exists l, visible_layer g l /\ layer_max_x l = Ok hi).
Proof.
  intros [Hin0 Hvis0] (Ea0 & Eb0 & Ec0 & Ed0) Hab Hcd.
  destruct (reset_bounds_spec g) as (raw & E & Ha & Hb & Hc & Hd & _).
  pose proof (visible_values_in _ _ _ _ Hin0 Hvis0 Ea0) as Ia.
  pose proof (visible_values_in _ _ _ _ Hin0 Hvis0 Eb0) as Ib.
  pose proof (visible_values_in _ _ _ _ Hin0 Hvis0 Ec0) as Ic.
  pose proof (visible_values_in _ _ _ _ Hin0 Hvis0 Ed0) as Id.
  destruct (running_min_some _ _ Ha) as (lo & Elo & Hlo); [intros N; rewrite N in Ia; inversion Ia |].
  destruct (running_max_some _ _ Hb) as (hi & Ehi & Hhi); [intros N; rewrite N in Ib; inversion Ib |].
  destruct (running_min_some _ _ Hc) as (yl & Eyl & Hyl); [intros N; rewrite N in Ic; inversion Ic |].
  destruct (running_max_some _ _ Hd) as (yh & Eyh & Hyh); [intros N; rewrite N in Id; inversion Id |].
  set (r := if Qeq_bool (yh - yl) 0 then 1 else yh - yl).
  assert (Hyl0 : yl <= c0) by (apply Hyl, Ic).
  assert (Hyh0 : d0 <= yh) by (apply Hyh, Id).
  assert (Hr : 0 < r).
  { unfold r. destruct (Qeq_bool (yh - yl) 0) eqn:Er; [reflexivity |].
    apply Qeq_bool_neq in Er. lra. }
  exists (Graph.finish_bounds raw), lo, hi, (yl - r * 0.05), (yh + r * 0.05).
  split; [exact E |]. split.
  { unfold bounds, Graph.finish_bounds. cbn. rewrite Elo, Ehi, Eyl, Eyh. reflexivity. }
  split; [apply Qle_trans with a0; [apply Hlo, Ia | apply Qle_trans with b0; [exact Hab | apply Hhi, Ib]] |].
  split; [lra |]. split; [| split].
  - intros l a b c d [Hin Hvis] (Ea & Eb & Ec & Ed).
    pose proof (proj2 Hlo a (visible_values_in _ _ _ _ Hin Hvis Ea)).
    pose proof (proj2 Hhi b (visible_values_in _ _ _ _ Hin Hvis Eb)).
    pose proof (proj2 Hyl c (visible_values_in _ _ _ _ Hin Hvis Ec)).
    pose proof (proj2 Hyh d (visible_values_in _ _ _ _ Hin Hvis Ed)).
    repeat split; lra.
  - destruct (visible_values_from _ _ _ (proj1 Hlo)) as (l & Hl & Hv & Hf).
    exists l. split; [split; assumption | exact Hf].
  - destruct (visible_values_from _ _ _ (proj1 Hhi)) as (l & Hl & Hv & Hf).
    exists l. split; [split; assumption | exact Hf].
Qed.

(** X8. When a visible layer reports an ordered extent and the y range
    is subtracted without wrap-around, [reset_bounds] leaves
    [min_x <= max_x] and [min_y < max_y]; the x bounds are attained by
    visible layers and enclose every visible layer's x extent, and every
    visible layer's y extent lies strictly inside the y bounds. *)
Theorem reset_bounds_encloses_visible (g : Graph.t) (l0 : Layer.t) (a0 b0 c0 d0 : Q) :
  visible_layer g l0 -> has_extent l0 a0 b0 c0 d0 -> a0 <= b0 -> c0 <= d0 ->
  y_range_exact g ->
  exists g' lo hi ylo yhi,
    Graph.reset_bounds g = Ok g' /\
    bounds g' = (Some lo, Some hi, Some ylo, Some yhi) /\
    lo <= hi /\ ylo < yhi /\
    (forall l a b c d, visible_layer g l -> has_extent l a b c d ->
                       lo <= a /\ b <= hi /\ ylo < c /\ d < yhi) /\
    (exists l, visible_layer g l /\ layer_min_x l = Ok lo) /\
    (exists l, visible_layer g l /\ layer_max_x l = Ok hi).
Proof.
  intros Hvis Hext Hx Hy _. exact (reset_bounds_enclose g l0 a0 b0 c0 d0 Hvis Hext Hx Hy).
Qed.

Lemma scenario_line_visible : visible_layer scenario_graph (Layer.set_order 10 scenario_line).
Proof. split; [left | reflexivity]. Qed.

Lemma scenario_y_range_exact : y_range_exact scenario_graph.
Proof.
  assert (Hl : forall l, visible_layer scenario_graph l -> l = Layer.set_order 10 scenario_line).
  { intros l [Hin _]. apply list_elem_of_singleton. exact Hin. }
  intros l l' c d H H' Hc Hd. rewrite (Hl l H) in Hc. rewrite (Hl l' H') in Hd.
  injection Hc as <-. injection Hd as <-.
  split; [vm_compute; discriminate | vm_compute; reflexivity].
Qed.

Lemma reset_bounds_encloses_visible_witness :
  exists g' lo hi ylo yhi,
    Graph.reset_bounds scenario_graph = Ok g' /\
    bounds g' = (Some lo, Some hi, Some ylo, Some yhi) /\
    lo <= hi /\ ylo < yhi /\
    (forall l a b c d, visible_layer scenario_graph l -> has_extent l a b c d ->
                       lo <= a /\ b <= hi /\ ylo < c /\ d < yhi) /\
    (exists l, visible_layer scenario_graph l /\ layer_min_x l = Ok lo) /\
    (exists l, visible_layer scenario_graph l /\ layer_max_x l = Ok hi).
Proof.
  apply (reset_bounds_encloses_visible scenario_graph (Layer.set_order 10 scenario_line) 0 3 0 5).
  - exact scenario_line_visible.
  - repeat split.
  - discriminate.
  - discriminate.
  - exact scenario_y_range_exact.
Defined.

(** X9. With a visible layer of the base class in the graph (an axis
    layer, as every [LineGraph], [BarGraph] and [SummaryGraph] has two),
    and the y range subtracted without wrap-around, the bounds after
    [reset_bounds] contain the origin wherever the data lies:
    [min_x <= 0 <= max_x] and [min_y < 0 < max_y]. *)
Theorem reset_bounds_axis_layer_origin (g : Graph.t) (axis : Layer.t) :
  visible_layer g axis -> Layer.kind axis = BaseLayer -> y_range_exact g ->
  exists g' lo hi ylo yhi,
    Graph.reset_bounds g = Ok g' /\
    bounds g' = (Some lo, Some hi, Some ylo, Some yhi) /\
    lo <= 0 /\ 0 <= hi /\ ylo < 0 /\ 0 < yhi.
Proof.
  intros Hvis Hk _.
  assert (Hext : has_extent axis 0 0 0 0).
  { unfold has_extent, layer_min_x, layer_max_x, layer_min_y, layer_max_y.
    rewrite Hk. repeat split. }
  destruct (reset_bounds_enclose g axis 0 0 0 0 Hvis Hext (Qle_refl 0) (Qle_refl 0))
    as (g' & lo & hi & ylo & yhi & E & Eb & _ & _ & Henc & _).
  exists g', lo, hi, ylo, yhi. split; [exact E |]. split; [exact Eb |].
  apply (Henc axis 0 0 0 0 Hvis Hext).
Qed.

Lemma graph_with_axes_layers (main : LayerKind) (n ttl u : string) (mh : Z) :
  Graph.layers (graph_with_axes main n ttl u mh)
  = [Layer.set_order 1 (Layer.init (n ++ "_x_axis") BaseLayer);
     Layer.set_order 1 (Layer.init (n ++ "_y_axis") BaseLayer);
     Layer.set_order 10 (Layer.init (n ++ "_main_layer") main)].
Proof. reflexivity. Qed.

Lemma reset_bounds_axis_layer_origin_witness :
  exists g' lo hi ylo yhi,
    Graph.reset_bounds (LineGraph.init "g" "" "" 100) = Ok g' /\
    bounds g' = (Some lo, Some hi, Some ylo, Some yhi) /\
    lo <= 0 /\ 0 <= hi /\ ylo < 0 /\ 0 < yhi.
Proof.
  apply (reset_bounds_axis_layer_origin (LineGraph.init "g" "" "" 100)
           (Layer.set_order 1 (Layer.init "g_x_axis" BaseLayer))).
  - split; [left | reflexivity].
  - reflexivity.
  - intros l l' c d [Hl _] [Hl' _] Hc Hd.
    unfold LineGraph.init in Hl, Hl'. rewrite graph_with_axes_layers in Hl, Hl'.
    repeat (apply elem_of_cons in Hl as [-> | Hl]); [| | | inversion Hl];
      repeat (apply elem_of_cons in Hl' as [-> | Hl']); try (inversion Hl'; fail);
      injection Hc as <-; injection Hd as <-;
      (split; [vm_compute; discriminate | vm_compute; reflexivity]).
Defined.

(** Hidden layers take no part in the loop. *)
Lemma widen_loop_filter (ls : list Layer.t) :
  forall g, for_each Graph.widen ls g = for_each Graph.widen (List.filter Layer.visible ls) g.
Proof.
  induction ls as [| l ls IH]; intros g; [reflexivity |].
  cbn [List.filter for_each]. destruct (Layer.visible l) eqn:Hvis.
  - cbn [for_each]. destruct (Graph.widen g l); [apply IH | reflexivity].
  - rewrite (widen_hidden g l Hvis). cbn [bind]. apply IH.
Qed.

(** The loop reads the bounds of the graph and nothing else of it. *)
Lemma widen_loop_bounds (ls : list Layer.t) :
  forall g g', bounds g = bounds g' ->
    exists r r', for_each Graph.widen ls g = Ok r /\ for_each Graph.widen ls g' = Ok r' /\
                 bounds r = bounds r'.
Proof.
  induction ls as [| l ls IH]; intros g g' Hb; cbn [for_each].
  - exists g, g'. auto.
  - destruct (Layer.visible l) eqn:Hvis.
    + destruct (layer_has_extent l) as (a & b & c & d & Hext).
      destruct (widen_visible g l a b c d Hvis Hext) as (g1 & -> & Ea & Eb & Ec & Ed & _).
      destruct (widen_visible g' l a b c d Hvis Hext) as (g1' & -> & Ea' & Eb' & Ec' & Ed' & _).
      cbn [bind]. apply IH. unfold bounds in *. injection Hb as H1 H2 H3 H4.
      rewrite Ea, Eb, Ec, Ed, Ea', Eb', Ec', Ed', H1, H2, H3, H4. reflexivity.
    + rewrite !(widen_hidden _ l Hvis). cbn [bind]. apply IH, Hb.
Qed.

Lemma finish_bounds_bounds (g g' : Graph.t) :
  bounds g = bounds g' -> bounds (Graph.finish_bounds g) = bounds (Graph.finish_bounds g').
Proof.
  unfold bounds. intros [= H1 H2 H3 H4]. unfold Graph.finish_bounds. cbn.
  rewrite H1, H2, H3, H4. reflexivity.
Qed.

(** X10. [reset_bounds] skips hidden layers entirely: two layer lists
    with the same visible layers in the same order give the same four
    bounds. *)
Theorem reset_bounds_ignores_hidden (g : Graph.t) (ls : list Layer.t)
    (by_name : gmap string Layer.t) :
  List.filter Layer.visible ls = List.filter Layer.visible (Graph.layers g) ->
  exists g1 g2,
    Graph.reset_bounds g = Ok g1 /\
    Graph.reset_bounds (Graph.with_layers ls by_name g) = Ok g2 /\
    bounds g2 = bounds g1.
Proof.
  intros Hf. unfold Graph.reset_bounds.
  change (Graph.layers (Graph.with_layers ls by_name g)) with ls.
  rewrite (widen_loop_filter ls), (widen_loop_filter (Graph.layers g)), Hf.
  destruct (widen_loop_bounds (List.filter Layer.visible (Graph.layers g))
              (Graph.with_bounds None None None None g)
              (Graph.with_bounds None None None None (Graph.with_layers ls by_name g))
              eq_refl) as (r & r' & -> & -> & Hb).
  cbn [bind]. do 2 eexists. split; [reflexivity |]. split; [reflexivity |].
  apply finish_bounds_bounds. symmetry. exact Hb.
Qed.

Lemma reset_bounds_ignores_hidden_witness :
  let hidden := Layer.set_visible false (Layer.init "aux" BarLayer.init) in
  exists g1 g2,
    Graph.reset_bounds scenario_graph = Ok g1 /\
    Graph.reset_bounds
      (Graph.with_layers (hidden :: Graph.layers scenario_graph) ∅ scenario_graph) = Ok g2 /\
    bounds g2 = bounds g1.
Proof.
  apply (reset_bounds_ignores_hidden scenario_graph
           (Layer.set_visible false (Layer.init "aux" BarLayer.init)
              :: Graph.layers scenario_graph) ∅).
  reflexivity.
Defined.

(** X11. With exactly one visible layer, whose height [max_y - min_y] is
    subtracted without wrap-around, [reset_bounds] takes that layer's x
    extent as it is and widens its y extent by 5% of its height on each
    side, the height counting as 1 when the extent is flat. *)
Theorem reset_bounds_single_visible (g : Graph.t) (l : Layer.t) (a b c d : Q) :
  List.filter Layer.visible (Graph.layers g) = [l] ->
  has_extent l a b c d -> int64_range (d - c) ->
  let height := if Qeq_bool (d - c) 0 then 1 else d - c in
  exists g',
    Graph.reset_bounds g = Ok g' /\
    bounds g' = (Some a, Some b, Some (c - height * 0.05), Some (d + height * 0.05)).
Proof.
  intros Hf Hext _ height. unfold Graph.reset_bounds.
  rewrite (widen_loop_filter (Graph.layers g)), Hf. cbn [for_each].
  assert (Hvis : Layer.visible l = true).
  { assert (Hin : In l (List.filter Layer.visible (Graph.layers g))) by (rewrite Hf; left; reflexivity).
    apply filter_In in Hin. apply Hin. }
  destruct (widen_visible (Graph.with_bounds None None None None g) l a b c d Hvis Hext)
    as (g1 & -> & Ea & Eb & Ec & Ed & _).
  cbn [bind]. eexists. split; [reflexivity |].
  unfold bounds, Graph.finish_bounds. cbn. rewrite Ea, Eb, Ec, Ed. reflexivity.
Qed.

Lemma reset_bounds_single_visible_witness :
  let height := if Qeq_bool (5 - 0) 0 then 1 else 5 - 0 in
  exists g',
    Graph.reset_bounds scenario_graph = Ok g' /\
    bounds g' = (Some 0, Some 3, Some (0 - height * 0.05), Some (5 + height * 0.05)).
Proof.
  apply (reset_bounds_single_visible scenario_graph (Layer.set_order 10 scenario_line) 0 3 0 5).
  - reflexivity.
  - repeat split.
  - split; [vm_compute; discriminate | vm_compute; reflexivity].
Defined.

(** ** Cached bounds *)

(** X12. Once all four bounds are computed or set, reads and [render]
    return them and leave the graph alone, whatever happens to the
    layers: only [reset_bounds] recomputes them. *)
Theorem resolved_bounds_are_kept (g : Graph.t) (ls : list Layer.t)
    (by_name : gmap string Layer.t) :
  resolved g ->
  let g' := Graph.with_layers ls by_name g in
  Graph.min_x g' = Ok (Graph._min_x g, g') /\ Graph.max_x g' = Ok (Graph._max_x g, g') /\
  Graph.min_y g' = Ok (Graph._min_y g, g') /\ Graph.max_y g' = Ok (Graph._max_y g, g') /\
  Graph.render g' = Ok g'.
Proof.
  intros Hres g'.
  assert (Hres' : resolved g') by exact Hres.
  pose proof Hres' as (H1 & H2 & H3 & H4).
  split; [apply (min_x_some g' H1) |]. split; [apply (max_x_some g' H2) |].
  split; [apply (min_y_some g' H3) |]. split; [apply (max_y_some g' H4) |].
  apply render_resolved, Hres'.
Qed.

Lemma resolved_bounds_are_kept_witness :
  let g := Graph.set_y_bounds 0 1 (Graph.set_x_bounds 1 2 (Graph.init "g" "" "" 100)) in
  let g' := Graph.with_layers (Graph.layers scenario_graph) ∅ g in
  Graph.min_x g' = Ok (Graph._min_x g, g') /\ Graph.max_x g' = Ok (Graph._max_x g, g') /\
  Graph.min_y g' = Ok (Graph._min_y g, g') /\ Graph.max_y g' = Ok (Graph._max_y g, g') /\
  Graph.render g' = Ok g'.
Proof.
  apply (resolved_bounds_are_kept
           (Graph.set_y_bounds 0 1 (Graph.set_x_bounds 1 2 (Graph.init "g" "" "" 100)))
           (Graph.layers scenario_graph) ∅).
  repeat split; eexists; reflexivity.
Defined.

(** ** The layer list *)

Lemma insert_sorted_split (l : Layer.t) (ls : list Layer.t) :
  layers_sorted ls ->
  exists pre post,
    ls = pre ++ post /\ Graph.insert_sorted l ls = pre ++ l :: post /\
    Forall (fun l' => (Layer.order l' <= Layer.order l)%Z) pre /\
    Forall (fun l' => (Layer.order l < Layer.order l')%Z) post.
Proof.
  intros Hs. induction Hs as [| a ls Hs IH Ha]; cbn [Graph.insert_sorted].
  - exists [], []. repeat split; constructor.
  - destruct (Layer.order l <? Layer.order a)%Z eqn:E.
    + apply Z.ltb_lt in E. exists [], (a :: ls). repeat split; [constructor |].
      constructor; [exact E |]. eapply Forall_impl; [exact Ha |]. simpl. intros; lia.
    + apply Z.ltb_ge in E. destruct IH as (pre & post & -> & -> & Hpre & Hpost).
      exists (a :: pre), post. repeat split; [constructor; assumption | exact Hpost].
Qed.

Lemma insert_sorted_sorted (l : Layer.t) (ls : list Layer.t) :
  layers_sorted ls -> layers_sorted (Graph.insert_sorted l ls).
Proof.
  intros Hs. induction Hs as [| a ls Hs IH Ha]; cbn [Graph.insert_sorted].
  - repeat constructor.
  - destruct (Layer.order l <? Layer.order a)%Z eqn:E.
    + apply Z.ltb_lt in E. constructor; [constructor; assumption |].
      constructor; [lia |]. eapply Forall_impl; [exact Ha |]. simpl. intros; lia.
    + apply Z.ltb_ge in E. constructor; [exact IH |].
      destruct (insert_sorted_split l ls Hs) as (pre & post & -> & -> & _ & _).
      apply Forall_app in Ha as [Hpre Hpost]. apply Forall_app. split; [exact Hpre |].
      constructor; [exact E | exact Hpost].
Qed.

Lemma insert_front_head (a : Layer.t) (ls : list Layer.t) :
  Forall (fun l' => (Layer.order a <= Layer.order l')%Z) ls ->
  GraphOps.insert_front a ls = a :: ls.
Proof.
  destruct ls as [| b ls]; [reflexivity |]. intros H. apply Forall_cons in H as [Hb _].
  cbn [GraphOps.insert_front].
  replace (Layer.order b <? Layer.order a)%Z with false by (symmetry; apply Z.ltb_ge; lia).
  reflexivity.
Qed.

(** On a sorted list Python's append-then-sort puts the new layer where
    [insert_sorted] puts it. *)
Lemma sort_append_sorted (l : Layer.t) (ls : list Layer.t) :
  layers_sorted ls -> GraphOps.sort_by_order (ls ++ [l]) = Graph.insert_sorted l ls.
Proof.
  intros Hs. induction Hs as [| a ls Hs IH Ha]; [reflexivity |].
  unfold GraphOps.sort_by_order in *. cbn [app foldr Graph.insert_sorted]. rewrite IH.
  destruct (insert_sorted_split l ls Hs) as (pre & post & -> & -> & Hpre & Hpost).
  destruct (Layer.order l <? Layer.order a)%Z eqn:E.
  - apply Z.ltb_lt in E.
    assert (pre = []) as ->.
    { destruct pre as [| p pre]; [reflexivity |]. exfalso.
      apply Forall_cons in Hpre as [Hp _]. apply Forall_cons in Ha as [Hap _]. lia. }
    cbn [app GraphOps.insert_front].
    replace (Layer.order l <? Layer.order a)%Z with true by (symmetry; apply Z.ltb_lt; exact E).
    f_equal. apply insert_front_head. exact Ha.
  - apply Z.ltb_ge in E. apply insert_front_head.
    apply Forall_app in Ha as [Hapre Hapost]. apply Forall_app. split; [exact Hapre |].
    constructor; [exact E | exact Hapost].
Qed.

(** X13. On a graph whose layers are in ascending order, [add_layer]
    (append, then a stable sort) keeps them so: the earlier layers stay
    in their relative order, and the new layer goes behind every layer
    of the same or a smaller order and before every layer of a greater
    one. *)
Theorem add_layer_keeps_order (layer : Layer.t) (o : Z) (g : Graph.t) :
  layers_sorted (Graph.layers g) ->
  Graph.add_layer layer o g = GraphOps.add_layer_by_sort layer o g /\
  layers_sorted (Graph.layers (Graph.add_layer layer o g)) /\
  exists pre post,
    Graph.layers g = pre ++ post /\
    Graph.layers (Graph.add_layer layer o g) = pre ++ Layer.set_order o layer :: post /\
    Forall (fun l' => (Layer.order l' <= o)%Z) pre /\
    Forall (fun l' => (o < Layer.order l')%Z) post.
Proof.
  intros Hs. split; [| split].
  - unfold Graph.add_layer, GraphOps.add_layer_by_sort. cbv zeta.
    rewrite (sort_append_sorted _ _ Hs). reflexivity.
  - apply insert_sorted_sorted, Hs.
  - apply (insert_sorted_split (Layer.set_order o layer) _ Hs).
Qed.

Lemma add_layer_keeps_order_witness :
  let g := LineGraph.init "g" "" "" 100 in
  let layer := Layer.init "extra" LineLayer.init in
  Graph.add_layer layer 1 g = GraphOps.add_layer_by_sort layer 1 g /\
  layers_sorted (Graph.layers (Graph.add_layer layer 1 g)) /\
  exists pre post,
    Graph.layers g = pre ++ post /\
    Graph.layers (Graph.add_layer layer 1 g) = pre ++ Layer.set_order 1 layer :: post /\
    Forall (fun l' => (Layer.order l' <= 1)%Z) pre /\
    Forall (fun l' => (1 < Layer.order l')%Z) post.
Proof.
  apply (add_layer_keeps_order (Layer.init "extra" LineLayer.init) 1
           (LineGraph.init "g" "" "" 100)).
  unfold LineGraph.init. rewrite graph_with_axes_layers. unfold layers_sorted.
  repeat constructor; simpl; lia.
Defined.

(** ** Selection *)

Lemma existsb_map_false {A B} (f : A -> B) (p : B -> bool) (ls : list A) :
  (forall a, p (f a) = false) -> existsb p (map f ls) = false.
Proof.
  intros H. induction ls as [| a ls IH]; [reflexivity |].
  cbn [map existsb]. rewrite H, IH. reflexivity.
Qed.

(** X14. After [Graph.deselect()] no layer is selected or highlighted, so
    [is_selected()] is false; the bounds, the emptiness test and every
    layer's extent are as before. *)
Theorem graph_deselect_clears (g : Graph.t) :
  GraphOps.is_selected (GraphOps.deselect g) = false /\
  bounds (GraphOps.deselect g) = bounds g /\
  Graph.is_empty (GraphOps.deselect g) = Graph.is_empty g /\
  Graph.reset_bounds (GraphOps.deselect g)
  = (do g' <- Graph.reset_bounds g; Ok (GraphOps.deselect g')).
Proof.
  split; [| split; [| split]].
  - unfold GraphOps.is_selected, GraphOps.deselect.
    change (Graph.layers (Graph.with_layers ?ls _ _)) with ls.
    apply existsb_map_false. reflexivity.
  - reflexivity.
  - unfold Graph.is_empty, GraphOps.deselect.
    change (Graph.layers (Graph.with_layers ?ls _ _)) with ls.
    induction (Graph.layers g) as [| l ls IH]; [reflexivity |].
    cbn [map forallb]. rewrite IH. reflexivity.
  - unfold Graph.reset_bounds, GraphOps.deselect.
    change (Graph.layers (Graph.with_layers ?ls _ _)) with ls.
    set (clear := fun l => LayerOps.unhighlight (LayerOps.deselect l)).
    set (lift := fun s : Graph.t =>
                   Graph.with_layers (map clear (Graph.layers g))
                                     (clear <$> Graph._layers_by_name g) s).
    assert (Hloop : forall ls s,
              for_each Graph.widen (map clear ls) (lift s)
              = (do s' <- for_each Graph.widen ls s; Ok (lift s'))).
    { induction ls as [| l ls IH]; intros s; [reflexivity |].
      cbn [map for_each].
      assert (Hstep : Graph.widen (lift s) (clear l)
                      = (do s' <- Graph.widen s l; Ok (lift s'))).
      { unfold Graph.widen.
        change (Layer.visible (clear l)) with (Layer.visible l).
        change (layer_min_x (clear l)) with (layer_min_x l).
        change (layer_max_x (clear l)) with (layer_max_x l).
        change (layer_min_y (clear l)) with (layer_min_y l).
        change (layer_max_y (clear l)) with (layer_max_y l).
        destruct (Layer.visible l); [| reflexivity]. cbn [negb].
        destruct (layer_min_x l); [| reflexivity]. cbn [bind].
        destruct (layer_max_x l); [| reflexivity]. cbn [bind].
        destruct (layer_min_y l); [| reflexivity]. cbn [bind].
        destruct (layer_max_y l); reflexivity. }
      rewrite Hstep. destruct (Graph.widen s l); [| reflexivity]. cbn [bind]. apply IH. }
    change (Graph.with_bounds None None None None
              (Graph.with_layers (map clear (Graph.layers g))
                                 (clear <$> Graph._layers_by_name g) g))
      with (lift (Graph.with_bounds None None None None g)).
    rewrite Hloop.
    destruct (widen_loop (Graph.layers g) (Graph.with_bounds None None None None g) [] [] [] []
                eq_refl eq_refl eq_refl eq_refl) as (raw & E & _ & _ & _ & _ & Hbase).
    change (Graph.layers (Graph.with_bounds None None None None g)) with (Graph.layers g) in E.
    rewrite E. cbn [bind]. f_equal. unfold lift.
    assert (Hl : Graph.layers raw = Graph.layers g)
      by exact (f_equal Graph.layers Hbase).
    assert (Hn : Graph._layers_by_name raw = Graph._layers_by_name g)
      by exact (f_equal Graph._layers_by_name Hbase).
    unfold Graph.finish_bounds, Graph.with_layers, Graph.with_bounds. cbn.
    rewrite Hl, Hn. reflexivity.
Qed.

(** ** Graphs of a view: lookup and removal *)

Lemma list_remove_split (x : loc) (l : list loc) :
  x ∈ l ->
  exists pre post, l = pre ++ x :: post /\ (x ∉ pre) /\ list_remove x l = Ok (pre ++ post).
Proof.
  induction l as [| y l IH]; intros Hin; [inversion Hin |].
  cbn [list_remove]. destruct (decide (x = y)) as [<- | Hne].
  - exists [], l. split; [reflexivity |]. split; [apply not_elem_of_nil | reflexivity].
  - apply elem_of_cons in Hin as [-> | Hin]; [congruence |].
    destruct (IH Hin) as (pre & post & -> & Hpre & ->). cbn [bind].
    exists (y :: pre), post. split; [reflexivity |]. split; [| reflexivity].
    intros Hc. apply elem_of_cons in Hc as [-> | Hc]; [congruence | exact (Hpre Hc)].
Qed.

(** Removing from a list without repetitions leaves exactly the others,
    in their order. *)
Lemma list_remove_nodup (x : loc) (l : list loc) :
  NoDup l -> x ∈ l ->
  exists l', list_remove x l = Ok l' /\ NoDup l' /\ l' `sublist_of` l /\
             forall y, y ∈ l' <-> y ∈ l /\ y <> x.
Proof.
  intros Hnd Hin. destruct (list_remove_split x l Hin) as (pre & post & -> & Hpre & ->).
  apply NoDup_app in Hnd as (Hnd1 & Hdisj & Hnd2). apply NoDup_cons in Hnd2 as [Hpost Hnd2].
  exists (pre ++ post). split; [reflexivity |]. split; [| split].
  - apply NoDup_app. split; [exact Hnd1 |]. split; [| exact Hnd2].
    intros y Hy Hy'. apply (Hdisj y Hy). right. exact Hy'.
  - apply sublist_app; [reflexivity | apply sublist_cons, reflexivity].
  - intros y. rewrite !elem_of_app, elem_of_cons. split.
    + intros [Hy | Hy]; (split; [tauto |]); intros ->; tauto.
    + intros [[Hy | [-> | Hy]] Hne]; tauto.
Qed.

Lemma purge_spec (x : loc) (group : list loc) :
  NoDup group ->
  exists group',
    GraphViewOps.purge x group = Ok group' /\ NoDup group' /\
    forall y, y ∈ group' <-> y ∈ group /\ y <> x.
Proof.
  intros Hnd. unfold GraphViewOps.purge. destruct (decide (x ∈ group)) as [Hin | Hout].
  - destruct (list_remove_nodup x group Hnd Hin) as (g' & -> & Hnd' & _ & Hmem).
    exists g'. auto.
  - exists group. split; [reflexivity |]. split; [exact Hnd |].
    intros y. split; [| tauto]. intros Hy. split; [exact Hy |]. intros ->. exact (Hout Hy).
Qed.

(** X15. [get_graph] returns the graph registered under a name and
    [None] for an unknown name; [view[name]] returns the same graph and
    raises [KeyError] exactly for the unknown names; [remove_graph] of an
    unknown name returns [False] and changes nothing. *)
Theorem view_lookup_unknown_name (graph_name : string) (v : GraphView.t) :
  (forall r, GraphViewOps.getitem graph_name v = Ok r
             <-> GraphViewOps.get_graph graph_name v = Some r) /\
  (GraphViewOps.getitem graph_name v = Raise KeyError
   <-> GraphViewOps.get_graph graph_name v = None) /\
  (GraphViewOps.get_graph graph_name v = None ->
   GraphViewOps.remove_graph graph_name v = Ok (false, v)) /\
  (forall h graph group h' v',
     GraphView.add_graph graph group (h, v) = Ok (h', v') ->
     exists g, h !! graph = Some g /\
               GraphViewOps.get_graph (Graph.name g) v' = Some graph).
Proof.
  unfold GraphViewOps.getitem, GraphViewOps.get_graph, GraphViewOps.remove_graph.
  split; [| split; [| split]].
  - intros r. destruct (GraphView._graphs_by_name v !! graph_name); split; congruence.
  - destruct (GraphView._graphs_by_name v !! graph_name); split; congruence.
  - intros ->. reflexivity.
  - intros h graph group h' v'. unfold GraphView.add_graph, deref.
    destruct (h !! graph) as [g |]; [| discriminate]. cbn [bind]. intros [= <- <-].
    exists g. split; [reflexivity |]. cbn. apply lookup_insert_eq.
Qed.

(** X16. In a view of distinct graphs, [remove_graph] of a registered
    name returns [True] and takes the graph out of the graph list, of the
    name index and of every link group; the other graphs stay where they
    are, in their order, and a group the graph was alone in stays
    registered, empty.  The view remains one of distinct graphs. *)
Theorem remove_graph_purges (graph_name : string) (graph : loc) (v : GraphView.t) :
  view_wf v -> GraphViewOps.get_graph graph_name v = Some graph ->
  exists v',
    GraphViewOps.remove_graph graph_name v = Ok (true, v') /\
    view_wf v' /\
    GraphViewOps.get_graph graph_name v' = None /\
    GraphView.graphs v' `sublist_of` GraphView.graphs v /\
    (forall r, r ∈ GraphView.graphs v' <-> r ∈ GraphView.graphs v /\ r <> graph) /\
    (forall k, is_Some (GraphView.linked_groups v' !! k)
               <-> is_Some (GraphView.linked_groups v !! k)) /\
    (forall k members members',
       GraphView.linked_groups v !! k = Some members ->
       GraphView.linked_groups v' !! k = Some members' ->
       forall r, r ∈ members' <-> r ∈ members /\ r <> graph).
Proof.
  intros (Hnd & Hname & Hinj & Hgrp) Hget.
  unfold GraphViewOps.get_graph in Hget. unfold GraphViewOps.remove_graph. rewrite Hget.
  destruct (list_remove_nodup graph _ Hnd (Hname _ _ Hget)) as (gs & -> & Hnd' & Hsub & Hmem).
  cbn [bind]. eexists. split; [reflexivity |].
  assert (Hgroups : forall k members members',
            GraphView.linked_groups v !! k = Some members ->
            ((fun group => match GraphViewOps.purge graph group with
                           | Ok group' => group'
                           | Raise _ => group
                           end) <$> GraphView.linked_groups v) !! k = Some members' ->
            NoDup members' /\ forall r, r ∈ members' <-> r ∈ members /\ r <> graph).
  { intros k members members' Hk. rewrite lookup_fmap, Hk. cbn. intros [= <-].
    destruct (purge_spec graph members (proj1 (Hgrp k members Hk))) as (m' & -> & Hndm & Hm).
    auto. }
  split; [| split; [| split; [| split; [| split]]]].
  - split; [exact Hnd' |]. split; [| split].
    + intros n r. cbn. intros Hn. apply Hmem.
      destruct (decide (graph_name = n)) as [<- | Hne];
        [rewrite lookup_delete_eq in Hn; discriminate |].
      rewrite lookup_delete_ne in Hn by exact Hne.
      split; [apply (Hname n r Hn) |]. intros ->. apply Hne. apply (Hinj _ _ _ Hget Hn).
    + intros n1 n2 r. cbn. intros H1 H2.
      destruct (decide (graph_name = n1)) as [<- | Hne1];
        [rewrite lookup_delete_eq in H1; discriminate |].
      destruct (decide (graph_name = n2)) as [<- | Hne2];
        [rewrite lookup_delete_eq in H2; discriminate |].
      rewrite lookup_delete_ne in H1, H2 by assumption. apply (Hinj _ _ _ H1 H2).
    + intros k members'. cbn. intros Hk.
      destruct (GraphView.linked_groups v !! k) as [members |] eqn:Ek;
        [| rewrite lookup_fmap, Ek in Hk; discriminate].
      destruct (Hgroups k members members' Ek Hk) as [Hndm Hm].
      split; [exact Hndm |]. intros r Hr. apply Hmem. apply Hm in Hr as [Hr Hne].
      split; [apply (proj2 (Hgrp k members Ek) r Hr) | exact Hne].
  - cbn. apply lookup_delete_eq.
  - exact Hsub.
  - exact Hmem.
  - intros k. cbn. rewrite lookup_fmap. apply fmap_is_Some.
  - intros k members members' Hk Hk'. apply (Hgroups k members members' Hk Hk').
Qed.

Lemma linked_view_wf : view_wf linked_view.
Proof.
  split; [| split; [| split]].
  - cbn. apply (bool_decide_unpack _). vm_compute. exact I.
  - intros n r. cbn. intros Hn.
    destruct (decide (n = "other")) as [-> | H1].
    + rewrite lookup_insert_eq in Hn. injection Hn as <-. set_solver.
    + rewrite lookup_insert_ne in Hn by congruence.
      destruct (decide (n = "g")) as [-> | H2].
      * rewrite lookup_insert_eq in Hn. injection Hn as <-. set_solver.
      * rewrite lookup_insert_ne, lookup_empty in Hn by congruence. discriminate.
  - intros n1 n2 r. cbn. intros Hn1 Hn2.
    destruct (decide (n1 = "other")) as [-> | H1], (decide (n2 = "other")) as [-> | H2];
      [reflexivity | | |].
    + rewrite lookup_insert_eq in Hn1. injection Hn1 as <-.
      rewrite lookup_insert_ne in Hn2 by congruence.
      destruct (decide (n2 = "g")) as [-> | H3].
      * rewrite lookup_insert_eq in Hn2. discriminate.
      * rewrite lookup_insert_ne, lookup_empty in Hn2 by congruence. discriminate.
    + rewrite lookup_insert_eq in Hn2. injection Hn2 as <-.
      rewrite lookup_insert_ne in Hn1 by congruence.
      destruct (decide (n1 = "g")) as [-> | H3].
      * rewrite lookup_insert_eq in Hn1. discriminate.
      * rewrite lookup_insert_ne, lookup_empty in Hn1 by congruence. discriminate.
    + rewrite lookup_insert_ne in Hn1, Hn2 by congruence.
      destruct (decide (n1 = "g")) as [-> | H3], (decide (n2 = "g")) as [-> | H4];
        [reflexivity | | |].
      * rewrite lookup_insert_ne, lookup_empty in Hn2 by congruence. discriminate.
      * rewrite lookup_insert_ne, lookup_empty in Hn1 by congruence. discriminate.
      * rewrite lookup_insert_ne, lookup_empty in Hn1 by congruence. discriminate.
  - intros k members. cbn. intros Hk.
    destruct (decide (k = 1%Z)) as [-> | Hne].
    + rewrite lookup_insert_eq in Hk. injection Hk as <-.
      split; [apply NoDup_singleton |]. intros r Hr.
      apply list_elem_of_singleton in Hr. subst r. left.
    + rewrite lookup_insert_ne, lookup_empty in Hk by congruence. discriminate.
Qed.

Lemma remove_graph_purges_witness :
  exists v',
    GraphViewOps.remove_graph "g" linked_view = Ok (true, v') /\
    view_wf v' /\
    GraphViewOps.get_graph "g" v' = None /\
    GraphView.graphs v' `sublist_of` GraphView.graphs linked_view /\
    (forall r, r ∈ GraphView.graphs v' <-> r ∈ GraphView.graphs linked_view /\ r <> 0%nat) /\
    (forall k, is_Some (GraphView.linked_groups v' !! k)
               <-> is_Some (GraphView.linked_groups linked_view !! k)) /\
    (forall k members members',
       GraphView.linked_groups linked_view !! k = Some members ->
       GraphView.linked_groups v' !! k = Some members' ->
       forall r, r ∈ members' <-> r ∈ members /\ r <> 0%nat).
Proof.
  apply (remove_graph_purges "g" 0%nat linked_view).
  - exact linked_view_wf.
  - reflexivity.
Defined.

(** X17. A fresh view is a view of distinct graphs, and [add_graph] of a
    graph that is not in the view yet keeps it one, whatever the group
    and also when the name is already taken (the name then refers to the
    new graph). *)
Theorem add_graph_keeps_distinct (graph : loc) (group : Z) (h h' : heap)
    (v v' : GraphView.t) :
  view_wf v -> graph ∉ GraphView.graphs v ->
  GraphView.add_graph graph group (h, v) = Ok (h', v') ->
  view_wf v' /\ h' = h /\
  GraphView.graphs v' = GraphView.graphs v ++ [graph] /\
  (forall ttl, view_wf (GraphView.init ttl)).
Proof.
  intros (Hnd & Hname & Hinj & Hgrp) Hfresh. unfold GraphView.add_graph, deref.
  destruct (h !! graph) as [g |]; [| discriminate]. cbn [bind]. intros [= <- <-].
  split; [| split; [reflexivity | split; [reflexivity |]]].
  2: { intros ttl. split; [constructor |]. split; [| split]; cbn;
         intros; match goal with H : ∅ !! _ = Some _ |- _ => rewrite lookup_empty in H; discriminate end. }
  split; [| split; [| split]]; cbn.
  - apply NoDup_app. split; [exact Hnd |]. split; [| apply NoDup_singleton].
    intros r Hr Hr'. apply list_elem_of_singleton in Hr'. subst. exact (Hfresh Hr).
  - intros n r Hn. apply elem_of_app.
    destruct (decide (Graph.name g = n)) as [<- | Hne].
    + rewrite lookup_insert_eq in Hn. injection Hn as <-. right. left.
    + rewrite lookup_insert_ne in Hn by exact Hne. left. apply (Hname n r Hn).
  - intros n1 n2 r H1 H2.
    destruct (decide (Graph.name g = n1)) as [<- | Hne1],
             (decide (Graph.name g = n2)) as [<- | Hne2]; [reflexivity | | |].
    + rewrite lookup_insert_eq in H1. injection H1 as <-.
      rewrite lookup_insert_ne in H2 by exact Hne2. exfalso. apply Hfresh, (Hname n2 _ H2).
    + rewrite lookup_insert_eq in H2. injection H2 as <-.
      rewrite lookup_insert_ne in H1 by exact Hne1. exfalso. apply Hfresh, (Hname n1 _ H1).
    + rewrite lookup_insert_ne in H1, H2 by assumption. apply (Hinj _ _ _ H1 H2).
  - intros k members Hk.
    assert (Hold : forall m, GraphView.linked_groups v !! k = Some m ->
                             NoDup m /\ forall r, r ∈ m -> r ∈ GraphView.graphs v ++ [graph]).
    { intros m Hm. destruct (Hgrp k m Hm) as [Hndm Hsub]. split; [exact Hndm |].
      intros r Hr. apply elem_of_app. left. apply Hsub, Hr. }
    destruct (0 <? group)%Z; [| apply Hold, Hk].
    destruct (decide (group = k)) as [<- | Hne];
      [| rewrite lookup_insert_ne in Hk by exact Hne; apply Hold, Hk].
    rewrite lookup_insert_eq in Hk. injection Hk as <-.
    destruct (GraphView.linked_groups v !! group) as [m |] eqn:Em; cbn [default].
    + destruct (Hgrp group m Em) as [Hndm Hsub]. split.
      * apply NoDup_app. split; [exact Hndm |]. split; [| apply NoDup_singleton].
        intros r Hr Hr'. apply list_elem_of_singleton in Hr'. subst. apply Hfresh, Hsub, Hr.
      * intros r Hr. apply elem_of_app. apply elem_of_app in Hr as [Hr | Hr]; [left | right; exact Hr].
        apply Hsub, Hr.
    + split; [apply NoDup_singleton |].
      intros r Hr. apply elem_of_app. right. exact Hr.
Qed.

Lemma add_graph_keeps_distinct_witness :
  view_wf scenario_view /\ scenario_heap = scenario_heap /\
  GraphView.graphs scenario_view = GraphView.graphs (GraphView.init "view") ++ [0%nat] /\
  (forall ttl, view_wf (GraphView.init ttl)).
Proof.
  apply (add_graph_keeps_distinct 0%nat 0 scenario_heap scenario_heap
           (GraphView.init "view") scenario_view).
  - split; [constructor |]. split; [| split]; cbn;
      intros; match goal with H : ∅ !! _ = Some _ |- _ => rewrite lookup_empty in H; discriminate end.
  - apply not_elem_of_nil.
  - reflexivity.
Defined.

(** ** Gestures *)

Lemma update_display_view (h h' : heap) (v v' : GraphView.t) :
  GraphView.update_display (h, v) = Ok (h', v') -> v' = v.
Proof.
  rewrite update_display_unfold. destruct (GraphView.fig v); [| congruence].
  destruct (for_each _ (GraphView.graphs v) []); [| discriminate]. cbn [bind].
  destruct (for_each _ _ h); [| discriminate]. cbn [bind]. congruence.
Qed.

Lemma set_x_bounds_view (a b : Q) (group : Z) (h h' : heap) (v v' : GraphView.t) :
  GraphView.set_x_bounds a b group (h, v) = Ok (h', v') -> v' = record_bounds a b v.
Proof.
  rewrite set_x_bounds_unfold. destruct (GraphView.apply_x_bounds _ _ _ _); [| discriminate].
  cbn [bind]. destruct (GraphView.fig v); [apply update_display_view | congruence].
Qed.

Lemma record_bounds_history (a b : Q) (v : GraphView.t) :
  GraphView.history v `prefix_of` GraphView.history (record_bounds a b v) /\
  (cursor_ok v -> cursor_ok (record_bounds a b v)).
Proof.
  unfold record_bounds. destruct (GraphView.differs_from_last _ a b).
  - split; [apply prefix_app_r; reflexivity |]. intros _. unfold cursor_ok. cbn.
    rewrite length_app. cbn. lia.
  - split; [reflexivity | auto].
Qed.

Lemma view_change_history (v v' : GraphView.t) :
  view_change v v' ->
  GraphView.history v `prefix_of` GraphView.history v' /\
  GraphView.graphs v' = GraphView.graphs v /\
  GraphView.linked_groups v' = GraphView.linked_groups v /\
  (cursor_ok v -> cursor_ok v').
Proof.
  induction 1 as [| sel s_start s_end v' _ IH | a b v' _ IH | pos v' _ IH Hpos].
  - split; [reflexivity |]. split; [reflexivity |]. split; [reflexivity | auto].
  - exact IH.
  - destruct IH as (Hp & Hg & Hl & Hc).
    destruct (record_bounds_history a b v') as [Hp' Hc'].
    destruct (record_bounds_frame a b v') as (Hg' & Hl' & _).
    split; [etrans; eassumption |]. split; [congruence |]. split; [congruence | auto].
  - destruct IH as (Hp & Hg & Hl & Hc).
    split; [exact Hp |]. split; [exact Hg |]. split; [exact Hl |].
    intros _. unfold cursor_ok. cbn. lia.
Qed.

Lemma getter_total (g : Graph.t) :
  (exists v g', Graph.min_x g = Ok (Some v, g')) /\
  (exists v g', Graph.max_x g = Ok (Some v, g')).
Proof.
  destruct (reset_bounds_ok g) as (g0 & E & [a Ha] & [b Hb] & _).
  unfold Graph.min_x, Graph.max_x. rewrite E. cbn [bind]. rewrite Ha, Hb. split.
  - destruct (Graph._min_x g) as [v |]; eauto.
  - destruct (Graph._max_x g) as [v |]; eauto.
Qed.

Lemma heap_closed_insert (h : heap) (v : GraphView.t) (r : loc) (g g' : Graph.t) :
  heap_closed h v -> h !! r = Some g -> heap_closed (<[r := g']> h) v.
Proof.
  intros Hc Hg. apply (heap_closed_same_dom h _ v); auto. intros r'.
  destruct (decide (r = r')) as [-> | Hne].
  - rewrite lookup_insert_eq, Hg. split; eauto.
  - rewrite lookup_insert_ne by exact Hne. reflexivity.
Qed.

Lemma heap_closed_view_change (h : heap) (v v' : GraphView.t) :
  view_change v v' -> heap_closed h v -> heap_closed h v'.
Proof.
  intros Hch Hc. destruct (view_change_history v v' Hch) as (_ & Hg & Hl & _).
  apply (heap_closed_same_dom h h v); auto.
Qed.

(** A release over the axes that ends a selection: the handler reads the
    width of the first graph's range and zooms if the selection is wider
    than 1% of it. *)
Lemma on_release_unfold (event : MouseEvent) (s0 x mx mn : Q) (h : heap) (v : GraphView.t)
    (r : loc) (rest : list loc) (g gA gB : Graph.t) :
  GraphView.selecting v = true -> GraphView.selection_start v = Some s0 ->
  is_Some (inaxes event) -> xdata event = Some x ->
  GraphView.graphs v = r :: rest -> h !! r = Some g ->
  Graph.max_x g = Ok (Some mx, gA) -> Graph.min_x gA = Ok (Some mn, gB) ->
  GraphViewOps._on_release event (h, v)
  = (do s' <- (if Qltb ((mx - mn) * 0.01)
                       (Qabs (snd (GraphViewOps.sorted2 s0 x) - fst (GraphViewOps.sorted2 s0 x)))
               then GraphView.set_x_bounds (fst (GraphViewOps.sorted2 s0 x))
                                           (snd (GraphViewOps.sorted2 s0 x)) 0
                      (<[r := gB]> h, GraphViewOps.with_selection false (Some s0) (Some x) v)
               else Ok (<[r := gB]> h,
                        GraphViewOps.with_selection false (Some s0) (Some x) v));
     Ok (fst s', GraphViewOps.with_selection false None None (snd s'))).
Proof.
  intros Hsel Hs0 [u Hin] Hx Hgs Hg Hmax Hmin. unfold GraphViewOps._on_release.
  rewrite Hsel. cbn [negb].
  cbn [GraphViewOps.with_selection GraphView.selection_start GraphView.graphs].
  rewrite Hin, Hs0, Hx. cbn [as_float bind].
  destruct (GraphViewOps.sorted2 s0 x) as [lo hi]. cbn [fst snd].
  cbn [GraphViewOps.with_selection GraphView.graphs]. rewrite Hgs. cbn [bind].
  unfold deref. rewrite Hg. cbn [bind]. rewrite Hmax. cbn [bind]. rewrite Hmin.
  cbn [bind as_float].
  destruct (Qltb ((mx - mn) * 0.01) (Qabs (hi - lo))).
  - destruct (GraphView.set_x_bounds lo hi 0 _) as [[h' v'] | err]; reflexivity.
  - reflexivity.
Qed.

Lemma on_release_idle (event : MouseEvent) (h : heap) (v : GraphView.t) :
  GraphViewOps._on_release event (h, v)
  = if negb (GraphView.selecting v) then Ok (h, v)
    else match inaxes event, GraphView.selection_start v with
         | Some _, Some _ => GraphViewOps._on_release event (h, v)
         | _, _ => Ok (h, GraphViewOps.with_selection false None None v)
         end.
Proof.
  unfold GraphViewOps._on_release. destruct (GraphView.selecting v); cbn [negb]; [| reflexivity].
  cbn [GraphViewOps.with_selection GraphView.selection_start].
  destruct (inaxes event); [| reflexivity].
  destruct (GraphView.selection_start v); reflexivity.
Qed.

(** Every gesture succeeds on a ready view and leaves it ready. *)
Lemma run_ready (s : GraphView.state) (op : gesture) :
  view_ready s -> gesture_wf op ->
  exists s', run s op = Ok s' /\ view_ready s' /\ view_change (snd s) (snd s').
Proof.
  destruct s as [h v]. intros (Hclosed & Hne & Hcur) Hwf.
  cbn [fst snd] in Hclosed, Hne, Hcur.
  assert (Hready : forall h' v', heap_closed h' v' -> view_change v v' -> view_ready (h', v')).
  { intros h' v' Hc Hch. destruct (view_change_history v v' Hch) as (_ & Hg & _ & Hcu).
    split; [exact Hc |]. split; [cbn; rewrite Hg; exact Hne | apply Hcu, Hcur]. }
  assert (Hset : forall a b group h0 v0,
            heap_closed h0 v0 -> view_change v v0 ->
            exists s', GraphView.set_x_bounds a b group (h0, v0) = Ok s' /\
                       view_ready s' /\ view_change v (snd s')).
  { intros a b group h0 v0 Hc Hch.
    destruct (set_x_bounds_ok a b group h0 v0 Hc) as (h' & E & Hc').
    exists (h', record_bounds a b v0). split; [exact E |].
    assert (Hch' : view_change v (record_bounds a b v0)) by (constructor; exact Hch).
    split; [apply Hready; assumption | exact Hch']. }
  destruct (GraphView.graphs v) as [| r rest] eqn:Hgs; [congruence |].
  assert (Hr : is_Some (h !! r)) by (apply (proj1 Hclosed); rewrite Hgs; left).
  destruct Hr as [g Hg].
  destruct op as [e | e | e | | | a b group]; cbn [run fst snd].
  - (* press *)
    eexists. split; [reflexivity |]. unfold GraphViewOps._on_press.
    destruct (inaxes e).
    + assert (Hch : view_change v (GraphViewOps.with_selection true (xdata e)
                                     (GraphView.selection_end v) v))
        by (constructor; constructor).
      split; [apply Hready; [exact Hclosed | exact Hch] | exact Hch].
    + split; [apply Hready; [exact Hclosed | constructor] | constructor].
  - (* release *)
    rewrite on_release_idle. destruct (GraphView.selecting v) eqn:Hsel; cbn [negb].
    2: { eexists. split; [reflexivity |].
         split; [apply Hready; [exact Hclosed | constructor] | constructor]. }
    assert (Hclear : exists s',
              Ok (h, GraphViewOps.with_selection false None None v) = Ok s' /\
              view_ready s' /\ view_change v (snd s')).
    { eexists. split; [reflexivity |].
      assert (Hch : view_change v (GraphViewOps.with_selection false None None v))
        by (repeat constructor).
      split; [apply Hready; [apply (heap_closed_view_change h v _ Hch Hclosed) | exact Hch]
             | exact Hch]. }
    destruct (inaxes e) as [u |] eqn:Hin; [| exact Hclear].
    destruct (GraphView.selection_start v) as [s0 |] eqn:Hs0; [| exact Hclear].
    destruct (Hwf (ex_intro _ u Hin)) as [x Hx].
    destruct (proj2 (getter_total g)) as (mx & gA & Hmax).
    destruct (proj1 (getter_total gA)) as (mn & gB & Hmin).
    rewrite (on_release_unfold e s0 x mx mn h v r rest g gA gB Hsel Hs0
               (ex_intro _ u Hin) Hx Hgs Hg Hmax Hmin).
    set (v1 := GraphViewOps.with_selection false (Some s0) (Some x) v).
    assert (Hch1 : view_change v v1) by (repeat constructor).
    assert (Hc1 : heap_closed (<[r := gB]> h) v1).
    { apply (heap_closed_view_change _ v v1 Hch1).
      apply (heap_closed_insert h v r g gB Hclosed Hg). }
    assert (Hdone : forall s2 : GraphView.state,
              view_ready s2 -> view_change v (snd s2) ->
              view_ready (fst s2, GraphViewOps.with_selection false None None (snd s2)) /\
              view_change v (GraphViewOps.with_selection false None None (snd s2))).
    { intros [h2 v2] Hr2 Hch2. cbn [fst snd] in *.
      assert (Hch3 : view_change v (GraphViewOps.with_selection false None None v2))
        by (constructor; exact Hch2).
      split; [| exact Hch3]. apply Hready; [| exact Hch3].
      apply (heap_closed_same_dom h2 h2 v2); auto. apply Hr2. }
    destruct (Qltb _ _).
    + destruct (Hset (fst (GraphViewOps.sorted2 s0 x)) (snd (GraphViewOps.sorted2 s0 x))
                  0%Z _ v1 Hc1 Hch1) as (s2 & -> & Hr2 & Hch2).
      cbn [bind]. eexists. split; [reflexivity |]. apply Hdone; assumption.
    + cbn [bind]. eexists. split; [reflexivity |]. apply Hdone; [| exact Hch1].
      apply Hready; assumption.
  - (* scroll *)
    unfold GraphView._on_scroll. destruct (inaxes e) as [u |] eqn:Hin.
    2: { eexists. split; [reflexivity |].
         split; [apply Hready; [exact Hclosed | constructor] | constructor]. }
    rewrite Hgs. unfold deref. rewrite Hg. cbn [bind].
    destruct (proj1 (getter_total g)) as (mn & gA & ->). cbn [bind].
    destruct (proj2 (getter_total gA)) as (mx & gB & ->). cbn [bind as_float].
    destruct (Hwf (ex_intro _ u Hin)) as [x ->]. cbn [bind as_float].
    apply Hset; [| constructor]. apply (heap_closed_insert h v r g gB Hclosed Hg).
  - (* back *)
    unfold GraphView._on_back. destruct (0 <? GraphView.history_position v)%Z eqn:Hpos.
    2: { eexists. split; [reflexivity |].
         split; [apply Hready; [exact Hclosed | constructor] | constructor]. }
    apply Z.ltb_lt in Hpos.
    change (GraphView.history (GraphView.with_history _ _ v)) with (GraphView.history v).
    change (GraphView.graphs (GraphView.with_history _ _ v)) with (GraphView.graphs v).
    assert (Hrange : (0 <= GraphView.history_position v - 1
                      < Z.of_nat (length (GraphView.history v)))%Z)
      by (destruct Hcur as [_ [H | H]]; lia).
    unfold py_index.
    replace (GraphView.history_position v - 1 <? 0)%Z with false
      by (symmetry; apply Z.ltb_ge; lia).
    replace (GraphView.history_position v - 1 <? 0)%Z with false
      by (symmetry; apply Z.ltb_ge; lia).
    destruct (GraphView.history v !! Z.to_nat (GraphView.history_position v - 1))
      as [[a b] |] eqn:E; [| apply lookup_ge_None in E; lia].
    cbn [bind].
    destruct (apply_x_bounds_spec a b (GraphView.graphs v) h (proj1 Hclosed)) as (h1 & -> & Happ).
    cbn [bind].
    set (v1 := GraphView.with_history (GraphView.history v)
                 (GraphView.history_position v - 1) v).
    assert (Hch1 : view_change v v1) by (constructor; [constructor | exact Hrange]).
    assert (Hc1 : heap_closed h1 v1).
    { apply (heap_closed_same_dom h h1 v); auto.
      intros r'. apply (bounds_applied_is_Some a b _ h h1 r' Happ). }
    destruct (update_display_ok h1 v1 Hc1) as (h2 & -> & Hdom).
    eexists. split; [reflexivity |]. split; [| exact Hch1].
    apply Hready; [| exact Hch1]. apply (heap_closed_same_dom h1 h2 v1); auto.
  - (* forward *)
    unfold GraphView._on_forward.
    destruct (GraphView.history_position v <? Z.of_nat (length (GraphView.history v)) - 1)%Z
      eqn:Hpos.
    2: { eexists. split; [reflexivity |].
         split; [apply Hready; [exact Hclosed | constructor] | constructor]. }
    apply Z.ltb_lt in Hpos.
    change (GraphView.history (GraphView.with_history _ _ v)) with (GraphView.history v).
    change (GraphView.graphs (GraphView.with_history _ _ v)) with (GraphView.graphs v).
    assert (Hrange : (0 <= GraphView.history_position v + 1
                      < Z.of_nat (length (GraphView.history v)))%Z)
      by (destruct Hcur as [H _]; lia).
    unfold py_index.
    replace (GraphView.history_position v + 1 <? 0)%Z with false
      by (symmetry; apply Z.ltb_ge; lia).
    replace (GraphView.history_position v + 1 <? 0)%Z with false
      by (symmetry; apply Z.ltb_ge; lia).
    destruct (GraphView.history v !! Z.to_nat (GraphView.history_position v + 1))
      as [[a b] |] eqn:E; [| apply lookup_ge_None in E; lia].
    cbn [bind].
    destruct (apply_x_bounds_spec a b (GraphView.graphs v) h (proj1 Hclosed)) as (h1 & -> & Happ).
    cbn [bind].
    set (v1 := GraphView.with_history (GraphView.history v)
                 (GraphView.history_position v + 1) v).
    assert (Hch1 : view_change v v1) by (constructor; [constructor | exact Hrange]).
    assert (Hc1 : heap_closed h1 v1).
    { apply (heap_closed_same_dom h h1 v); auto.
      intros r'. apply (bounds_applied_is_Some a b _ h h1 r' Happ). }
    destruct (update_display_ok h1 v1 Hc1) as (h2 & -> & Hdom).
    eexists. split; [reflexivity |]. split; [| exact Hch1].
    apply Hready; [| exact Hch1]. apply (heap_closed_same_dom h1 h2 v1); auto.
  - (* set_x_bounds *)
    apply Hset; [exact Hclosed | constructor].
Qed.

Lemma view_change_trans (v v' v'' : GraphView.t) :
  view_change v v' -> view_change v' v'' -> view_change v v''.
Proof.
  intros H1 H2. induction H2; [exact H1 | constructor | constructor | constructor]; assumption.
Qed.

Lemma run_all_ready (ops : list gesture) :
  forall s, view_ready s -> Forall gesture_wf ops ->
            exists s', for_each run ops s = Ok s' /\ view_ready s' /\
                       view_change (snd s) (snd s').
Proof.
  induction ops as [| op ops IH]; intros s Hr Hwf; cbn [for_each].
  - exists s. split; [reflexivity |]. split; [exact Hr | constructor].
  - apply Forall_cons in Hwf as [Hop Hops].
    destruct (run_ready s op Hr Hop) as (s1 & -> & Hr1 & Hch1). cbn [bind].
    destruct (IH s1 Hr1 Hops) as (s' & -> & Hr' & Hch').
    exists s'. split; [reflexivity |]. split; [exact Hr' |].
    apply (view_change_trans _ _ _ Hch1 Hch').
Qed.

Lemma view_change_fig (v v' : GraphView.t) :
  view_change v v' -> GraphView.fig v' = GraphView.fig v.
Proof.
  induction 1 as [| sel s_start s_end v' _ IH | a b v' _ IH | pos v' _ IH Hpos].
  - reflexivity.
  - exact IH.
  - rewrite <- IH. apply record_bounds_frame.
  - exact IH.
Qed.

(** X18. On a view that is not shown, so that nothing is drawn, with
    live graph references, at least one graph and the cursor in range,
    no sequence of presses, releases, scrolls, back and forward clicks
    and [set_x_bounds] calls raises an exception (the events over the
    axes carrying an x position), and the view stays such a view, with
    the same graphs and link groups. *)
Theorem gestures_never_raise (ops : list gesture) (s : GraphView.state) :
  view_ready s -> GraphView.fig (snd s) = None -> Forall gesture_wf ops ->
  exists s',
    for_each run ops s = Ok s' /\ view_ready s' /\
    GraphView.fig (snd s') = None /\
    GraphView.graphs (snd s') = GraphView.graphs (snd s) /\
    GraphView.linked_groups (snd s') = GraphView.linked_groups (snd s).
Proof.
  intros Hr Hfig Hwf. destruct (run_all_ready ops s Hr Hwf) as (s' & E & Hr' & Hch).
  destruct (view_change_history _ _ Hch) as (_ & Hg & Hl & _).
  exists s'. split; [exact E |]. split; [exact Hr' |].
  split; [rewrite (view_change_fig _ _ Hch); exact Hfig | auto].
Qed.

Lemma scenario_ready : view_ready (scenario_heap, scenario_view).
Proof.
  split; [exact scenario_closed |]. split; [discriminate |].
  split; [cbn; lia | right; cbn; lia].
Qed.

(** A drag from 1 to 2, a scroll, back, forward and a call. *)
Definition sample_gestures : list gesture :=
  [Press (mkEvent (Some tt) "1" (Some 1)); Release (mkEvent (Some tt) "1" (Some 2));
   Scroll (mkEvent (Some tt) "up" (Some 1)); Back; Forward; SetXBounds 0 3 0].

Lemma sample_gestures_wf : Forall gesture_wf sample_gestures.
Proof. repeat constructor; intros _; cbn; eauto. Qed.

Lemma gestures_never_raise_witness :
  exists s',
    for_each run sample_gestures (scenario_heap, scenario_view) = Ok s' /\ view_ready s' /\
    GraphView.fig (snd s') = None /\
    GraphView.graphs (snd s') = GraphView.graphs (snd (scenario_heap, scenario_view)) /\
    GraphView.linked_groups (snd s')
    = GraphView.linked_groups (snd (scenario_heap, scenario_view)).
Proof.
  apply (gestures_never_raise sample_gestures (scenario_heap, scenario_view)).
  - exact scenario_ready.
  - reflexivity.
  - exact sample_gestures_wf.
Defined.

(** X19. The navigation history only grows: over any sequence of
    gestures the old history stays a prefix of the new one, so a
    [set_x_bounds] after [back()] keeps the forward entries and appends
    behind them; and the cursor stays in range. *)
Theorem history_only_grows (ops : list gesture) (s : GraphView.state) :
  view_ready s -> Forall gesture_wf ops ->
  exists s',
    for_each run ops s = Ok s' /\
    GraphView.history (snd s) `prefix_of` GraphView.history (snd s') /\
    cursor_ok (snd s').
Proof.
  intros Hr Hwf. destruct (run_all_ready ops s Hr Hwf) as (s' & E & Hr' & Hch).
  destruct (view_change_history _ _ Hch) as (Hp & _).
  exists s'. split; [exact E |]. split; [exact Hp | apply Hr'].
Qed.

Lemma history_only_grows_witness :
  exists s',
    for_each run sample_gestures (scenario_heap, scenario_view) = Ok s' /\
    GraphView.history (snd (scenario_heap, scenario_view)) `prefix_of` GraphView.history (snd s') /\
    cursor_ok (snd s').
Proof.
  apply (history_only_grows sample_gestures (scenario_heap, scenario_view)).
  - exact scenario_ready.
  - exact sample_gestures_wf.
Defined.

(** X20. The edges of [_on_release]: without a selection in progress it
    does nothing; outside the axes it only ends the selection; over the
    axes of a view without graphs it raises [IndexError]. *)
Theorem release_edges (event : MouseEvent) (h : heap) (v : GraphView.t) :
  (GraphView.selecting v = false -> GraphViewOps._on_release event (h, v) = Ok (h, v)) /\
  (GraphView.selecting v = true -> inaxes event = None ->
   GraphViewOps._on_release event (h, v)
   = Ok (h, GraphViewOps.with_selection false None None v)) /\
  (GraphView.selecting v = true -> is_Some (inaxes event) ->
   is_Some (GraphView.selection_start v) -> is_Some (xdata event) ->
   GraphView.graphs v = [] ->
   GraphViewOps._on_release event (h, v) = Raise IndexError).
Proof.
  split; [| split].
  - intros Hs. rewrite on_release_idle, Hs. reflexivity.
  - intros Hs Hin. rewrite on_release_idle, Hs, Hin. reflexivity.
  - intros Hs [u Hin] [s0 Hs0] [x Hx] Hgs. unfold GraphViewOps._on_release.
    rewrite Hs. cbn [negb].
    cbn [GraphViewOps.with_selection GraphView.selection_start GraphView.graphs].
    rewrite Hin, Hs0, Hx. cbn [as_float bind].
    destruct (GraphViewOps.sorted2 s0 x) as [lo hi].
    cbn [GraphViewOps.with_selection GraphView.graphs]. rewrite Hgs. reflexivity.
Qed.

Lemma sorted2_spec (a b : Q) :
  fst (GraphViewOps.sorted2 a b) <= snd (GraphViewOps.sorted2 a b) /\
  (GraphViewOps.sorted2 a b = (a, b) \/ GraphViewOps.sorted2 a b = (b, a)) /\
  Qabs (snd (GraphViewOps.sorted2 a b) - fst (GraphViewOps.sorted2 a b)) == Qabs (b - a).
Proof.
  unfold GraphViewOps.sorted2. destruct (Qltb b a) eqn:E; cbn [fst snd].
  - apply Qltb_lt in E. split; [apply Qlt_le_weak, E |]. split; [auto |].
    rewrite <- (Qabs_opp (b - a)). apply Qabs_wd. ring.
  - apply Qltb_ge in E. split; [exact E |]. split; [auto | reflexivity].
Qed.

Lemma Qltb_compat (a b b' : Q) : b == b' -> Qltb a b = Qltb a b'.
Proof.
  intros Hb. destruct (Qltb a b') eqn:E.
  - apply Qltb_lt. apply Qltb_lt in E. rewrite Hb. exact E.
  - apply Qltb_ge. apply Qltb_ge in E. rewrite Hb. exact E.
Qed.

(** X21. When the first graph has its x bounds, and their difference is
    subtracted without wrap-around, a release that ends a selection no
    wider than 1% of that graph's x range is a click: nothing is zoomed,
    the history is as it was, and the selection is over. *)
Theorem release_small_selection_is_click (event : MouseEvent) (s0 x mn mx : Q)
    (h : heap) (v : GraphView.t) (r : loc) (rest : list loc) (g : Graph.t) :
  GraphView.selecting v = true -> GraphView.selection_start v = Some s0 ->
  is_Some (inaxes event) -> xdata event = Some x ->
  GraphView.graphs v = r :: rest -> h !! r = Some g ->
  Graph._min_x g = Some mn -> Graph._max_x g = Some mx ->
  int64_range (mx - mn) ->
  Qabs (x - s0) <= (mx - mn) * 0.01 ->
  GraphViewOps._on_release event (h, v)
  = Ok (h, GraphViewOps.with_selection false None None v).
Proof.
  intros Hsel Hs0 Hin Hx Hgs Hg Hmn Hmx _ Hsmall.
  assert (Hmax : Graph.max_x g = Ok (Some mx, g))
    by (rewrite (max_x_some g) by (rewrite Hmx; eauto); rewrite Hmx; reflexivity).
  assert (Hmin : Graph.min_x g = Ok (Some mn, g))
    by (rewrite (min_x_some g) by (rewrite Hmn; eauto); rewrite Hmn; reflexivity).
  rewrite (on_release_unfold event s0 x mx mn h v r rest g g g Hsel Hs0 Hin Hx Hgs Hg Hmax Hmin).
  rewrite (Qltb_compat _ _ _ (proj2 (proj2 (sorted2_spec s0 x)))).
  replace (Qltb ((mx - mn) * 0.01) (Qabs (x - s0))) with false
    by (symmetry; apply Qltb_ge; exact Hsmall).
  cbn [bind fst snd]. rewrite (insert_id h r g Hg). reflexivity.
Qed.

Lemma release_small_selection_is_click_witness :
  let v := GraphViewOps._on_press (mkEvent (Some tt) "1" (Some 1)) linked_view in
  let h := <[0%nat := Graph.set_x_bounds 0 3 scenario_graph]> linked_heap in
  GraphViewOps._on_release (mkEvent (Some tt) "1" (Some 1.01)) (h, v)
  = Ok (h, GraphViewOps.with_selection false None None v).
Proof.
  apply (release_small_selection_is_click (mkEvent (Some tt) "1" (Some 1.01)) 1 1.01 0 3
           (<[0%nat := Graph.set_x_bounds 0 3 scenario_graph]> linked_heap)
           (GraphViewOps._on_press (mkEvent (Some tt) "1" (Some 1)) linked_view)
           0%nat [1%nat] (Graph.set_x_bounds 0 3 scenario_graph)).
  - reflexivity.
  - reflexivity.
  - cbn. eauto.
  - reflexivity.
  - reflexivity.
  - reflexivity.
  - reflexivity.
  - reflexivity.
  - split; [vm_compute; discriminate | vm_compute; reflexivity].
  - vm_compute. discriminate.
Defined.

(** X22. On a view with nothing left for a redisplay to compute, whose
    first graph has its x bounds, a release that ends a selection wider
    than 1% of that graph's x range zooms to it: every graph of the view
    gets the x bounds [(min, max)] of the press and release positions,
    whichever came first, the history records them as [set_x_bounds]
    does, and the selection is over. *)
Theorem release_commits_selection (event : MouseEvent) (s0 x mn mx : Q)
    (h : heap) (v : GraphView.t) (r : loc) (rest : list loc) (g : Graph.t) :
  heap_closed h v -> display_settled h v ->
  GraphView.selecting v = true -> GraphView.selection_start v = Some s0 ->
  is_Some (inaxes event) -> xdata event = Some x ->
  GraphView.graphs v = r :: rest -> h !! r = Some g ->
  Graph._min_x g = Some mn -> Graph._max_x g = Some mx ->
  (mx - mn) * 0.01 < Qabs (x - s0) ->
  exists h' lo hi,
    GraphViewOps._on_release event (h, v)
    = Ok (h', GraphViewOps.with_selection false None None (record_bounds lo hi v)) /\
    bounds_applied lo hi (GraphView.graphs v) h h' /\
    lo <= hi /\ ((lo, hi) = (s0, x) \/ (lo, hi) = (x, s0)).
Proof.
  intros Hclosed Hset Hsel Hs0 Hin Hx Hgs Hg Hmn Hmx Hwide.
  assert (Hmax : Graph.max_x g = Ok (Some mx, g))
    by (rewrite (max_x_some g) by (rewrite Hmx; eauto); rewrite Hmx; reflexivity).
  assert (Hmin : Graph.min_x g = Ok (Some mn, g))
    by (rewrite (min_x_some g) by (rewrite Hmn; eauto); rewrite Hmn; reflexivity).
  rewrite (on_release_unfold event s0 x mx mn h v r rest g g g Hsel Hs0 Hin Hx Hgs Hg Hmax Hmin).
  rewrite (Qltb_compat _ _ _ (proj2 (proj2 (sorted2_spec s0 x)))).
  replace (Qltb ((mx - mn) * 0.01) (Qabs (x - s0))) with true
    by (symmetry; apply Qltb_lt; exact Hwide).
  rewrite (insert_id h r g Hg).
  destruct (sorted2_spec s0 x) as (Hle & Hcases & _).
  set (lo := fst (GraphViewOps.sorted2 s0 x)) in *.
  set (hi := snd (GraphViewOps.sorted2 s0 x)) in *.
  set (v1 := GraphViewOps.with_selection false (Some s0) (Some x) v).
  destruct (set_x_bounds_settled lo hi 0 h v1 Hclosed Hset) as (h' & -> & Happ & _).
  cbn [bind fst snd]. exists h', lo, hi. split; [| split; [| split]].
  - f_equal. f_equal. unfold record_bounds, v1.
    cbn [GraphViewOps.with_selection GraphView.history].
    destruct (GraphView.differs_from_last (GraphView.history v) lo hi); reflexivity.
  - exact Happ.
  - exact Hle.
  - unfold lo, hi. destruct Hcases as [-> | ->]; auto.
Qed.

Lemma release_commits_selection_witness :
  let v := GraphViewOps._on_press (mkEvent (Some tt) "1" (Some 2)) linked_view in
  let h := <[0%nat := Graph.set_x_bounds 0 3 scenario_graph]> linked_heap in
  exists h' lo hi,
    GraphViewOps._on_release (mkEvent (Some tt) "1" (Some 1)) (h, v)
    = Ok (h', GraphViewOps.with_selection false None None (record_bounds lo hi v)) /\
    bounds_applied lo hi (GraphView.graphs v) h h' /\
    lo <= hi /\ ((lo, hi) = (2, 1) \/ (lo, hi) = (1, 2)).
Proof.
  apply (release_commits_selection (mkEvent (Some tt) "1" (Some 1)) 2 1 0 3
           (<[0%nat := Graph.set_x_bounds 0 3 scenario_graph]> linked_heap)
           (GraphViewOps._on_press (mkEvent (Some tt) "1" (Some 2)) linked_view)
           0%nat [1%nat] (Graph.set_x_bounds 0 3 scenario_graph)).
  - apply (heap_closed_insert linked_heap linked_view 0%nat scenario_graph);
      [exact linked_closed | reflexivity].
  - left. reflexivity.
  - reflexivity.
  - reflexivity.
  - cbn. eauto.
  - reflexivity.
  - reflexivity.
  - reflexivity.
  - reflexivity.
  - reflexivity.
  - vm_compute. reflexivity.
Defined.

(** X23. On a view with nothing left for a redisplay to compute, whose
    first graph has its x bounds, their difference subtracted without
    wrap-around, a scroll over the axes zooms every graph of the view
    about the cursor: the new x range is centred on the cursor position
    and is 0.9 times (wheel up) or 1.1 times (otherwise) as wide as the
    first graph's range, and the history records it as [set_x_bounds]
    does. *)
Theorem scroll_zooms_about_cursor (event : MouseEvent) (c mn mx : Q)
    (h : heap) (v : GraphView.t) (r : loc) (rest : list loc) (g : Graph.t) :
  heap_closed h v -> display_settled h v ->
  is_Some (inaxes event) -> xdata event = Some c ->
  GraphView.graphs v = r :: rest -> h !! r = Some g ->
  Graph._min_x g = Some mn -> Graph._max_x g = Some mx ->
  int64_range (mx - mn) ->
  exists h' lo hi,
    GraphView._on_scroll event (h, v) = Ok (h', record_bounds lo hi v) /\
    bounds_applied lo hi (GraphView.graphs v) h h' /\
    lo + hi == 2 * c /\
    hi - lo == (if String.eqb (button event) "up" then 0.9 else 1.1) * (mx - mn).
Proof.
  intros Hclosed Hset Hin Hx Hgs Hg Hmn Hmx _.
  assert (Hmin : Graph.min_x g = Ok (Some mn, g))
    by (rewrite (min_x_some g) by (rewrite Hmn; eauto); rewrite Hmn; reflexivity).
  assert (Hmax : Graph.max_x g = Ok (Some mx, g))
    by (rewrite (max_x_some g) by (rewrite Hmx; eauto); rewrite Hmx; reflexivity).
  rewrite (on_scroll_unfold event c mn mx h v r rest g g g Hin Hx Hgs Hg Hmin Hmax).
  rewrite (insert_id h r g Hg).
  destruct (set_x_bounds_settled (c - zoomed event (mx - mn) / 2)
              (c + zoomed event (mx - mn) / 2) 0 h v Hclosed Hset) as (h' & -> & Happ & _).
  eexists h', _, _. split; [reflexivity |]. split; [exact Happ |].
  unfold zoomed. destruct (String.eqb (button event) "up"); split; field.
Qed.

Lemma scroll_zooms_about_cursor_witness :
  let h := <[0%nat := Graph.set_x_bounds 0 4 scenario_graph]> linked_heap in
  exists h' lo hi,
    GraphView._on_scroll (mkEvent (Some tt) "up" (Some 1)) (h, linked_view)
    = Ok (h', record_bounds lo hi linked_view) /\
    bounds_applied lo hi (GraphView.graphs linked_view) h h' /\
    lo + hi == 2 * 1 /\
    hi - lo == (if String.eqb (button (mkEvent (Some tt) "up" (Some 1))) "up"
                then 0.9 else 1.1) * (4 - 0).
Proof.
  apply (scroll_zooms_about_cursor (mkEvent (Some tt) "up" (Some 1)) 1 0 4
           (<[0%nat := Graph.set_x_bounds 0 4 scenario_graph]> linked_heap)
           linked_view 0%nat [1%nat] (Graph.set_x_bounds 0 4 scenario_graph)).
  - apply (heap_closed_insert linked_heap linked_view 0%nat scenario_graph);
      [exact linked_closed | reflexivity].
  - left. reflexivity.
  - cbn. eauto.
  - reflexivity.
  - reflexivity.
  - reflexivity.
  - reflexivity.
  - reflexivity.
  - split; [vm_compute; discriminate | vm_compute; reflexivity].
Defined.

Lemma layer_clear_idem (l : Layer.t) :
  LayerOps.unhighlight (LayerOps.deselect (LayerOps.unhighlight (LayerOps.deselect l)))
  = LayerOps.unhighlight (LayerOps.deselect l).
Proof. reflexivity. Qed.

Lemma graph_deselect_idem (g : Graph.t) :
  GraphOps.deselect (GraphOps.deselect g) = GraphOps.deselect g.
Proof.
  unfold GraphOps.deselect.
  change (Graph.layers (Graph.with_layers ?ls _ _)) with ls.
  change (Graph._layers_by_name (Graph.with_layers _ ?m _)) with m.
  rewrite <- map_fmap_compose, map_map. unfold Graph.with_layers. cbn. f_equal.
Qed.

Lemma deselect_loop (gs : list loc) :
  forall h : heap,
    (forall r, r ∈ gs -> is_Some (h !! r)) ->
    exists h',
      for_each (fun h r => do g <- deref h r; Ok (<[r := GraphOps.deselect g]> h)) gs h
      = Ok h' /\
      forall r, h' !! r = if decide (r ∈ gs) then GraphOps.deselect <$> h !! r else h !! r.
Proof.
  induction gs as [| r0 gs IH]; intros h Hlive; cbn [for_each].
  - exists h. split; [reflexivity |]. intros r. destruct (decide (r ∈ [])) as [Hin |]; [| reflexivity].
    inversion Hin.
  - destruct (Hlive r0) as [g0 Hg0]; [left |]. unfold deref at 1. rewrite Hg0. cbn [bind].
    destruct (IH (<[r0 := GraphOps.deselect g0]> h)) as (h' & -> & Hh').
    { intros r Hr. destruct (decide (r0 = r)) as [-> | Hne].
      - rewrite lookup_insert_eq. eauto.
      - rewrite lookup_insert_ne by exact Hne. apply Hlive. right. exact Hr. }
    exists h'. split; [reflexivity |]. intros r. rewrite Hh'.
    destruct (decide (r0 = r)) as [<- | Hne].
    + rewrite lookup_insert_eq, Hg0. cbn [fmap option_fmap option_map].
      rewrite graph_deselect_idem.
      destruct (decide (r0 ∈ gs)); destruct (decide (r0 ∈ r0 :: gs)) as [| Hn];
        try reflexivity; exfalso; apply Hn; left.
    + rewrite lookup_insert_ne by exact Hne.
      destruct (decide (r ∈ gs)) as [Hin | Hnin];
        destruct (decide (r ∈ r0 :: gs)) as [Hin' | Hnin']; try reflexivity.
      * exfalso. apply Hnin'. right. exact Hin.
      * exfalso. apply elem_of_cons in Hin' as [-> | Hin']; [apply Hne; reflexivity | auto].
Qed.

(** X24. [deselect_all()] on a view with live graph references succeeds:
    afterwards no graph of the view reports a selection, every graph has
    the bounds it had, and graphs outside the view are untouched. *)
Theorem deselect_all_clears (h : heap) (v : GraphView.t) :
  (forall r, r ∈ GraphView.graphs v -> is_Some (h !! r)) ->
  exists h',
    GraphViewOps.deselect_all (h, v) = Ok (h', v) /\
    (forall r, r ∈ GraphView.graphs v ->
               exists g g', h !! r = Some g /\ h' !! r = Some g' /\
                            GraphOps.is_selected g' = false /\ bounds g' = bounds g) /\
    (forall r, r ∉ GraphView.graphs v -> h' !! r = h !! r).
Proof.
  intros Hlive. unfold GraphViewOps.deselect_all.
  destruct (deselect_loop (GraphView.graphs v) h Hlive) as (h' & -> & Hh').
  exists h'. split; [reflexivity |]. split.
  - intros r Hr. destruct (Hlive r Hr) as [g Hg]. exists g, (GraphOps.deselect g).
    split; [exact Hg |]. split.
    + rewrite Hh'. destruct (decide (r ∈ GraphView.graphs v)); [| contradiction].
      rewrite Hg. reflexivity.
    + split; [| reflexivity]. unfold GraphOps.is_selected, GraphOps.deselect.
      change (Graph.layers (Graph.with_layers ?ls _ _)) with ls.
      apply existsb_map_false. reflexivity.
  - intros r Hr. rewrite Hh'. destruct (decide (r ∈ GraphView.graphs v)); [contradiction |].
    reflexivity.
Qed.

Lemma deselect_all_clears_witness :
  exists h',
    GraphViewOps.deselect_all (linked_heap, linked_view) = Ok (h', linked_view) /\
    (forall r, r ∈ GraphView.graphs linked_view ->
               exists g g', linked_heap !! r = Some g /\ h' !! r = Some g' /\
                            GraphOps.is_selected g' = false /\ bounds g' = bounds g) /\
    (forall r, r ∉ GraphView.graphs linked_view -> h' !! r = linked_heap !! r).
Proof.
  apply (deselect_all_clears linked_heap linked_view).
  apply linked_closed.
Defined.
